(** * Luup Life: the ephemeral session store and the live-broadcast hub

    A shallow embedding of [server/main.py]: the session-management
    functions ([create_session], [get_session], [update_session],
    [delete_session], one cycle of [cleanup_expired_sessions]), the
    WebSocket [ConnectionManager], the quick-poll handlers
    ([create_quick_poll], [get_quick_poll], [submit_poll_response],
    [get_poll_results]), the chat-room, whiteboard and photo-gallery
    endpoints, the two WebSocket handlers and [upload_photos].

    The Python module keeps its state in globals ([redis_client],
    [memory_storage]) and talks to three outside parties: the wall clock
    ([datetime.now]), the UUID generator and the Redis server.  The
    embedding threads a [world] through every function and reads the outside
    parties from an [env] of oracles indexed by a step counter, so that each
    clock reading and each Redis round trip of the source is a separate
    event that may observe a different time or a different availability.

    The expiry that the module hands to [SETEX] is
    [SESSION_TTL.total_seconds()], a float.  The Redis server takes whole
    seconds only and answers such a command with an error: [create_session]
    lets that exception through, and [update_session] swallows it.  A
    record in Redis is therefore one that another writer of the same keys
    has put there; the module itself keeps its sessions in
    [memory_storage], and creates them only while Redis cannot be
    reached. *)

From stdpp Require Import gmap strings list fin_maps pretty.
From Stdlib Require Import ZArith Lia.
From Stdlib Require Floats.SpecFloat.

Set Warnings "-register-all".

(** ** Values *)

(** A Python [float] is an IEEE 754 binary64 value: a signed zero, a
    signed infinity, a NaN, or a finite number [(-1)^s * m * 2^e]. *)
Definition float : Type := SpecFloat.spec_float.

(** The float nearest to an integer, and the quotient of two floats. *)
Definition float_of_Z (n : Z) : float := SpecFloat.binary_normalize 53 1024 n 0 false.
Definition float_div (x y : float) : float := SpecFloat.SFdiv 53 1024 x y.

(** [x <= n] for a float [x] and an integer [n]: Python compares the two
    exactly; a NaN compares false. *)
Definition float_leb_Z (x : float) (n : Z) : bool :=
  match x with
  | SpecFloat.S754_zero _ => (0 <=? n)%Z
  | SpecFloat.S754_infinity negative => negative
  | SpecFloat.S754_nan => false
  | SpecFloat.S754_finite negative m e =>
      let mantissa := if negative then Z.neg m else Z.pos m in
      if (0 <=? e)%Z then (mantissa * 2 ^ e <=? n)%Z
      else (mantissa <=? n * 2 ^ (- e))%Z
  end.

(** JSON values as they are stored in a session payload and as
    [json.loads] decodes them from a WebSocket frame. *)
Inductive json : Type :=
  | JNull
  | JBool (b : bool)
  | JInt (n : Z)
  | JFloat (x : float)
  | JStr (s : string)
  | JList (l : list json)
  | JDict (kv : list (string * json)).

(** Python truthiness, as used by [if x:]. *)
Definition truthy (v : json) : bool :=
  match v with
  | JNull => false
  | JBool b => b
  | JInt n => negb (n =? 0)%Z
  | JFloat x => match x with SpecFloat.S754_zero _ => false | _ => true end
  | JStr s => negb (String.eqb s "")
  | JList l => match l with [] => false | _ => true end
  | JDict kv => match kv with [] => false | _ => true end
  end.

(** A number as Python passes it to a library: an [int] or a [float]. *)
Inductive number : Type :=
  | PyInt (n : Z)
  | PyFloat (x : float).

(** Instants and durations are counted in microseconds, the resolution of
    [datetime].  [timedelta.total_seconds()] divides the microseconds by
    [10**6] with true division: its result is a float, also when the
    duration is a whole number of seconds. *)
Definition timedelta_minutes (m : Z) : Z := (m * 60 * 1000000)%Z.
Definition total_seconds (d : Z) : float :=
  float_div (float_of_Z d) (float_of_Z (10 ^ 6)).

Definition SESSION_TTL_MINUTES : Z := 20.
Definition SESSION_TTL : Z := timedelta_minutes SESSION_TTL_MINUTES.

Module SessionType.
Definition PHOTO_SHARE : string := "photo_share".
Definition CHAT_ROOM : string := "chat_room".
Definition WHITEBOARD : string := "whiteboard".
Definition QUICK_POLL : string := "quick_poll".
End SessionType.

(** The dictionary built by [create_session]: four fixed keys.  The two
    timestamps are kept as instants: the source stores their
    [isoformat()] strings and reads them back with [fromisoformat], which
    returns the same instant. *)
Record session : Type := Session {
  session_type : string;
  created_at : Z;
  expires_at : Z;
  data : gmap string json
}.

(** [session_data["data"].update(d)]: keys of [d] override. *)
Definition dict_update (old d : gmap string json) : gmap string json := d ∪ old.

Definition with_data (s : session) (d : gmap string json) : session :=
  {| session_type := session_type s; created_at := created_at s;
     expires_at := expires_at s; data := d |}.

(** ** The world and its environment *)

(** [redis_client] tells whether the global of that name holds a client.
    [redis_db] is the content of the Redis server: the value stored under
    the key [session:<id>] (indexed here by [<id>]) together with the
    instant at which the server expires the key; the value is the record
    itself, since [json.loads] gives back what [json.dumps] was given.
    [tmp_data] is the set of session directories that exist under
    [TMP_DIR].  [tick] counts the readings of the environment made so
    far. *)
Record world : Type := World {
  redis_client : bool;
  redis_db : gmap string (session * Z);
  memory_storage : gmap string session;
  tmp_data : gset string;
  tick : nat
}.

(** What the outside parties answer at each step: whether the Redis server
    can be reached, what the clock shows, which UUID is drawn, and how an
    instant is printed by [isoformat()]. *)
Record env : Type := Env {
  redis_up : nat → bool;
  clock : nat → Z;
  uuid : nat → string;
  isoformat : Z → string
}.

Definition empty_world : world :=
  {| redis_client := false; redis_db := ∅; memory_storage := ∅;
     tmp_data := ∅; tick := 0 |}.

Definition bump (w : world) : world :=
  {| redis_client := redis_client w; redis_db := redis_db w;
     memory_storage := memory_storage w; tmp_data := tmp_data w;
     tick := S (tick w) |}.

Definition set_redis_client (b : bool) (w : world) : world :=
  {| redis_client := b; redis_db := redis_db w;
     memory_storage := memory_storage w; tmp_data := tmp_data w;
     tick := tick w |}.

Definition set_redis_db (db : gmap string (session * Z)) (w : world) : world :=
  {| redis_client := redis_client w; redis_db := db;
     memory_storage := memory_storage w; tmp_data := tmp_data w;
     tick := tick w |}.

Definition set_memory_storage (m : gmap string session) (w : world) : world :=
  {| redis_client := redis_client w; redis_db := redis_db w;
     memory_storage := m; tmp_data := tmp_data w; tick := tick w |}.

Definition set_tmp_data (d : gset string) (w : world) : world :=
  {| redis_client := redis_client w; redis_db := redis_db w;
     memory_storage := memory_storage w; tmp_data := d; tick := tick w |}.

(** ** A state-and-exception monad *)

Inductive exn : Type :=
  | RedisError
  | ResponseError
  | HTTPException (status_code : Z)
  | KeyError
  | TypeError
  | AttributeError
  | ValueError.

Inductive outcome (A : Type) : Type :=
  | Ret (a : A)
  | Raise (x : exn).
Arguments Ret {A} a.
Arguments Raise {A} x.

Definition M (A : Type) : Type := env → world → outcome A * world.

Definition ret {A} (a : A) : M A := λ _ w, (Ret a, w).
Definition raise {A} (x : exn) : M A := λ _ w, (Raise x, w).

Definition bind {A B} (m : M A) (k : A → M B) : M B :=
  λ e w, match m e w with
         | (Ret a, w') => k a e w'
         | (Raise x, w') => (Raise x, w')
         end.

(** [try: m except Exception: h] *)
Definition try_except {A} (m : M A) (h : exn → M A) : M A :=
  λ e w, match m e w with
         | (Ret a, w') => (Ret a, w')
         | (Raise x, w') => h x e w'
         end.

Declare Scope py_scope.
Delimit Scope py_scope with py.
Notation "x <- m ;; k" := (bind m (λ x, k))
  (at level 100, m at next level, right associativity) : py_scope.
Notation "m ;; k" := (bind m (λ _, k))
  (at level 100, right associativity) : py_scope.
Local Open Scope py_scope.

Definition gets {A} (f : world → A) : M A := λ _ w, (Ret (f w), w).
Definition modify (f : world → world) : M unit := λ _ w, (Ret tt, f w).

Fixpoint for_each {A} (l : list A) (body : A → M unit) : M unit :=
  match l with
  | [] => ret tt
  | x :: l' => body x ;; for_each l' body
  end.

(** ** The outside parties *)

(** [datetime.now(timezone.utc)] *)
Definition utcnow : M Z := λ e w, (Ret (clock e (tick w)), bump w).

(** [str(uuid.uuid4())] *)
Definition uuid4 : M string := λ e w, (Ret (uuid e (tick w)), bump w).

(** One round trip to the Redis server: it fails with a connection error
    when the server is unreachable at that step, and otherwise runs the
    command [f] at the server's current time. *)
Definition redis_call {A}
    (f : Z → gmap string (session * Z) → A * gmap string (session * Z)) : M A :=
  λ e w,
    if redis_up e (tick w)
    then let r := f (clock e (tick w)) (redis_db w) in
         (Ret r.1, bump (set_redis_db r.2 w))
    else (Raise RedisError, bump w).

(** The server drops a key [seconds] after the [SETEX] that wrote it:
    [GET] and [KEYS] see the key before that instant and not from it on. *)
Definition live (t : Z) (v : session * Z) : bool := (t <? v.2)%Z.

Definition redis_lookup (t : Z) (db : gmap string (session * Z)) (key : string)
    : option session :=
  match db !! key with
  | Some v => if live t v then Some v.1 else None
  | None => None
  end.

(** [PING] *)
Definition redis_ping : M unit := redis_call (λ _ db, (tt, db)).

(** [GET session:<key>] *)
Definition redis_get (key : string) : M (option session) :=
  redis_call (λ t db, (redis_lookup t db key, db)).

(** A command that the server answers with an error reply: the client
    raises [ResponseError], or the connection error when the server
    cannot be reached. *)
Definition redis_refused {A} : M A :=
  λ e w, (Raise (if redis_up e (tick w) then ResponseError else RedisError), bump w).

(** [SETEX key seconds value].  The client writes the [seconds] argument
    into the command as Python prints it.  The server accepts a positive
    integer; the text of a float ([1200.0]) is not an integer for it, and
    it answers "value is not an integer or out of range" without storing
    anything. *)
Definition redis_setex (key : string) (seconds : number) (value : session) : M unit :=
  match seconds with
  | PyInt n =>
      if (0 <? n)%Z
      then redis_call (λ t db, (tt, <[key := (value, (t + n * 1000000)%Z)]> db))
      else redis_refused
  | PyFloat _ => redis_refused
  end.

(** [DEL session:<key>] *)
Definition redis_delete (key : string) : M unit :=
  redis_call (λ _ db, (tt, delete key db)).

(** [KEYS session:*], with the prefix already stripped from each key as
    [key.decode().replace("session:", "")] does for a UUID. *)
Definition redis_keys : M (list string) :=
  redis_call (λ t db, ((map_to_list (filter (λ kv, live t kv.2 = true) db)).*1, db)).

(** The file system under [TMP_DIR]. *)
Definition os_makedirs (session_id : string) : M unit :=
  modify (λ w, set_tmp_data ({[session_id]} ∪ tmp_data w) w).
Definition os_path_exists (session_id : string) : M bool :=
  gets (λ w, bool_decide (session_id ∈ tmp_data w)).
Definition shutil_rmtree (session_id : string) : M unit :=
  modify (λ w, set_tmp_data (tmp_data w ∖ {[session_id]}) w).

(** ** Session management *)

(** [get_redis]: connect on first use; a failed ping leaves the client
    unset, so the next call tries again. *)
Definition get_redis : M bool :=
  client <- gets redis_client ;;
  if client then ret true
  else try_except
         (redis_ping ;; modify (set_redis_client true) ;; ret true)
         (λ _, modify (set_redis_client false) ;; ret false).

(** [data or {}] *)
Definition or_empty (d : option (gmap string json)) : gmap string json :=
  match d with
  | Some m => if bool_decide (m = ∅) then ∅ else m
  | None => ∅
  end.

(** [create_session]: the dictionary literal reads the clock once for
    ["created_at"] and once more for ["expires_at"]; the record is sent
    to Redis when [get_redis] returns a client, with the float
    [SESSION_TTL.total_seconds()] as the expiry (an exception of the
    [SETEX] is not caught), and goes to [memory_storage] otherwise. *)
Definition create_session (ty : string) (d : option (gmap string json)) : M string :=
  session_id <- uuid4 ;;
  t_created <- utcnow ;;
  t_expires <- utcnow ;;
  let session_data :=
    {| session_type := ty; created_at := t_created;
       expires_at := (t_expires + SESSION_TTL)%Z; data := or_empty d |} in
  redis <- get_redis ;;
  (if redis : bool
   then redis_setex session_id (PyFloat (total_seconds SESSION_TTL)) session_data
   else modify (λ w, set_memory_storage (<[session_id := session_data]> (memory_storage w)) w)) ;;
  ret session_id.

(** Where the dictionary returned by [get_session] comes from: a fresh
    copy decoded from Redis, or the very object held by [memory_storage]. *)
Inductive origin : Type := FromRedis | FromMemory.

Definition read_grace_period : Z := timedelta_minutes 2.

(** [now > expires_at + grace_period] *)
Definition past_grace (now : Z) (s : session) : bool :=
  (expires_at s + read_grace_period <? now)%Z.

(** [get_session], returning with the record where it comes from.  The
    inner block answers [Some result] where the source returns [result]
    from inside the [try], and [None] where control falls through to the
    in-memory lookup. *)
Definition get_session_origin (session_id : string) : M (option (session * origin)) :=
  now <- utcnow ;;
  redis <- get_redis ;;
  returned <-
    (if redis : bool
     then try_except
            (found <- redis_get session_id ;;
             match found with
             | Some session_data =>
                 if past_grace now session_data then ret (Some None)
                 else ret (Some (Some (session_data, FromRedis)))
             | None => ret None
             end)
            (λ _, ret None)
     else ret None) ;;
  match returned with
  | Some result => ret result
  | None =>
      stored <- gets (λ w, memory_storage w !! session_id) ;;
      match stored with
      | Some session_data =>
          if past_grace now session_data
          then modify (λ w, set_memory_storage (delete session_id (memory_storage w)) w) ;;
               ret None
          else ret (Some (session_data, FromMemory))
      | None => ret None
      end
  end.

(** [get_session] as its callers see it. *)
Definition get_session (session_id : string) : M (option session) :=
  r <- get_session_origin session_id ;;
  ret (fst <$> r).

(** [update_session]: read, merge, send to Redis if there is a client
    (again with the float expiry; any exception is swallowed), and always
    write to [memory_storage]. *)
Definition update_session (session_id : string) (d : gmap string json) : M unit :=
  found <- get_session session_id ;;
  match found with
  | Some session_data =>
      let session_data := with_data session_data (dict_update (data session_data) d) in
      redis <- get_redis ;;
      (if redis : bool
       then try_except
              (redis_setex session_id (PyFloat (total_seconds SESSION_TTL)) session_data)
              (λ _, ret tt)
       else ret tt) ;;
      modify (λ w, set_memory_storage (<[session_id := session_data]> (memory_storage w)) w)
  | None => ret tt
  end.

(** [delete_session]: the record is removed from both backends first;
    the session is read back afterwards to decide about its directory. *)
Definition delete_session (session_id : string) : M unit :=
  redis <- get_redis ;;
  (if redis : bool
   then try_except (redis_delete session_id) (λ _, ret tt)
   else ret tt) ;;
  modify (λ w, set_memory_storage (delete session_id (memory_storage w)) w) ;;
  found <- get_session session_id ;;
  match found with
  | Some session_data =>
      if bool_decide (session_type session_data = SessionType.PHOTO_SHARE)
      then exists_dir <- os_path_exists session_id ;;
           if exists_dir : bool then shutil_rmtree session_id else ret tt
      else ret tt
  | None => ret tt
  end.

Definition reap_grace_period : Z := timedelta_minutes 5.

(** The ids that the in-memory branch of the reaper collects. *)
Definition expired_sessions (cutoff_time : Z) (m : gmap string session) : list string :=
  (map_to_list (filter (λ kv, (expires_at kv.2 <? cutoff_time)%Z = true) m)).*1.

(** One iteration of the [while True] loop of [cleanup_expired_sessions],
    without the final sleep: the [try] block and its handler. *)
Definition cleanup_cycle : M unit :=
  try_except
    (now <- utcnow ;;
     let cutoff_time := (now - reap_grace_period)%Z in
     redis <- get_redis ;;
     if redis : bool
     then keys <- redis_keys ;;
          for_each keys (λ key,
            found <- redis_get key ;;
            match found with
            | Some session_data =>
                if (expires_at session_data <? cutoff_time)%Z
                then delete_session key
                else ret tt
            | None => ret tt
            end)
     else expired <- gets (λ w, expired_sessions cutoff_time (memory_storage w)) ;;
          for_each expired delete_session)
    (λ _, ret tt).

(** ** The WebSocket connection manager *)

Module ConnectionManager.

(** A WebSocket is identified by a number.  The state of the manager is
    its [active_connections] dictionary. *)
Definition websocket : Type := nat.

Definition init : gmap string (list websocket) := ∅.

(** [connect], after the handshake [websocket.accept()]. *)
Definition connect (ws : websocket) (session_id : string)
    (active_connections : gmap string (list websocket))
    : gmap string (list websocket) :=
  let active_connections :=
    match active_connections !! session_id with
    | None => <[session_id := []]> active_connections
    | Some _ => active_connections
    end in
  alter (λ l, l ++ [ws]) session_id active_connections.

(** [list.remove(x)]: drops the first occurrence; [None] stands for the
    [ValueError] raised when there is none. *)
Fixpoint list_remove (x : websocket) (l : list websocket) : option (list websocket) :=
  match l with
  | [] => None
  | y :: l' =>
      if decide (x = y) then Some l'
      else match list_remove x l' with
           | Some l'' => Some (y :: l'')
           | None => None
           end
  end.

Definition disconnect (ws : websocket) (session_id : string)
    (active_connections : gmap string (list websocket))
    : outcome unit * gmap string (list websocket) :=
  match active_connections !! session_id with
  | Some l =>
      match list_remove ws l with
      | Some l' =>
          match l' with
          | [] => (Ret tt, delete session_id active_connections)
          | _ => (Ret tt, <[session_id := l']> active_connections)
          end
      | None => (Raise ValueError, active_connections)
      end
  | None => (Ret tt, active_connections)
  end.

(** One call of [connection.send_text]: the connection, the message and
    whether the call returned ([true]) or raised. *)
Record attempt : Type := Attempt {
  target : websocket;
  message_sent : json;
  returned : bool
}.

(** The loop of [send_to_session]: [send_text ws m] tells whether sending
    [m] on [ws] returns; an exception is swallowed by [except: pass] and
    the loop goes on. *)
Fixpoint send_each (send_text : websocket → json → bool) (message : json)
    (connections : list websocket) : list attempt :=
  match connections with
  | [] => []
  | connection :: rest =>
      {| target := connection; message_sent := message;
         returned := send_text connection message |}
      :: send_each send_text message rest
  end.

(** [send_to_session] returns the attempts it made and the dictionary,
    which it never modifies. *)
Definition send_to_session (send_text : websocket → json → bool)
    (message : json) (session_id : string)
    (active_connections : gmap string (list websocket))
    : list attempt * gmap string (list websocket) :=
  match active_connections !! session_id with
  | Some connections => (send_each send_text message connections, active_connections)
  | None => ([], active_connections)
  end.

(** The operations that the WebSocket handlers perform on the manager. *)
Inductive op : Type :=
  | Connect (ws : websocket) (session_id : string)
  | Disconnect (ws : websocket) (session_id : string)
  | Broadcast (message : json) (session_id : string).

Definition step (send_text : websocket → json → bool) (op : op)
    (active_connections : gmap string (list websocket))
    : gmap string (list websocket) :=
  match op with
  | Connect ws sid => connect ws sid active_connections
  | Disconnect ws sid => (disconnect ws sid active_connections).2
  | Broadcast m sid => (send_to_session send_text m sid active_connections).2
  end.

(** The state after a sequence of operations on a fresh manager. *)
Definition run (send_text : websocket → json → bool) (ops : list op)
    : gmap string (list websocket) :=
  foldl (λ ac o, step send_text o ac) init ops.

(** No session id is mapped to an empty list. *)
Definition no_empty_entry (active_connections : gmap string (list websocket)) : Prop :=
  ∀ sid l, active_connections !! sid = Some l → l ≠ [].

(** Two connections on one session; sending fails on connection 1. *)
Definition two_clients : gmap string (list websocket) :=
  run (λ _ _, true) [Connect 1 "s1"; Connect 2 "s1"].
Definition first_fails : websocket → json → bool := λ ws _, negb (ws =? 1).

End ConnectionManager.

(** ** Quick polls *)

(** [d[k]] on a dictionary *)
Definition getitem (d : gmap string json) (k : string) : M json :=
  match d !! k with
  | Some v => ret v
  | None => raise KeyError
  end.

(** [len(v)], for the values that have a length (strings are ASCII). *)
Definition len_of (v : json) : option nat :=
  match v with
  | JList l => Some (length l)
  | JDict kv => Some (length kv)
  | JStr s => Some (String.length s)
  | _ => None
  end.

Definition py_len (v : json) : M nat :=
  match len_of v with
  | Some n => ret n
  | None => raise TypeError
  end.

(** [datetime.now(timezone.utc).isoformat()] *)
Definition utcnow_isoformat : M string :=
  λ e w, (Ret (isoformat e (clock e (tick w))), bump w).

(** [v.append(x)] *)
Definition py_append (v x : json) : M json :=
  match v with
  | JList l => ret (JList (l ++ [x]))
  | _ => raise AttributeError
  end.

(** The integer that Python compares when [v] is an [int] or a [bool]. *)
Definition as_int (v : json) : option Z :=
  match v with
  | JInt n => Some n
  | JBool b => Some (if b then 1 else 0)%Z
  | _ => None
  end.

(** [n >= v] for an integer [n]: defined for numbers only. *)
Definition py_ge (n : nat) (v : json) : M bool :=
  match v with
  | JFloat x => ret (float_leb_Z x (Z.of_nat n))
  | _ =>
      match as_int v with
      | Some m => ret (m <=? Z.of_nat n)%Z
      | None => raise TypeError
      end
  end.

Definition create_quick_poll (questions : list string) (min_responses : Z) : M string :=
  if (3 <? length questions)%nat then raise (HTTPException 400)
  else if (min_responses <? 1)%Z then raise (HTTPException 400)
  else create_session SessionType.QUICK_POLL
         (Some {[ "questions" := JList (JStr <$> questions);
                  "min_responses" := JInt min_responses;
                  "responses" := JList [];
                  "results_shown" := JBool false ]}).

(** The body of the reply of [submit_poll_response]. *)
Record submit_reply : Type := SubmitReply {
  response_count : nat;
  results_shown : bool;
  min_responses : json
}.

(** The payload that [submit_poll_response] passes to [update_session]. *)
Definition poll_update (poll_responses : json) (shown : bool) : gmap string json :=
  {[ "responses" := poll_responses; "results_shown" := JBool shown ]}.

Definition submit_poll_response (session_id : string) (responses : list string)
    : M submit_reply :=
  found <- get_session_origin session_id ;;
  match found with
  | None => raise (HTTPException 404)
  | Some (session_data, from) =>
      if negb (String.eqb (session_type session_data) SessionType.QUICK_POLL)
      then raise (HTTPException 404)
      else
        shown <- getitem (data session_data) "results_shown" ;;
        if truthy shown then raise (HTTPException 400)
        else
          questions <- getitem (data session_data) "questions" ;;
          n_questions <- py_len questions ;;
          if negb (length responses =? n_questions)%nat
          then raise (HTTPException 400)
          else
            poll_responses <- getitem (data session_data) "responses" ;;
            (match poll_responses with
             | JList _ => ret tt
             | _ => raise AttributeError
             end) ;;
            response_id <- uuid4 ;;
            timestamp <- utcnow_isoformat ;;
            poll_responses <-
              py_append poll_responses
                (JDict [("id", JStr response_id);
                        ("responses", JList (JStr <$> responses));
                        ("timestamp", JStr timestamp)]) ;;
            (* the list is appended to in place: when the dictionary is the
               one held by [memory_storage], the stored record changes too *)
            (match from with
             | FromMemory =>
                 modify (λ w, set_memory_storage
                   (<[session_id :=
                        with_data session_data
                          (<["responses" := poll_responses]> (data session_data))]>
                      (memory_storage w)) w)
             | FromRedis => ret tt
             end) ;;
            count <- py_len poll_responses ;;
            minimum <- getitem (data session_data) "min_responses" ;;
            shown <- py_ge count minimum ;;
            update_session session_id (poll_update poll_responses shown) ;;
            ret {| response_count := count; results_shown := shown;
                   min_responses := minimum |}
  end.

Record results_reply : Type := ResultsReply {
  reply_session_id : string;
  reply_questions : json;
  reply_responses : json
}.

Definition get_poll_results (session_id : string) : M results_reply :=
  found <- get_session session_id ;;
  match found with
  | None => raise (HTTPException 404)
  | Some session_data =>
      if negb (String.eqb (session_type session_data) SessionType.QUICK_POLL)
      then raise (HTTPException 404)
      else
        shown <- getitem (data session_data) "results_shown" ;;
        if negb (truthy shown) then raise (HTTPException 400)
        else
          questions <- getitem (data session_data) "questions" ;;
          responses <- getitem (data session_data) "responses" ;;
          ret {| reply_session_id := session_id; reply_questions := questions;
                 reply_responses := responses |}
  end.

(** ** Vocabulary of the statements *)

(** Both backends and the session directories are as they were. *)
Definition same_stores (w w' : world) : Prop :=
  redis_db w' = redis_db w ∧ memory_storage w' = memory_storage w ∧
  tmp_data w' = tmp_data w.

(** Once the Redis server has become unreachable it stays unreachable. *)
Definition no_recovery (e : env) : Prop :=
  ∀ n m, n ≤ m → redis_up e m = true → redis_up e n = true.

(** Later clock readings are not earlier. *)
Definition monotone_clock (e : env) : Prop :=
  ∀ n m, n ≤ m → (clock e n ≤ clock e m)%Z.

(** The answer of the in-memory branch of [get_session]. *)
Definition memory_answer {A} (inj : session → A) (now : Z) (sid : string)
    (w w' : world) (res : option A) : Prop :=
  match memory_storage w !! sid with
  | None => res = None ∧ memory_storage w' = memory_storage w
  | Some r =>
      if past_grace now r
      then res = None ∧ memory_storage w' = delete sid (memory_storage w)
      else res = Some (inj r) ∧ memory_storage w' = memory_storage w
  end.

(** The record after [session_data["data"].update(d)]. *)
Definition merged (r : session) (d : gmap string json) : session :=
  with_data r (dict_update (data r) d).

(** Neither backend holds a record for the id that a read at time [t]
    could return: Redis has no live value within its grace period, and
    neither has [memory_storage]. *)
Definition absent_at (t : Z) (w : world) (sid : string) : Prop :=
  (∀ r dl, redis_db w !! sid = Some (r, dl) → (t < dl)%Z →
     (t > expires_at r + read_grace_period)%Z) ∧
  (∀ r, memory_storage w !! sid = Some r →
     (t > expires_at r + read_grace_period)%Z).

(** The availability of Redis does not change. *)
Definition steady_redis (e : env) : Prop :=
  ∀ n m, redis_up e n = redis_up e m.

(** What a [GET] of the id sent at step [n] brings back: the live value,
    if the server can be reached and has one. *)
Definition redis_serves (e : env) (w : world) (sid : string) (n : nat)
    : option session :=
  if redis_up e n then redis_lookup (clock e n) (redis_db w) sid else None.

(** The record that the store holds for the id when the [GET] of a read
    is sent at step [n]: the one that Redis serves, and otherwise the
    one in [memory_storage]. *)
Definition served (e : env) (w : world) (sid : string) (n : nat)
    : option session :=
  match redis_serves e w sid n with
  | Some r => Some r
  | None => memory_storage w !! sid
  end.

(** Redis never serves a value for the id: whenever it can be reached it
    has no live value for it. *)
Definition redis_silent (e : env) (w : world) (sid : string) : Prop :=
  ∀ n, redis_up e n = true → redis_lookup (clock e n) (redis_db w) sid = None.

(** [memory_storage] holds record [r] for the id, and reads of the id are
    answered from there. *)
Definition kept (e : env) (w : world) (sid : string) (r : session) : Prop :=
  memory_storage w !! sid = Some r ∧ redis_silent e w sid.

(** The record is within its read grace period at every clock reading
    from step [first] to step [last]. *)
Definition within_grace (e : env) (r : session) (first last : nat) : Prop :=
  ∀ n, first ≤ n ≤ last → (clock e n ≤ expires_at r + read_grace_period)%Z.

(** The record that [create_session] builds in world [w]: the two
    timestamps come from two consecutive clock readings. *)
Definition created_record (e : env) (w : world) (ty : string)
    (d : option (gmap string json)) : session :=
  {| session_type := ty;
     created_at := clock e (tick w + 1);
     expires_at := (clock e (tick w + 2) + SESSION_TTL)%Z;
     data := or_empty d |}.

(** ** Scenarios *)

(** An environment whose Redis server is always ([up = true]) or never
    reachable, with the given clock. *)
Definition steady (up : bool) (times : nat → Z) : env :=
  {| redis_up := λ _, up; clock := times; uuid := λ _, "s1";
     isoformat := λ t, pretty t +:+ "us" |}.

(** One microsecond passes between consecutive steps. *)
Definition ticking : nat → Z := Z.of_nat.

(** As [ticking] for the first [k] steps; afterwards the time is [t]. *)
Definition jump (k : nat) (t : Z) : nat → Z :=
  λ n, if (n <? k)%nat then Z.of_nat n else t.

(** A photo-share session created while Redis is unreachable, with its
    directory of uploaded files, as [upload_photos] sets it up. *)
Definition photo_world : world :=
  ((sid <- create_session SessionType.PHOTO_SHARE None ;; os_makedirs sid)
     (steady false ticking) empty_world).2.

Definition chat_payload : gmap string json :=
  {[ "name" := JStr "Team"; "messages" := JList [] ]}.

Definition chat_world : world :=
  (create_session SessionType.CHAT_ROOM (Some chat_payload)
     (steady false ticking) empty_world).2.

Definition chat_record : session :=
  {| session_type := SessionType.CHAT_ROOM; created_at := 1;
     expires_at := 1200000002; data := chat_payload |}.

Definition chat_update : gmap string json :=
  {[ "messages" := JList [JDict [("text", JStr "hi")]] ]}.

(** A chat session created in memory at time 0 and read 2000 seconds
    later, long after its expiry and both grace periods. *)
Definition late : env := steady false (jump 4 2000000000).
Definition stale_world : world :=
  (create_session SessionType.CHAT_ROOM (Some chat_payload) late empty_world).2.

(** Redis is always reachable; one microsecond passes between steps. *)
Definition online : env := steady true ticking.

(** A process that has connected to Redis. *)
Definition connected_world : world := (get_redis online empty_world).2.

(** A Redis server that holds the chat-room record under [session:s1]
    until the instant [deadline], and a connected process that holds
    nothing itself.  The key is the work of another writer, one that
    passes an integer number of seconds: no call of this program stores
    anything in Redis. *)
Definition cached_until (deadline : Z) : world :=
  {| redis_client := true;
     redis_db := {[ "s1" := (chat_record, deadline) ]};
     memory_storage := ∅; tmp_data := ∅; tick := 0 |}.

(** The key lives until the end of the read grace period of the record. *)
Definition cached_world : world := cached_until 1320000002.

(** Redis is reachable and the time is 26 minutes after the creation of
    that record; the key lives for 40 minutes. *)
Definition overdue : env := steady true (jump 0 1560000000).
Definition overdue_world : world := cached_until 2400000000.

(** An outage and its end: Redis cannot be reached during the first four
    steps and can be reached from then on, when the time is 26 minutes
    later.  The chat session is created during the outage. *)
Definition recovered : env :=
  {| redis_up := λ n, (4 <=? n)%nat; clock := jump 4 1560000000;
     uuid := λ _, "s1"; isoformat := λ t, pretty t +:+ "us" |}.
Definition outage_world : world :=
  (create_session SessionType.CHAT_ROOM (Some chat_payload) recovered empty_world).2.

(** A poll with one question that reveals its results after two
    responses, created while Redis is unreachable. *)
Definition poll_world : world :=
  (create_quick_poll ["Lunch?"] 2 (steady false ticking) empty_world).2.

Definition poll_record : session :=
  {| session_type := SessionType.QUICK_POLL; created_at := 1;
     expires_at := 1200000002;
     data := {[ "questions" := JList [JStr "Lunch?"];
                "min_responses" := JInt 2;
                "responses" := JList [];
                "results_shown" := JBool false ]} |}.

(** ** Further vocabulary *)

(** Nothing is added to, or changed in, a backend or the file system. *)
Definition shrinks (w w' : world) : Prop :=
  redis_db w' ⊆ redis_db w ∧ memory_storage w' ⊆ memory_storage w ∧
  tmp_data w' ⊆ tmp_data w.

(** In an environment where the availability of Redis does not change,
    the backend that serves reads holds record [r] for the id: Redis (with
    a key that lives at least until [expires_at]) when it is reachable,
    [memory_storage] when it is not; and [r] was created in the past. *)
Definition held (e : env) (w : world) (sid : string) (r : session) : Prop :=
  (expires_at r ≤ clock e (tick w) + SESSION_TTL)%Z ∧
  if redis_up e 0
  then ∃ dl, redis_db w !! sid = Some (r, dl) ∧ (expires_at r ≤ dl)%Z
  else memory_storage w !! sid = Some r.

(** Where a read takes the record from in such an environment. *)
Definition serving (e : env) : origin :=
  if redis_up e 0 then FromRedis else FromMemory.

(** ** Chat rooms, whiteboards and photo galleries *)

(** [d.get(k, default)] *)
Definition dict_get (d : gmap string json) (k : string) (default_value : json) : json :=
  default default_value (d !! k).

(** The dictionary that [json.loads] builds from the members of an
    object: a later member replaces an earlier one with the same key. *)
Definition decoded (kv : list (string * json)) : gmap string json :=
  list_to_map (reverse kv).

(** [v[k]] for a value decoded from JSON: only an object can be indexed by
    a string, and a missing key is a [KeyError]. *)
Definition json_getitem (v : json) (k : string) : M json :=
  match v with
  | JDict kv =>
      match decoded kv !! k with
      | Some x => ret x
      | None => raise KeyError
      end
  | _ => raise TypeError
  end.

Record room_created : Type := RoomCreated {
  created_session_id : string;
  created_room_name : string
}.

(** [create_chat_room] *)
Definition create_chat_room (room_name : string) : M room_created :=
  session_id <-
    create_session SessionType.CHAT_ROOM
      (Some {[ "name" := JStr room_name; "messages" := JList [] ]}) ;;
  ret {| created_session_id := session_id; created_room_name := room_name |}.

Record room_reply : Type := RoomReply {
  room_session_id : string;
  room_name : json;
  room_expires_at : Z
}.

(** [get_chat_room] *)
Definition get_chat_room (session_id : string) : M room_reply :=
  found <- get_session session_id ;;
  match found with
  | None => raise (HTTPException 404)
  | Some session_data =>
      if negb (String.eqb (session_type session_data) SessionType.CHAT_ROOM)
      then raise (HTTPException 404)
      else
        name <- getitem (data session_data) "name" ;;
        ret {| room_session_id := session_id; room_name := name;
               room_expires_at := expires_at session_data |}
  end.

(** [create_whiteboard] *)
Definition create_whiteboard : M string :=
  create_session SessionType.WHITEBOARD (Some {[ "drawings" := JList [] ]}).

Record board_reply : Type := BoardReply {
  board_session_id : string;
  board_drawings : json;
  board_expires_at : Z
}.

(** [get_whiteboard] *)
Definition get_whiteboard (session_id : string) : M board_reply :=
  found <- get_session session_id ;;
  match found with
  | None => raise (HTTPException 404)
  | Some session_data =>
      if negb (String.eqb (session_type session_data) SessionType.WHITEBOARD)
      then raise (HTTPException 404)
      else
        ret {| board_session_id := session_id;
               board_drawings := dict_get (data session_data) "drawings" (JList []);
               board_expires_at := expires_at session_data |}
  end.

Record photos_reply : Type := PhotosReply {
  photos_session_id : string;
  photos_files : json;
  photos_expires_at : Z
}.

(** [view_photos] *)
Definition view_photos (session_id : string) : M photos_reply :=
  found <- get_session session_id ;;
  match found with
  | None => raise (HTTPException 404)
  | Some session_data =>
      if negb (String.eqb (session_type session_data) SessionType.PHOTO_SHARE)
      then raise (HTTPException 404)
      else
        ret {| photos_session_id := session_id;
               photos_files := dict_get (data session_data) "files" (JList []);
               photos_expires_at := expires_at session_data |}
  end.

Record poll_reply : Type := PollReply {
  poll_session_id : string;
  poll_questions : json;
  poll_min_responses : json;
  poll_response_count : nat;
  poll_results_shown : json;
  poll_expires_at : Z
}.

(** [get_quick_poll] *)
Definition get_quick_poll (session_id : string) : M poll_reply :=
  found <- get_session session_id ;;
  match found with
  | None => raise (HTTPException 404)
  | Some session_data =>
      if negb (String.eqb (session_type session_data) SessionType.QUICK_POLL)
      then raise (HTTPException 404)
      else
        questions <- getitem (data session_data) "questions" ;;
        minimum <- getitem (data session_data) "min_responses" ;;
        responses <- getitem (data session_data) "responses" ;;
        count <- py_len responses ;;
        shown <- getitem (data session_data) "results_shown" ;;
        ret {| poll_session_id := session_id; poll_questions := questions;
               poll_min_responses := minimum; poll_response_count := count;
               poll_results_shown := shown;
               poll_expires_at := expires_at session_data |}
  end.

(** ** The WebSocket handlers *)

(** The part of [chat_websocket] that handles one decoded message: the
    message is stored with a fresh id and a timestamp, and the message as
    received is sent to every connection of the session.  The list
    returned by [.get("messages", [])] is the stored one when the key
    exists, so appending to it changes the record held by
    [memory_storage] when the record comes from there. *)
Definition chat_on_message (send_text : ConnectionManager.websocket → json → bool)
    (active_connections : gmap string (list ConnectionManager.websocket))
    (session_id : string) (message_data : json)
    : M (list ConnectionManager.attempt) :=
  found <- get_session_origin session_id ;;
  match found with
  | Some (session_data, from) =>
      let messages := dict_get (data session_data) "messages" (JList []) in
      (match messages with
       | JList _ => ret tt
       | _ => raise AttributeError
       end) ;;
      message_id <- uuid4 ;;
      text <- json_getitem message_data "text" ;;
      timestamp <- utcnow_isoformat ;;
      messages <-
        py_append messages
          (JDict [("id", JStr message_id); ("text", text);
                  ("timestamp", JStr timestamp)]) ;;
      (match from, data session_data !! "messages" with
       | FromMemory, Some _ =>
           modify (λ w, set_memory_storage
             (<[session_id :=
                  with_data session_data
                    (<["messages" := messages]> (data session_data))]>
                (memory_storage w)) w)
       | _, _ => ret tt
       end) ;;
      update_session session_id {[ "messages" := messages ]} ;;
      ret (ConnectionManager.send_to_session send_text message_data session_id
             active_connections).1
  | None => ret []
  end.

(** The same for [whiteboard_websocket]: the drawing event is stored as
    received. *)
Definition whiteboard_on_message (send_text : ConnectionManager.websocket → json → bool)
    (active_connections : gmap string (list ConnectionManager.websocket))
    (session_id : string) (drawing_data : json)
    : M (list ConnectionManager.attempt) :=
  found <- get_session_origin session_id ;;
  match found with
  | Some (session_data, from) =>
      let drawings := dict_get (data session_data) "drawings" (JList []) in
      drawings <- py_append drawings drawing_data ;;
      (match from, data session_data !! "drawings" with
       | FromMemory, Some _ =>
           modify (λ w, set_memory_storage
             (<[session_id :=
                  with_data session_data
                    (<["drawings" := drawings]> (data session_data))]>
                (memory_storage w)) w)
       | _, _ => ret tt
       end) ;;
      update_session session_id {[ "drawings" := drawings ]} ;;
      ret (ConnectionManager.send_to_session send_text drawing_data session_id
             active_connections).1
  | None => ret []
  end.

(** What [receive_text] and [json.loads] give for one turn of the loop: a
    decoded message, a text that is not JSON, or the end of the
    connection. *)
Inductive frame : Type :=
  | Message (decoded : json)
  | NotJson
  | Closed.

(** How far a handler has got. *)
Inductive handler_state : Type :=
  | Listening
  | Disconnected
  | Crashed (x : exn).

(** A WebSocket handler: [connect], then one turn of the loop per frame.
    Only [WebSocketDisconnect] is caught, and answered by [disconnect];
    any other exception leaves the handler without it.  The result is the
    state of the handler, the delivery attempts it made, and the
    connection dictionary. *)
Fixpoint handler_loop
    (on_message : gmap string (list ConnectionManager.websocket) → json →
                  M (list ConnectionManager.attempt))
    (ws : ConnectionManager.websocket) (session_id : string)
    (frames : list frame)
    (active_connections : gmap string (list ConnectionManager.websocket))
    (e : env) (w : world)
    : handler_state * list ConnectionManager.attempt *
      gmap string (list ConnectionManager.websocket) * world :=
  match frames with
  | [] => (Listening, [], active_connections, w)
  | Closed :: _ =>
      match ConnectionManager.disconnect ws session_id active_connections with
      | (Ret _, ac) => (Disconnected, [], ac, w)
      | (Raise x, ac) => (Crashed x, [], ac, w)
      end
  | NotJson :: _ => (Crashed ValueError, [], active_connections, w)
  | Message m :: rest =>
      match on_message active_connections m e w with
      | (Ret sent, w') =>
          match handler_loop on_message ws session_id rest active_connections e w' with
          | (st, sent', ac, w'') => (st, sent ++ sent', ac, w'')
          end
      | (Raise x, w') => (Crashed x, [], active_connections, w')
      end
  end.

Definition chat_websocket (send_text : ConnectionManager.websocket → json → bool)
    (ws : ConnectionManager.websocket) (session_id : string) (frames : list frame)
    (active_connections : gmap string (list ConnectionManager.websocket))
    (e : env) (w : world) :=
  handler_loop (λ ac, chat_on_message send_text ac session_id) ws session_id frames
    (ConnectionManager.connect ws session_id active_connections) e w.

Definition whiteboard_websocket (send_text : ConnectionManager.websocket → json → bool)
    (ws : ConnectionManager.websocket) (session_id : string) (frames : list frame)
    (active_connections : gmap string (list ConnectionManager.websocket))
    (e : env) (w : world) :=
  handler_loop (λ ac, whiteboard_on_message send_text ac session_id) ws session_id
    frames (ConnectionManager.connect ws session_id active_connections) e w.

(** ** Photo uploads *)

Definition MAX_UPLOAD_BYTES : Z := 8 * 1024 * 1024.
Definition MAX_SESSION_BYTES : Z := 64 * 1024 * 1024.
Definition ALLOWED_IMAGE_TYPES : list string :=
  ["image/jpeg"; "image/png"; "image/webp"; "image/gif"; "image/bmp"; "image/tiff"].

(** The [quality] that [process_and_save_image] passes to [image.save],
    from the configured [JPEG_QUALITY] and the size of the image. *)
Definition save_quality (JPEG_QUALITY original_width original_height : Z) : Z :=
  let quality := JPEG_QUALITY in
  let quality :=
    if (2000000 <? original_width * original_height)%Z
    then Z.max (JPEG_QUALITY - 10) 60 else quality in
  let quality :=
    if (5000000 <? original_width * original_height)%Z
    then Z.max (JPEG_QUALITY - 20) 50 else quality in
  quality.

(** An uploaded file as [upload_photos] sees it: its declared content
    type (if any), the length of its content, and what
    [process_and_save_image] makes of it: the name and size of the file
    it writes, or [None] when it raises its [HTTPException] 400. *)
Record upload_file : Type := UploadFile {
  content_type : option string;
  content_length : Z;
  processed : option (string * Z)
}.

Definition allowed_type (file : upload_file) : bool :=
  match content_type file with
  | Some t => bool_decide (t ∈ ALLOWED_IMAGE_TYPES)
  | None => false
  end.

(** The [for file in files] loop of [upload_photos]. *)
Fixpoint upload_loop (files : list upload_file) (uploaded_files : list string)
    (total_size : Z) : M (list string) :=
  match files with
  | [] => ret uploaded_files
  | file :: rest =>
      if negb (allowed_type file) then raise (HTTPException 400)
      else if (MAX_UPLOAD_BYTES <? content_length file)%Z then raise (HTTPException 400)
      else
        match processed file with
        | None => raise (HTTPException 400)
        | Some (processed_filename, file_size) =>
            let total_size := (total_size + file_size)%Z in
            if (MAX_SESSION_BYTES <? total_size)%Z then raise (HTTPException 400)
            else upload_loop rest (uploaded_files ++ [processed_filename]) total_size
        end
  end.

Record upload_reply : Type := UploadReply {
  upload_session_id : string;
  upload_files : list string
}.

(** [upload_photos] *)
Definition upload_photos (files : list upload_file) : M upload_reply :=
  if (10 <? length files)%nat then raise (HTTPException 400)
  else
    session_id <- create_session SessionType.PHOTO_SHARE None ;;
    os_makedirs session_id ;;
    uploaded_files <- upload_loop files [] 0 ;;
    update_session session_id {[ "files" := JList (JStr <$> uploaded_files) ]} ;;
    ret {| upload_session_id := session_id; upload_files := uploaded_files |}.

(** ** Vocabulary for polls *)

(** A poll record as [create_quick_poll] and [submit_poll_response] keep
    it: [stored] responses out of the [minimum] that reveal the results,
    with the flag set exactly when that number is reached. *)
Definition poll_state (r : session) (questions : list json) (minimum : Z)
    (stored : list json) : Prop :=
  session_type r = SessionType.QUICK_POLL ∧
  data r !! "questions" = Some (JList questions) ∧
  data r !! "min_responses" = Some (JInt minimum) ∧
  data r !! "responses" = Some (JList stored) ∧
  data r !! "results_shown" = Some (JBool (minimum <=? Z.of_nat (length stored))%Z) ∧
  (1 ≤ minimum)%Z ∧ (Z.of_nat (length stored) ≤ minimum)%Z.

(** Two accepted files of 1 MB and 2 MB, and a text file. *)
Definition two_photos : list upload_file :=
  [ {| content_type := Some "image/png"; content_length := 1048576;
       processed := Some ("img_1_a.jpg", 300000%Z) |};
    {| content_type := Some "image/jpeg"; content_length := 2097152;
       processed := Some ("img_2_b.jpg", 500000%Z) |} ].
Definition text_file : upload_file :=
  {| content_type := Some "text/plain"; content_length := 10; processed := None |}.

(** The names and the total size of what [process_and_save_image] has
    written for a list of files. *)
Definition processed_names (files : list upload_file) : list string :=
  omap (λ file, fst <$> processed file) files.
Definition processed_size (files : list upload_file) : Z :=
  foldr (λ file total, (default 0 (snd <$> processed file) + total)%Z) 0%Z files.

(** A file that passes the checks of the upload loop on its own. *)
Definition acceptable (file : upload_file) : Prop :=
  allowed_type file = true ∧ (content_length file ≤ MAX_UPLOAD_BYTES)%Z ∧
  ∃ name size, processed file = Some (name, size).

(** Redis is never reachable; one microsecond passes between steps. *)
Definition offline : env := steady false ticking.

(** A whiteboard created while Redis is unreachable. *)
Definition board_world : world :=
  (create_whiteboard (steady false ticking) empty_world).2.
Definition board_record : session :=
  {| session_type := SessionType.WHITEBOARD; created_at := 1;
     expires_at := 1200000002; data := {[ "drawings" := JList [] ]} |}.

(** Redis is unreachable, and two ids are drawn one after the other: the
    gallery of [two_photos] is uploaded as [s1], then the chat room is
    created as [s2]. *)
Definition two_ids : env :=
  {| redis_up := λ _, false; clock := ticking;
     uuid := λ n, if (n <? 4)%nat then "s1" else "s2";
     isoformat := λ t, pretty t +:+ "us" |}.
Definition gallery_and_chat : world :=
  ((upload_photos two_photos ;;
    create_session SessionType.CHAT_ROOM (Some chat_payload)) two_ids empty_world).2.
Definition gallery_record : session :=
  {| session_type := SessionType.PHOTO_SHARE; created_at := 1;
     expires_at := 1200000002;
     data := {[ "files" := JList [JStr "img_1_a.jpg"; JStr "img_2_b.jpg"] ]} |}.

(** The poll of [poll_world] after a first response. *)
Definition voted_world : world :=
  (submit_poll_response "s1" ["yes"] offline poll_world).2.
Definition voted_record : session :=
  merged poll_record
    (poll_update (JList [JDict [("id", JStr "s1"); ("responses", JList [JStr "yes"]);
                                ("timestamp", JStr "7us")]]) false).

(** * Proofs *)

(** ** Reasoning about the monad *)

Ltac unfold_prims :=
  unfold get_redis, redis_get, redis_setex, redis_refused, redis_delete, redis_ping,
    redis_keys, redis_call, os_makedirs, os_path_exists, shutil_rmtree, utcnow, uuid4,
    bind, try_except, ret, raise, gets, modify in *.

Ltac step_if :=
  match goal with
  | |- context [if redis_up ?e ?n then _ else _] => destruct (redis_up e n) eqn:?
  | |- context [if redis_client ?w then _ else _] => destruct (redis_client w) eqn:?
  | |- context [if past_grace ?t ?s then _ else _] => destruct (past_grace t s) eqn:?
  | |- context [match redis_lookup ?t ?db ?k with _ => _ end] =>
      destruct (redis_lookup t db k) eqn:?
  | |- context [match memory_storage ?w !! ?k with _ => _ end] =>
      destruct (memory_storage w !! k) eqn:?
  end.

Ltac run := unfold_prims; repeat (cbn -[redis_lookup past_grace]; try step_if).

(** ** The environment *)

Lemma no_recovery_down e n m :
  no_recovery e → redis_up e n = false → n ≤ m → redis_up e m = false.
Proof.
  intros Hnr Hn Hle. destruct (redis_up e m) eqn:Hm; [|done].
  rewrite (Hnr n m Hle Hm) in Hn. done.
Qed.

(** ** What [get_session] does *)

Lemma redis_lookup_Some t db key r :
  redis_lookup t db key = Some r ↔ ∃ d, db !! key = Some (r, d) ∧ (t < d)%Z.
Proof.
  unfold redis_lookup, live. destruct (db !! key) as [[r0 d0]|]; cbn.
  - destruct (Z.ltb_spec t d0); split.
    + intros [= ->]. eauto.
    + intros (d & [= -> ->] & _). done.
    + done.
    + intros (d & [= -> ->] & ?). lia.
  - split; [done|]. intros (d & ? & _). done.
Qed.

Lemma past_grace_true now s :
  past_grace now s = true ↔ (now > expires_at s + read_grace_period)%Z.
Proof. unfold past_grace. rewrite Z.ltb_lt. lia. Qed.

Lemma past_grace_false now s :
  past_grace now s = false ↔ (now ≤ expires_at s + read_grace_period)%Z.
Proof. unfold past_grace. rewrite Z.ltb_ge. lia. Qed.

(** [get_session] never raises.  Either a Redis [GET] succeeded at some
    step [n] and found a live value, which decides the answer, or the
    answer comes from [memory_storage] after Redis failed or had no live
    value. *)
Lemma get_session_origin_spec e w sid :
  ∃ res w', get_session_origin sid e w = (Ret res, w') ∧
    redis_db w' = redis_db w ∧ tmp_data w' = tmp_data w ∧
    tick w < tick w' ≤ tick w + 3 ∧
    ((∃ n r, tick w < n < tick w' ∧ redis_up e n = true ∧
        redis_lookup (clock e n) (redis_db w) sid = Some r ∧
        memory_storage w' = memory_storage w ∧
        res = if past_grace (clock e (tick w)) r then None else Some (r, FromRedis))
     ∨
     (((∃ n, tick w < n < tick w' ∧ redis_up e n = false) ∨
       (∃ n, tick w < n < tick w' ∧ redis_up e n = true ∧
          redis_lookup (clock e n) (redis_db w) sid = None)) ∧
      memory_answer (λ r, (r, FromMemory)) (clock e (tick w)) sid w w' res)).
Proof.
  unfold get_session_origin. run.
  all: eexists _, _; (split; [reflexivity|]); cbn -[redis_lookup past_grace].
  all: split; [reflexivity|]; split; [reflexivity|]; split; [lia|].
  all: first
    [ left; eexists _, _; split; [|split; [eassumption|split; [eassumption|]]];
      [lia|]; split; [reflexivity|];
      match goal with H : past_grace _ _ = _ |- _ => rewrite H end; reflexivity
    | right; split;
      [ first [ left; eexists; split; [|eassumption]; lia
              | right; eexists; split; [|split; [|eassumption]]; [lia|assumption] ]
      | unfold memory_answer; cbn;
        repeat match goal with
               | H : memory_storage _ !! _ = _ |- _ => rewrite H
               | H : past_grace _ _ = _ |- _ => rewrite H
               end; split; reflexivity ] ].
Qed.

Lemma get_session_spec e w sid :
  ∃ res w', get_session sid e w = (Ret res, w') ∧
    redis_db w' = redis_db w ∧ tmp_data w' = tmp_data w ∧
    tick w < tick w' ≤ tick w + 3 ∧
    ((∃ n r, tick w < n < tick w' ∧ redis_up e n = true ∧
        redis_lookup (clock e n) (redis_db w) sid = Some r ∧
        memory_storage w' = memory_storage w ∧
        res = if past_grace (clock e (tick w)) r then None else Some r)
     ∨
     (((∃ n, tick w < n < tick w' ∧ redis_up e n = false) ∨
       (∃ n, tick w < n < tick w' ∧ redis_up e n = true ∧
          redis_lookup (clock e n) (redis_db w) sid = None)) ∧
      memory_answer (λ r, r) (clock e (tick w)) sid w w' res)).
Proof.
  destruct (get_session_origin_spec e w sid)
    as (res & w' & Heq & Hdb & Htmp & Htick & Hcase).
  exists (fst <$> res), w'. split.
  { unfold get_session, bind, ret. by rewrite Heq. }
  do 3 (split; [done|]).
  destruct Hcase as [(n & r & Hn & Hup & Hl & Hm & ->)|[Hwhy Hmem]].
  - left. exists n, r. do 4 (split; [done|]). by destruct (past_grace _ r).
  - right. split; [done|]. revert Hmem. unfold memory_answer.
    destruct (memory_storage w !! sid) as [r|]; [destruct (past_grace _ r)|];
      by intros [-> ?].
Qed.

(** ** What [update_session] does *)

Lemma bind_ret {A B} (m : M A) (k : A → M B) e w a w' :
  m e w = (Ret a, w') → bind m k e w = k a e w'.
Proof. unfold bind. by intros ->. Qed.

Lemma bind_raise {A B} (m : M A) (k : A → M B) e w x w' :
  m e w = (Raise x, w') → bind m k e w = (Raise x, w').
Proof. unfold bind. by intros ->. Qed.

(** [update_session] never raises.  It does exactly what its read does
    when the read finds nothing; otherwise it stores the merged record in
    [memory_storage].  Redis is as it was in both cases: the [SETEX] is
    refused, or fails with the connection. *)
Lemma update_session_spec e w sid d :
  ∃ found w1, get_session sid e w = (Ret found, w1) ∧
    match found with
    | None => update_session sid d e w = (Ret tt, w1)
    | Some r =>
        ∃ w', update_session sid d e w = (Ret tt, w') ∧
          tmp_data w' = tmp_data w1 ∧
          memory_storage w' = <[sid := merged r d]> (memory_storage w1) ∧
          tick w1 ≤ tick w' ≤ tick w1 + 2 ∧
          redis_db w' = redis_db w1
    end.
Proof.
  destruct (get_session_spec e w sid) as (found & w1 & Heq & _).
  exists found, w1. split; [done|].
  unfold update_session. rewrite (bind_ret _ _ _ _ _ _ Heq).
  destruct found as [r|]; [|done].
  run; eexists; (split; [reflexivity|]); cbn; do 2 (split; [done|]).
  all: split; [lia|done].
Qed.

(** ** What [delete_session] does *)

(** [get_redis] returns without raising, touches no store and takes at
    most one step; it answers [false] only after a failed ping. *)
Lemma get_redis_spec e w :
  ∃ b w', get_redis e w = (Ret b, w') ∧ same_stores w w' ∧
    redis_client w' = b ∧
    ((redis_client w = true ∧ b = true ∧ tick w' = tick w) ∨
     (redis_client w = false ∧ b = redis_up e (tick w) ∧ tick w' = S (tick w))).
Proof.
  run; eexists _, _; (split; [reflexivity|]); unfold same_stores; cbn;
    naive_solver.
Qed.

Lemma try_redis_delete_spec e w sid :
  ∃ w', try_except (redis_delete sid) (λ _, ret tt) e w = (Ret tt, w') ∧
    memory_storage w' = memory_storage w ∧ tmp_data w' = tmp_data w ∧
    tick w' = S (tick w) ∧
    ((redis_up e (tick w) = true ∧ redis_db w' = delete sid (redis_db w)) ∨
     (redis_up e (tick w) = false ∧ redis_db w' = redis_db w)).
Proof. run; eexists; (split; [reflexivity|]); cbn; naive_solver. Qed.

(** The record leaves [memory_storage], and Redis when the [DEL] went
    through.  The read that follows the removal finds nothing, so the
    branch that removes the session directory is not taken. *)
Lemma delete_session_spec e w sid :
  no_recovery e →
  ∃ w', delete_session sid e w = (Ret tt, w') ∧
    tmp_data w' = tmp_data w ∧
    memory_storage w' = delete sid (memory_storage w) ∧
    tick w < tick w' ∧
    ((redis_db w' = delete sid (redis_db w) ∧
      ∃ n, tick w ≤ n < tick w' ∧ redis_up e n = true) ∨
     (redis_db w' = redis_db w ∧
      ∃ n, tick w ≤ n < tick w' ∧ redis_up e n = false)).
Proof.
  intros Hnr. unfold delete_session.
  destruct (get_redis_spec e w) as (b & wa & Hgr & (Hdba & Hma & Hta) & _ & Hb).
  rewrite (bind_ret _ _ _ _ _ _ Hgr).
  (* the state after the Redis branch *)
  assert (∃ wb, (if b then try_except (redis_delete sid) (λ _, ret tt) else ret tt) e wa
                  = (Ret tt, wb) ∧
            memory_storage wb = memory_storage w ∧ tmp_data wb = tmp_data w ∧
            tick w ≤ tick wb ∧
            ((redis_db wb = delete sid (redis_db w) ∧
              ∃ n, tick w ≤ n < S (tick wb) ∧ redis_up e n = true) ∨
             (redis_db wb = redis_db w ∧
              ∃ n, tick w ≤ n < S (tick wb) ∧ redis_up e n = false)))
    as (wb & Hdel & Hmb & Htb & Hle & Hdb).
  { destruct b.
    - destruct (try_redis_delete_spec e wa sid) as (wb & Heq & Hm & Ht & Htk & Hc).
      exists wb. split; [done|]. rewrite Hm, Ht, Htk. do 2 (split; [done|]).
      split; [lia|].
      destruct Hc as [[Hup ->]|[Hup ->]]; [left|right]; rewrite Hdba;
        (split; [done|]); exists (tick wa); (split; [lia|done]).
    - exists wa. split; [done|]. do 2 (split; [done|]).
      destruct Hb as [(?&?&?)|(Hc & Hup & Htk)]; [done|].
      split; [lia|]. right. split; [done|]. exists (tick w). split; [lia|done]. }
  rewrite (bind_ret _ _ _ _ _ _ Hdel).
  unfold modify at 1. unfold bind at 1.
  set (wc := set_memory_storage (delete sid (memory_storage wb)) wb).
  destruct (get_session_spec e wc sid)
    as (res & wd & Hget & Hdbd & Htd & Htkd & Hcase).
  rewrite (bind_ret _ _ _ _ _ _ Hget).
  assert (res = None ∧ memory_storage wd = memory_storage wc) as [-> Hmd].
  { destruct Hcase as [(n & r & Hn & Hup & Hl & _)|[_ Hmem]].
    - exfalso. cbn in Hl, Hn.
      destruct Hdb as [[Hdb _]|[_ (m & Hm & Hdown)]].
      + rewrite Hdb in Hl. apply redis_lookup_Some in Hl as (dl & Hl & _).
        by rewrite lookup_delete_eq in Hl.
      + rewrite (no_recovery_down e m n Hnr Hdown) in Hup; [done|lia].
    - revert Hmem. unfold memory_answer. cbn.
      rewrite lookup_delete_eq. done. }
  exists wd. split; [done|]. rewrite Htd, Hmd, Hdbd. cbn. rewrite Htb, Hmb.
  do 2 (split; [done|]). cbn in Htkd. split; [lia|].
  destruct Hdb as [[-> (n & ? & ?)]|[-> (n & ? & ?)]]; [left|right];
    (split; [done|]); exists n; (split; [lia|done]).
Qed.

(** ** Reading back *)

(** X26. A record that [get_session] returns is within its read grace
    period: the time of the call is at most [expires_at] plus two
    minutes, whichever backend has served it. *)
Lemma get_session_sound e w sid r w' :
  get_session sid e w = (Ret (Some r), w') →
  (clock e (tick w) ≤ expires_at r + read_grace_period)%Z.
Proof.
  intros Heq.
  destruct (get_session_spec e w sid) as (res & w1 & Heq' & _ & _ & _ & Hcase).
  rewrite Heq in Heq'. injection Heq' as <- <-.
  apply past_grace_false.
  destruct Hcase as [(n & r0 & _ & _ & _ & _ & Hres)|[_ Hmem]].
  - destruct (past_grace _ r0) eqn:Hpg; [done|]. by injection Hres as ->.
  - revert Hmem. unfold memory_answer.
    destruct (memory_storage w !! sid) as [r0|]; [|by intros [? _]].
    destruct (past_grace _ r0) eqn:Hpg; intros [Hres _]; [done|].
    by injection Hres as ->.
Qed.

(** X27. When Redis holds nothing live for the id, or cannot be reached,
    the in-memory map decides: a record is returned exactly while the
    reading time is at most [expires_at] plus the read grace period. *)
Lemma get_session_memory_visible e w sid r :
  memory_storage w !! sid = Some r →
  (∀ n, redis_up e n = true → redis_lookup (clock e n) (redis_db w) sid = None) →
  ∃ res w', get_session sid e w = (Ret res, w') ∧
    (res = Some r ↔ (clock e (tick w) ≤ expires_at r + read_grace_period)%Z) ∧
    (res = None ↔ (clock e (tick w) > expires_at r + read_grace_period)%Z).
Proof.
  intros Hm Hredis.
  destruct (get_session_spec e w sid) as (res & w' & Heq & _ & _ & _ & Hcase).
  exists res, w'. split; [done|].
  destruct Hcase as [(n & r0 & _ & Hup & Hl & _)|[_ Hmem]].
  { rewrite (Hredis n Hup) in Hl. done. }
  revert Hmem. unfold memory_answer. rewrite Hm.
  rewrite <- past_grace_false, <- past_grace_true.
  destruct (past_grace _ r); intros [-> _]; split; split; done.
Qed.

(** X28. An id that neither backend knows is reported absent, not as an
    error, and both backends are left as they are. *)
Lemma get_session_unknown e w sid :
  memory_storage w !! sid = None → redis_db w !! sid = None →
  ∃ w', get_session sid e w = (Ret None, w') ∧
    memory_storage w' = memory_storage w ∧ redis_db w' = redis_db w.
Proof.
  intros Hm Hdb.
  destruct (get_session_spec e w sid) as (res & w' & Heq & Hdb' & _ & _ & Hcase).
  destruct Hcase as [(n & r0 & _ & _ & Hl & _)|[_ Hmem]].
  { apply redis_lookup_Some in Hl as (dl & Hl & _). by rewrite Hdb in Hl. }
  revert Hmem. unfold memory_answer. rewrite Hm. intros [-> Hm'].
  by exists w'.
Qed.

(** If every record that Redis might still serve for the id equals [r],
    and [memory_storage] holds [r], then [get_session] returns [r] while
    [r] is within its grace period. *)
Lemma get_session_agree e w sid r :
  memory_storage w !! sid = Some r →
  (clock e (tick w) ≤ expires_at r + read_grace_period)%Z →
  (∀ n x dl, tick w < n → redis_up e n = true →
     redis_db w !! sid = Some (x, dl) → x = r) →
  ∃ w', get_session sid e w = (Ret (Some r), w').
Proof.
  intros Hm Hgrace Hredis. apply past_grace_false in Hgrace.
  destruct (get_session_spec e w sid) as (res & w' & Heq & _ & _ & _ & Hcase).
  exists w'. rewrite Heq. do 2 f_equal.
  destruct Hcase as [(n & r0 & Hn & Hup & Hl & _ & ->)|[_ Hmem]].
  - apply redis_lookup_Some in Hl as (dl & Hl & _).
    rewrite (Hredis n r0 dl) by (done || lia). by rewrite Hgrace.
  - revert Hmem. unfold memory_answer. rewrite Hm, Hgrace. by intros [-> _].
Qed.

(** ** Absence *)

Lemma absent_at_mono t t' w sid :
  (t ≤ t')%Z → absent_at t w sid → absent_at t' w sid.
Proof.
  intros Hle [Hr Hm]. split.
  - intros r dl Hl Hlive. specialize (Hr r dl Hl). lia.
  - intros r Hl. specialize (Hm r Hl). lia.
Qed.

Lemma get_session_absent e w sid :
  monotone_clock e → absent_at (clock e (tick w)) w sid →
  ∃ w', get_session sid e w = (Ret None, w') ∧
    redis_db w' = redis_db w ∧ tmp_data w' = tmp_data w ∧ tick w < tick w' ∧
    (memory_storage w' = memory_storage w ∨
     memory_storage w' = delete sid (memory_storage w)).
Proof.
  intros Hmc [Hr Hm].
  destruct (get_session_spec e w sid)
    as (res & w' & Heq & Hdb & Htmp & Htick & Hcase).
  exists w'. rewrite Heq.
  assert (res = None ∧ (memory_storage w' = memory_storage w ∨
                        memory_storage w' = delete sid (memory_storage w)))
    as [-> ?]; [|destruct Htick; done].
  destruct Hcase as [(n & r0 & Hn & Hup & Hl & Hmem & ->)|[_ Hmem]].
  - apply redis_lookup_Some in Hl as (dl & Hl & Hlive).
    assert (clock e (tick w) ≤ clock e n)%Z by (apply Hmc; lia).
    assert (past_grace (clock e (tick w)) r0 = true) as ->.
    { apply past_grace_true, (Hr r0 dl Hl). lia. }
    auto.
  - revert Hmem. unfold memory_answer.
    destruct (memory_storage w !! sid) as [r0|] eqn:Hl; [|intros [-> ?]; auto].
    assert (past_grace (clock e (tick w)) r0 = true) as ->
      by (apply past_grace_true; auto).
    intros [-> ?]; auto.
Qed.

(** ** What the store holds for an id *)

(** The answer of [get_session] in terms of what Redis serves at the
    step at which the [GET] is sent, or at which the connection fails. *)
Lemma get_session_origin_served e w sid :
  ∃ res w' n, get_session_origin sid e w = (Ret res, w') ∧
    redis_db w' = redis_db w ∧ tmp_data w' = tmp_data w ∧
    tick w < tick w' ≤ tick w + 3 ∧ tick w < n ≤ tick w + 2 ∧
    match redis_serves e w sid n with
    | Some r =>
        res = (if past_grace (clock e (tick w)) r then None else Some (r, FromRedis)) ∧
        memory_storage w' = memory_storage w
    | None => memory_answer (λ r, (r, FromMemory)) (clock e (tick w)) sid w w' res
    end.
Proof.
  destruct (get_session_origin_spec e w sid)
    as (res & w' & Heq & Hdb & Htmp & Htick & Hcase).
  exists res, w'. unfold redis_serves.
  destruct Hcase as [(n & r & Hn & Hup & Hl & Hm & ->)
                    |[[(n & Hn & Hdown)|(n & Hn & Hup & Hl)] Hmem]];
    exists n; (do 4 (split; [done|])); (split; [lia|]).
  - by rewrite Hup, Hl.
  - by rewrite Hdown.
  - by rewrite Hup, Hl.
Qed.

Lemma get_session_served e w sid :
  ∃ res w' n, get_session sid e w = (Ret res, w') ∧
    redis_db w' = redis_db w ∧ tmp_data w' = tmp_data w ∧
    tick w < tick w' ≤ tick w + 3 ∧ tick w < n ≤ tick w + 2 ∧
    match redis_serves e w sid n with
    | Some r =>
        res = (if past_grace (clock e (tick w)) r then None else Some r) ∧
        memory_storage w' = memory_storage w
    | None => memory_answer (λ r, r) (clock e (tick w)) sid w w' res
    end.
Proof.
  destruct (get_session_origin_served e w sid)
    as (res & w' & n & Heq & Hdb & Htmp & Htick & Hn & Hcase).
  exists (fst <$> res), w', n. split.
  { unfold get_session. by rewrite (bind_ret _ _ _ _ _ _ Heq). }
  do 4 (split; [done|]).
  destruct (redis_serves e w sid n) as [r|].
  - destruct Hcase as [-> ?]. by destruct (past_grace _ r).
  - revert Hcase. unfold memory_answer.
    destruct (memory_storage w !! sid) as [r|]; [destruct (past_grace _ r)|];
      by intros [-> ?].
Qed.

Lemma redis_silent_serves e w sid n :
  redis_silent e w sid → redis_serves e w sid n = None.
Proof.
  intros Hsilent. unfold redis_serves.
  destruct (redis_up e n) eqn:Hup; [by apply Hsilent|done].
Qed.

Lemma redis_silent_frame e w w' sid :
  redis_silent e w sid → redis_db w' = redis_db w → redis_silent e w' sid.
Proof. intros Hsilent Hdb n Hup. rewrite Hdb. by apply Hsilent. Qed.

(** A read of a record that [memory_storage] keeps: it is returned while
    it is within its grace period, and dropped otherwise. *)
Lemma kept_get_origin e w sid r :
  kept e w sid r →
  ∃ w', get_session_origin sid e w
          = (Ret (if past_grace (clock e (tick w)) r then None
                  else Some (r, FromMemory)), w') ∧
    redis_db w' = redis_db w ∧ tmp_data w' = tmp_data w ∧
    tick w < tick w' ≤ tick w + 3 ∧
    memory_storage w' = (if past_grace (clock e (tick w)) r
                         then delete sid (memory_storage w) else memory_storage w).
Proof.
  intros [Hm Hsilent].
  destruct (get_session_origin_served e w sid)
    as (res & w' & n & Heq & Hdb & Htmp & Htick & _ & Hcase).
  rewrite (redis_silent_serves e w sid n Hsilent) in Hcase.
  unfold memory_answer in Hcase. rewrite Hm in Hcase.
  exists w'. destruct (past_grace _ r); destruct Hcase as [-> ->]; done.
Qed.

Lemma kept_get e w sid r :
  kept e w sid r →
  (clock e (tick w) ≤ expires_at r + read_grace_period)%Z →
  ∃ w', get_session_origin sid e w = (Ret (Some (r, FromMemory)), w') ∧
    same_stores w w' ∧ tick w < tick w' ≤ tick w + 3.
Proof.
  intros Hkept Hgrace. apply past_grace_false in Hgrace.
  destruct (kept_get_origin e w sid r Hkept) as (w' & Heq & Hdb & Htmp & Htick & Hm).
  rewrite Hgrace in Heq, Hm. by exists w'.
Qed.

Lemma kept_get_session e w sid r :
  kept e w sid r →
  (clock e (tick w) ≤ expires_at r + read_grace_period)%Z →
  ∃ w', get_session sid e w = (Ret (Some r), w') ∧
    same_stores w w' ∧ tick w < tick w' ≤ tick w + 3.
Proof.
  intros Hkept Hgrace.
  destruct (kept_get e w sid r Hkept Hgrace) as (w' & Heq & ?).
  exists w'. split; [|done]. unfold get_session. by rewrite (bind_ret _ _ _ _ _ _ Heq).
Qed.

Lemma kept_frame e w w' sid r r' :
  kept e w sid r → redis_db w' = redis_db w →
  memory_storage w' !! sid = Some r' → kept e w' sid r'.
Proof.
  intros [_ Hsilent] Hdb Hm. split; [done|]. by apply (redis_silent_frame e w).
Qed.

(** An update of such a record, made while it is within its grace
    period, leaves the merged record in [memory_storage]. *)
Lemma kept_update e w sid r d :
  kept e w sid r →
  (clock e (tick w) ≤ expires_at r + read_grace_period)%Z →
  ∃ w', update_session sid d e w = (Ret tt, w') ∧
    kept e w' sid (merged r d) ∧
    redis_db w' = redis_db w ∧ tmp_data w' = tmp_data w ∧
    memory_storage w' = <[sid := merged r d]> (memory_storage w) ∧
    tick w < tick w' ≤ tick w + 5.
Proof.
  intros Hkept Hgrace.
  destruct (kept_get_session e w sid r Hkept Hgrace)
    as (w1 & Hget & (Hdb1 & Hm1 & Htmp1) & Htick1).
  destruct (update_session_spec e w sid d) as (found & w1' & Hget' & Hupd).
  rewrite Hget in Hget'. injection Hget' as <- <-.
  destruct Hupd as (w' & Hupd & Htmp & Hm & Htick & Hdb).
  exists w'. split; [done|].
  assert (memory_storage w' = <[sid := merged r d]> (memory_storage w)) as Hm'
    by (by rewrite Hm, Hm1).
  split; [|repeat split; [congruence|congruence|done|lia|lia]].
  apply (kept_frame e w w' sid r); [done|congruence|].
  rewrite Hm'. apply lookup_insert_eq.
Qed.

(** ** Properties of the session store *)

Lemma steady_no_recovery up times : no_recovery (steady up times).
Proof. intros n m _. done. Qed.

Lemma ticking_monotone up : monotone_clock (steady up ticking).
Proof. intros n m Hle. cbn. unfold ticking. lia. Qed.

Lemma jump_monotone up k t : (Z.of_nat k ≤ t)%Z → monotone_clock (steady up (jump k t)).
Proof.
  intros Hk n m Hle. cbn. unfold jump.
  destruct (Nat.ltb_spec n k), (Nat.ltb_spec m k); lia.
Qed.


(** C2. [get_session] returns the record that the store holds for the id
    exactly while the time of the call is at most [expires_at] plus the
    read grace period, returns nothing after that, and returns nothing
    for an id for which the store holds nothing; it never raises.  The
    record that the store holds is the one that Redis serves when the
    [GET] is sent, and otherwise the one in [memory_storage]. *)
Theorem get_session_visible_within_grace e w sid found :
  (∀ n, tick w < n ≤ tick w + 2 → served e w sid n = found) →
  ∃ res w', get_session sid e w = (Ret res, w') ∧
    match found with
    | Some r =>
        (res = Some r ↔ (clock e (tick w) ≤ expires_at r + read_grace_period)%Z) ∧
        (res = None ↔ (clock e (tick w) > expires_at r + read_grace_period)%Z)
    | None => res = None
    end.
Proof.
  intros Hserved.
  destruct (get_session_served e w sid)
    as (res & w' & n & Heq & _ & _ & _ & Hn & Hcase).
  exists res, w'. split; [done|].
  specialize (Hserved n Hn). unfold served in Hserved.
  destruct (redis_serves e w sid n) as [r|].
  - subst found. destruct Hcase as [-> _].
    rewrite <- past_grace_false, <- past_grace_true.
    destruct (past_grace _ r); split; split; done.
  - revert Hcase. unfold memory_answer. rewrite Hserved.
    destruct found as [r|]; [|by intros [-> _]].
    rewrite <- past_grace_false, <- past_grace_true.
    destruct (past_grace _ r); intros [-> _]; split; split; done.
Qed.

(** C5 (amended). For an id for which no backend has a record that a
    read could return (unknown, or expired past the read grace period),
    [update_session] returns normally, writes nothing to Redis, adds and
    changes nothing in [memory_storage], and a following [get_session]
    still finds nothing.  It is not without effect, though: when the
    lookup reaches [memory_storage], as it always does when Redis serves
    nothing for the id, the read inside the update deletes the expired
    entry of the id. *)
Theorem update_absent_only_evicts e w sid d :
  monotone_clock e →
  absent_at (clock e (tick w)) w sid →
  ∃ w1, update_session sid d e w = (Ret tt, w1) ∧
    redis_db w1 = redis_db w ∧
    tmp_data w1 = tmp_data w ∧
    (memory_storage w1 = memory_storage w ∨
     memory_storage w1 = delete sid (memory_storage w)) ∧
    (redis_silent e w sid → memory_storage w1 = delete sid (memory_storage w)) ∧
    ∃ w2, get_session sid e w1 = (Ret None, w2).
Proof.
  intros Hmc Habs.
  destruct (get_session_absent e w sid Hmc Habs)
    as (w1 & Hget & Hdb & Htmp & Htick & Hmem).
  destruct (update_session_spec e w sid d) as (found & w1' & Hget' & Hupd).
  rewrite Hget in Hget'. injection Hget' as <- <-.
  exists w1. do 4 (split; [done|]). split.
  - intros Hsilent.
    destruct (get_session_served e w sid) as (res & w1' & n & Heq & _ & _ & _ & _ & Hcase).
    rewrite Hget in Heq. injection Heq as <- <-.
    rewrite (redis_silent_serves e w sid n Hsilent) in Hcase.
    revert Hcase. unfold memory_answer.
    destruct (memory_storage w !! sid) as [r|] eqn:Hl.
    + destruct Habs as [_ Hm]. apply Hm, past_grace_true in Hl as ->. by intros [_ ?].
    + intros [_ ->]. symmetry. by apply delete_id.
  - destruct (get_session_absent e w1 sid Hmc) as (w2 & Hget2 & _); [|by exists w2].
    apply (absent_at_mono (clock e (tick w))); [apply Hmc; lia|].
    destruct Habs as [Hr Hm]. split.
    + rewrite Hdb. done.
    + intros r Hl. destruct Hmem as [Hmem|Hmem]; rewrite Hmem in Hl.
      * auto.
      * by rewrite lookup_delete_eq in Hl.
Qed.

(** C7 (as the code does it). When the lookup reaches the in-memory map
    (Redis is unreachable or holds no live value for the id) and the entry
    of the id is past its expiry plus the read grace period,
    [get_session] reports the session as absent and removes the entry from
    [memory_storage] itself. *)
Theorem get_session_evicts_expired e w sid r :
  memory_storage w !! sid = Some r →
  (clock e (tick w) > expires_at r + read_grace_period)%Z →
  (∀ n, redis_up e n = true → redis_lookup (clock e n) (redis_db w) sid = None) →
  ∃ w', get_session sid e w = (Ret None, w') ∧
    memory_storage w' = delete sid (memory_storage w) ∧
    memory_storage w' !! sid = None.
Proof.
  intros Hm Hpast Hredis. apply past_grace_true in Hpast.
  destruct (get_session_spec e w sid) as (res & w' & Heq & _ & _ & _ & Hcase).
  destruct Hcase as [(n & r0 & _ & Hup & Hl & _)|[_ Hmem]].
  { rewrite (Hredis n Hup) in Hl. done. }
  revert Hmem. unfold memory_answer. rewrite Hm, Hpast. intros [-> Hmem].
  exists w'. rewrite Hmem. split; [done|]. split; [done|]. apply lookup_delete_eq.
Qed.

(** C1 (what the code does). [delete_session] removes the record from
    [memory_storage] and then reads the session back to decide whether to
    remove its directory; in an environment where Redis does not come back
    after a failure that read finds nothing, so the set of session
    directories is left as it was. *)
Theorem delete_session_keeps_directory e w sid :
  no_recovery e →
  ∃ w', delete_session sid e w = (Ret tt, w') ∧
    memory_storage w' !! sid = None ∧
    tmp_data w' = tmp_data w.
Proof.
  intros Hnr.
  destruct (delete_session_spec e w sid Hnr) as (w' & Heq & Htmp & Hmem & _).
  exists w'. split; [done|]. split; [|done]. rewrite Hmem. apply lookup_delete_eq.
Qed.

Lemma delete_session_keeps_directory_witness :
  no_recovery (steady false ticking) ∧
  (session_type <$> memory_storage photo_world !! "s1"
     = Some SessionType.PHOTO_SHARE ∧
   "s1" ∈ tmp_data photo_world) ∧
  ∃ w', delete_session "s1" (steady false ticking) photo_world = (Ret tt, w') ∧
    memory_storage w' !! "s1" = None ∧
    tmp_data w' = tmp_data photo_world.
Proof.
  split; [apply steady_no_recovery|]. split.
  - split; [vm_compute; reflexivity|].
    apply (bool_decide_unpack _). vm_compute. exact I.
  - apply (delete_session_keeps_directory (steady false ticking) photo_world "s1").
    apply steady_no_recovery.
Defined.

Lemma get_session_visible_within_grace_witness :
  ((∀ n, tick chat_world < n ≤ tick chat_world + 2 →
      served offline chat_world "s1" n = Some chat_record) ∧
   ∃ res w', get_session "s1" offline chat_world = (Ret res, w') ∧
     (res = Some chat_record ↔
        (clock offline (tick chat_world) ≤ expires_at chat_record + read_grace_period)%Z) ∧
     (res = None ↔
        (clock offline (tick chat_world) > expires_at chat_record + read_grace_period)%Z)) ∧
  ((∀ n, tick cached_world < n ≤ tick cached_world + 2 →
      served online cached_world "s1" n = Some chat_record) ∧
   ∃ res w', get_session "s1" online cached_world = (Ret res, w') ∧
     (res = Some chat_record ↔
        (clock online (tick cached_world) ≤ expires_at chat_record + read_grace_period)%Z) ∧
     (res = None ↔
        (clock online (tick cached_world) > expires_at chat_record + read_grace_period)%Z)).
Proof.
  assert (∀ n, tick chat_world < n ≤ tick chat_world + 2 →
            served offline chat_world "s1" n = Some chat_record) as Hmemory.
  { intros n _.
    change (served offline chat_world "s1" n) with (memory_storage chat_world !! "s1").
    vm_compute. reflexivity. }
  assert (∀ n, tick cached_world < n ≤ tick cached_world + 2 →
            served online cached_world "s1" n = Some chat_record) as Hredis.
  { intros n Hn. cbn in Hn.
    assert (n = 1 ∨ n = 2) as [->| ->] by lia; vm_compute; reflexivity. }
  split; (split; [assumption|]).
  - exact (get_session_visible_within_grace offline chat_world "s1"
             (Some chat_record) Hmemory).
  - exact (get_session_visible_within_grace online cached_world "s1"
             (Some chat_record) Hredis).
Defined.

(** On the edge: the record is returned when the time is [expires_at]
    plus the grace period exactly, and no longer one microsecond later. *)
Lemma get_session_grace_edge :
  (expires_at chat_record + read_grace_period = 1320000002)%Z ∧
  (get_session "s1" (steady false (jump 0 1320000002)) chat_world).1
    = Ret (Some chat_record) ∧
  (get_session "s1" (steady false (jump 0 1320000003)) chat_world).1 = Ret None ∧
  (get_session "s1" (steady true (jump 0 1320000002)) (cached_until 2400000000)).1
    = Ret (Some chat_record) ∧
  (get_session "s1" (steady true (jump 0 1320000003)) (cached_until 2400000000)).1
    = Ret None.
Proof. vm_compute. repeat split. Qed.


Lemma update_absent_only_evicts_witness :
  (monotone_clock late ∧ absent_at (clock late (tick stale_world)) stale_world "s1") ∧
  ∃ w1, update_session "s1" chat_update late stale_world = (Ret tt, w1) ∧
    redis_db w1 = redis_db stale_world ∧
    tmp_data w1 = tmp_data stale_world ∧
    (memory_storage w1 = memory_storage stale_world ∨
     memory_storage w1 = delete "s1" (memory_storage stale_world)) ∧
    (redis_silent late stale_world "s1" →
     memory_storage w1 = delete "s1" (memory_storage stale_world)) ∧
    ∃ w2, get_session "s1" late w1 = (Ret None, w2).
Proof.
  assert (monotone_clock late) as Hmc by (apply jump_monotone; lia).
  assert (absent_at (clock late (tick stale_world)) stale_world "s1") as Habs.
  { split.
    - intros r dl Hl. vm_compute in Hl. discriminate.
    - intros r Hl. vm_compute in Hl. injection Hl as <-. vm_compute. reflexivity. }
  split; [split; assumption|].
  exact (update_absent_only_evicts late stale_world "s1" chat_update Hmc Habs).
Defined.

(** C5, counterexample. The specification says that an update of an
    absent id writes nothing to either backend.  Here the id is absent
    (its record expired long ago), the update returns normally, and the
    entry that [memory_storage] had for the id is gone after it. *)
Lemma update_absent_writes_nothing_counterexample :
  absent_at (clock late (tick stale_world)) stale_world "s1" ∧
  (update_session "s1" chat_update late stale_world).1 = Ret tt ∧
  memory_storage stale_world !! "s1" = Some chat_record ∧
  memory_storage (update_session "s1" chat_update late stale_world).2 !! "s1" = None ∧
  memory_storage (update_session "s1" chat_update late stale_world).2
    ≠ memory_storage stale_world.
Proof.
  assert (memory_storage (update_session "s1" chat_update late stale_world).2 !! "s1"
            = None) as Hgone by (vm_compute; reflexivity).
  assert (memory_storage stale_world !! "s1" = Some chat_record) as Hthere
    by (vm_compute; reflexivity).
  split.
  { split.
    - intros r dl Hl. vm_compute in Hl. discriminate.
    - intros r Hl. vm_compute in Hl. injection Hl as <-. vm_compute. reflexivity. }
  split; [vm_compute; reflexivity|]. split; [exact Hthere|]. split; [exact Hgone|].
  intros Heq. rewrite Heq in Hgone. rewrite Hgone in Hthere. discriminate Hthere.
Qed.

(** C7, counterexample. The specification says that a read only filters an
    expired in-memory entry and leaves it in the map.  Here the entry is
    in the map before the read and gone after it. *)
Lemma get_session_only_filters_counterexample :
  memory_storage stale_world !! "s1" = Some chat_record ∧
  (clock late (tick stale_world) > expires_at chat_record + read_grace_period)%Z ∧
  (get_session "s1" late stale_world).1 = Ret None ∧
  memory_storage (get_session "s1" late stale_world).2 !! "s1" = None ∧
  memory_storage (get_session "s1" late stale_world).2 ≠ memory_storage stale_world.
Proof.
  assert (memory_storage (get_session "s1" late stale_world).2 !! "s1" = None) as Hgone
    by (vm_compute; reflexivity).
  assert (memory_storage stale_world !! "s1" = Some chat_record) as Hthere
    by (vm_compute; reflexivity).
  split; [exact Hthere|]. split; [vm_compute; reflexivity|].
  split; [vm_compute; reflexivity|]. split; [exact Hgone|].
  intros Heq. rewrite Heq in Hgone. rewrite Hgone in Hthere. discriminate Hthere.
Qed.

Lemma get_session_evicts_expired_witness :
  (memory_storage stale_world !! "s1" = Some chat_record ∧
   (clock late (tick stale_world) > expires_at chat_record + read_grace_period)%Z ∧
   (∀ n, redis_up late n = true →
      redis_lookup (clock late n) (redis_db stale_world) "s1" = None)) ∧
  ∃ w', get_session "s1" late stale_world = (Ret None, w') ∧
    memory_storage w' = delete "s1" (memory_storage stale_world) ∧
    memory_storage w' !! "s1" = None.
Proof.
  assert (memory_storage stale_world !! "s1" = Some chat_record) as Hm
    by (vm_compute; reflexivity).
  assert (clock late (tick stale_world)
            > expires_at chat_record + read_grace_period)%Z as Hpast
    by (vm_compute; reflexivity).
  assert (∀ n, redis_up late n = true →
            redis_lookup (clock late n) (redis_db stale_world) "s1" = None) as Hredis
    by (intros n Hup; cbn in Hup; discriminate).
  split; [repeat split; assumption|].
  exact (get_session_evicts_expired late stale_world "s1" chat_record Hm Hpast Hredis).
Defined.

(** ** What [create_session] does *)

Lemma steady_is_steady up times : steady_redis (steady up times).
Proof. intros n m. reflexivity. Qed.

Lemma or_empty_Some p : or_empty (Some p) = p.
Proof. unfold or_empty. case_bool_decide; congruence. Qed.

(** [create_session] stores the record in [memory_storage] when no client
    is connected and the ping fails.  In every other case it sends the
    [SETEX], which is refused or fails with the connection: the call
    raises and nothing is stored.  Redis is never written. *)
Lemma create_session_spec e w ty d :
  ∃ res w', create_session ty d e w = (res, w') ∧
    redis_db w' = redis_db w ∧ tmp_data w' = tmp_data w ∧
    tick w + 3 ≤ tick w' ≤ tick w + 5 ∧
    ((res = Ret (uuid e (tick w)) ∧
      redis_client w = false ∧ redis_up e (tick w + 3) = false ∧
      memory_storage w' =
        <[uuid e (tick w) := created_record e w ty d]> (memory_storage w))
     ∨ (memory_storage w' = memory_storage w ∧
        (redis_client w = true ∨ redis_up e (tick w + 3) = true) ∧
        ∃ n, tick w + 3 ≤ n < tick w' ∧
          res = Raise (if redis_up e n then ResponseError else RedisError))).
Proof.
  unfold create_session, created_record.
  replace (tick w + 1) with (S (tick w)) by lia.
  replace (tick w + 2) with (S (S (tick w))) by lia.
  replace (tick w + 3) with (S (S (S (tick w)))) by lia.
  run; eexists _, _; (split; [reflexivity|]); cbn; do 2 (split; [reflexivity|]).
  all: split; [lia|].
  all: first
    [ left; repeat split; assumption
    | right; split; [reflexivity|]; split; [by auto|];
      eexists; split; [|by repeat match goal with H : redis_up _ _ = _ |- _ => rewrite H end];
      lia ].
Qed.

(** The expiry handed to [SETEX] is the float [1200.0]. *)
Lemma total_seconds_of_ttl : total_seconds SESSION_TTL = float_of_Z 1200.
Proof. vm_compute. reflexivity. Qed.

(** With a reachable Redis server the session cannot be created: the
    server refuses the [SETEX], and the error reaches the caller. *)
Lemma create_session_refused e w ty d :
  (∀ n, redis_up e n = true) →
  ∃ w', create_session ty d e w = (Raise ResponseError, w') ∧ same_stores w w'.
Proof.
  intros Hup.
  destruct (create_session_spec e w ty d)
    as (res & w' & Heq & Hdb & Htmp & _ & [(_ & _ & Hdown & _)|(Hm & _ & n & _ & ->)]).
  - by rewrite Hup in Hdown.
  - exists w'. by rewrite Hup in Heq.
Qed.

(** C8 (what the code does). In an environment where the availability of
    Redis does not change, a successful [create_session] followed by a
    [get_session] before the TTL has elapsed returns a record with the
    given type and payload, with [created_at] the first clock reading of
    [create_session] and [expires_at] the second reading plus the TTL:
    [expires_at - created_at] is the TTL plus the time that passed between
    the two readings. *)
Theorem create_then_get e w ty d sid w1 :
  steady_redis e → monotone_clock e →
  create_session ty d e w = (Ret sid, w1) →
  (clock e (tick w1 + 2) < clock e (tick w + 2) + SESSION_TTL)%Z →
  ∃ r w2, get_session sid e w1 = (Ret (Some r), w2) ∧
    session_type r = ty ∧
    data r = or_empty d ∧
    (∀ payload, d = Some payload → data r = payload) ∧
    (expires_at r - created_at r =
       SESSION_TTL + (clock e (tick w + 2) - clock e (tick w + 1)))%Z.
Proof.
  intros Hsteady Hmc Hcreate Hsoon.
  destruct (create_session_spec e w ty d)
    as (res & w1' & Heq & Hdb & _ & Htick & Hcase).
  rewrite Hcreate in Heq. injection Heq as <- <-.
  set (r := created_record e w ty d) in *.
  destruct Hcase as [(Hsid & Hclient & Hdown & Hmem)|(_ & _ & n & _ & Hsid)];
    [|by destruct (redis_up e n)].
  injection Hsid as ->.
  assert (kept e w1 (uuid e (tick w)) r) as Hkept.
  { split; [rewrite Hmem; apply lookup_insert_eq|].
    intros n Hup. by rewrite (Hsteady n (tick w + 3)), Hdown in Hup. }
  destruct (kept_get_session e w1 _ r Hkept) as (w2 & Hget & _).
  { cbn. assert (clock e (tick w1) ≤ clock e (tick w1 + 2))%Z by (apply Hmc; lia).
    unfold read_grace_period, timedelta_minutes. lia. }
  exists r, w2. split; [done|]. do 2 (split; [done|]).
  split; [by intros payload ->; apply or_empty_Some|]. cbn. lia.
Qed.

Lemma create_then_get_witness :
  (steady_redis (steady false ticking) ∧ monotone_clock (steady false ticking) ∧
   create_session SessionType.CHAT_ROOM (Some chat_payload)
     (steady false ticking) empty_world = (Ret "s1", chat_world) ∧
   (clock (steady false ticking) (tick chat_world + 2)
      < clock (steady false ticking) (tick empty_world + 2) + SESSION_TTL)%Z) ∧
  (clock (steady false ticking) (tick empty_world + 2)
     - clock (steady false ticking) (tick empty_world + 1) = 1)%Z ∧
  ∃ r w2, get_session "s1" (steady false ticking) chat_world = (Ret (Some r), w2) ∧
    session_type r = SessionType.CHAT_ROOM ∧
    data r = or_empty (Some chat_payload) ∧
    (∀ payload, Some chat_payload = Some payload → data r = payload) ∧
    (expires_at r - created_at r =
       SESSION_TTL + (clock (steady false ticking) (tick empty_world + 2)
                      - clock (steady false ticking) (tick empty_world + 1)))%Z.
Proof.
  assert (create_session SessionType.CHAT_ROOM (Some chat_payload)
            (steady false ticking) empty_world = (Ret "s1", chat_world)) as Hcreate
    by (vm_compute; reflexivity).
  assert (clock (steady false ticking) (tick chat_world + 2)
            < clock (steady false ticking) (tick empty_world + 2) + SESSION_TTL)%Z
    as Hsoon by (vm_compute; reflexivity).
  split; [|split; [vm_compute; reflexivity|]].
  - split; [apply steady_is_steady|].
    split; [apply ticking_monotone|]. split; assumption.
  - exact (create_then_get (steady false ticking) empty_world
             SessionType.CHAT_ROOM (Some chat_payload) "s1" chat_world
             (steady_is_steady false ticking) (ticking_monotone false)
             Hcreate Hsoon).
Defined.

(** ** What a reap cycle does *)

Lemma for_each_cons {A} (x : A) l body e w :
  for_each (x :: l) body e w = bind (body x) (λ _, for_each l body) e w.
Proof. reflexivity. Qed.

(** A property of the world that every iteration keeps is kept by the
    loop, whether it runs to its end or is left by an exception. *)
Lemma for_each_frame {A} (R : world → world → Prop) (body : A → M unit) e l :
  (∀ w, R w w) → (∀ w1 w2 w3, R w1 w2 → R w2 w3 → R w1 w3) →
  (∀ x w, x ∈ l → R w (body x e w).2) →
  ∀ w, R w (for_each l body e w).2.
Proof.
  intros Hrefl Htrans. induction l as [|x l IH]; intros Hbody w.
  - apply Hrefl.
  - rewrite for_each_cons. unfold bind.
    pose proof (Hbody x w (list_elem_of_here _ _)) as Hx.
    destruct (body x e w) as [[[]|exc] w1]; cbn in *; [|done].
    eapply Htrans; [exact Hx|]. apply IH.
    intros y w' Hy. apply Hbody. by apply list_elem_of_further.
Qed.

Lemma all_down_no_recovery e : (∀ n, redis_up e n = false) → no_recovery e.
Proof. intros Hdown n m _ Hup. by rewrite Hdown in Hup. Qed.

(** The in-memory branch: every collected id leaves [memory_storage]. *)
Lemma for_each_delete_session_memory e l :
  (∀ n, redis_up e n = false) →
  ∀ w, ∃ w', for_each l delete_session e w = (Ret tt, w') ∧
    redis_db w' = redis_db w ∧ tmp_data w' = tmp_data w ∧
    ∀ sid, memory_storage w' !! sid =
           if bool_decide (sid ∈ l) then None else memory_storage w !! sid.
Proof.
  intros Hdown. induction l as [|x l IH]; intros w.
  - exists w. split; [done|]. do 2 (split; [done|]). intros sid.
    rewrite bool_decide_eq_false_2; [done|]. apply not_elem_of_nil.
  - destruct (delete_session_spec e w x (all_down_no_recovery e Hdown))
      as (w1 & Hdel & Htmp & Hmem & _ & Hdb).
    assert (redis_db w1 = redis_db w) as Hdb1.
    { destruct Hdb as [(_ & n & _ & Hup)|[? _]]; [|done]. by rewrite Hdown in Hup. }
    destruct (IH w1) as (w' & Hloop & Hdb' & Htmp' & Hmem').
    exists w'. rewrite for_each_cons, (bind_ret _ _ _ _ _ _ Hdel).
    split; [done|]. split; [congruence|]. split; [congruence|].
    intros sid. rewrite Hmem', Hmem.
    destruct (decide (sid = x)) as [->|Hne].
    + rewrite lookup_delete_eq, (bool_decide_eq_true_2 (x ∈ x :: l)).
      * by case_bool_decide.
      * apply list_elem_of_here.
    + rewrite lookup_delete_ne by done.
      case_bool_decide as Hin.
      * rewrite bool_decide_eq_true_2; [done|]. by apply list_elem_of_further.
      * rewrite bool_decide_eq_false_2; [done|].
        intros [?|?]%elem_of_cons; done.
Qed.

Lemma elem_of_expired_sessions cutoff m sid :
  sid ∈ expired_sessions cutoff m ↔
  ∃ r, m !! sid = Some r ∧ (expires_at r < cutoff)%Z.
Proof.
  unfold expired_sessions. rewrite list_elem_of_fmap. split.
  - intros ([k r] & -> & Hin). apply elem_of_map_to_list in Hin.
    apply map_lookup_filter_Some in Hin as [Hl Hexp]. cbn in *.
    exists r. split; [done|]. by apply Z.ltb_lt.
  - intros (r & Hl & Hexp). exists (sid, r). split; [done|].
    apply elem_of_map_to_list, map_lookup_filter_Some. split; [done|].
    cbn. by apply Z.ltb_lt.
Qed.

(** X29. While Redis is unreachable, a cycle removes from
    [memory_storage] exactly the records with
    [now > expires_at + reap_grace_period], and leaves the others as they
    are. *)
Lemma cleanup_cycle_memory e w :
  redis_client w = false → (∀ n, redis_up e n = false) →
  ∃ w', cleanup_cycle e w = (Ret tt, w') ∧
    redis_db w' = redis_db w ∧ tmp_data w' = tmp_data w ∧
    ∀ sid,
      (∀ r, memory_storage w !! sid = Some r →
         (clock e (tick w) > expires_at r + reap_grace_period)%Z →
         memory_storage w' !! sid = None) ∧
      (∀ r, memory_storage w !! sid = Some r →
         (clock e (tick w) ≤ expires_at r + reap_grace_period)%Z →
         memory_storage w' !! sid = Some r) ∧
      (memory_storage w !! sid = None → memory_storage w' !! sid = None).
Proof.
  intros Hclient Hdown.
  unfold cleanup_cycle, try_except.
  assert (utcnow e w = (Ret (clock e (tick w)), bump w)) as Hnow by reflexivity.
  rewrite (bind_ret _ _ _ _ _ _ Hnow).
  destruct (get_redis_spec e (bump w))
    as (b & w2 & Hgr & (Hdb2 & Hm2 & Ht2) & _ & Hb).
  assert (b = false) as ->.
  { destruct Hb as [(Hc & _)|(_ & -> & _)]; [|apply Hdown].
    cbn in Hc. congruence. }
  rewrite (bind_ret _ _ _ _ _ _ Hgr).
  set (cutoff := (clock e (tick w) - reap_grace_period)%Z).
  unfold gets at 1. unfold bind at 1.
  destruct (for_each_delete_session_memory e
              (expired_sessions cutoff (memory_storage w2)) Hdown w2)
    as (w' & -> & Hdb & Htmp & Hmem).
  exists w'. split; [done|]. split; [by rewrite Hdb, Hdb2|].
  split; [by rewrite Htmp, Ht2|].
  intros sid. rewrite Hmem, Hm2. cbn. split; [|split].
  - intros r Hl Hexp. rewrite bool_decide_eq_true_2; [done|].
    apply elem_of_expired_sessions. exists r. split; [done|]. unfold cutoff. lia.
  - intros r Hl Hexp. rewrite bool_decide_eq_false_2; [done|].
    intros (r' & Hl' & Hexp')%elem_of_expired_sessions.
    rewrite Hl in Hl'. injection Hl' as <-. unfold cutoff in Hexp'. lia.
  - intros Hl. by case_bool_decide.
Qed.

Lemma try_except_pass_fst (m : M unit) e w :
  (try_except m (λ _, ret tt) e w).1 = Ret tt.
Proof. unfold try_except. by destruct (m e w) as [[[]|exc] w']. Qed.

Lemma try_except_pass_snd (m : M unit) e w :
  (try_except m (λ _, ret tt) e w).2 = (m e w).2.
Proof. unfold try_except. by destruct (m e w) as [[[]|exc] w']. Qed.

(** [delete_session key] touches the in-memory entry of [key] only. *)
Lemma delete_session_frame e w key sid :
  key ≠ sid →
  memory_storage (delete_session key e w).2 !! sid = memory_storage w !! sid.
Proof.
  intros Hne. unfold delete_session.
  destruct (get_redis_spec e w) as (b & wa & Hgr & (_ & Hma & _) & _).
  rewrite (bind_ret _ _ _ _ _ _ Hgr).
  assert (∃ wb, (if b then try_except (redis_delete key) (λ _, ret tt) else ret tt) e wa
                  = (Ret tt, wb) ∧ memory_storage wb = memory_storage w)
    as (wb & Hdel & Hmb).
  { destruct b.
    - destruct (try_redis_delete_spec e wa key) as (wb & Heq & Hm & _).
      exists wb. split; [exact Heq|congruence].
    - exists wa. split; [reflexivity|exact Hma]. }
  rewrite (bind_ret _ _ _ _ _ _ Hdel).
  unfold modify at 1. unfold bind at 1.
  set (wc := set_memory_storage (delete key (memory_storage wb)) wb).
  destruct (get_session_spec e wc key) as (res & wd & Hget & _ & _ & _ & Hcase).
  rewrite (bind_ret _ _ _ _ _ _ Hget).
  assert (memory_storage wd !! sid = memory_storage w !! sid) as Hmd.
  { assert (memory_storage wc !! sid = memory_storage w !! sid) as <-.
    { unfold wc. cbn. rewrite lookup_delete_ne by exact Hne. by rewrite Hmb. }
    destruct Hcase as [(_ & _ & _ & _ & _ & -> & _)|[_ Hmem]]; [reflexivity|].
    revert Hmem. unfold memory_answer.
    destruct (memory_storage wc !! key) as [r0|]; [|by intros [_ ->]].
    destruct (past_grace _ r0); intros [_ ->]; [|reflexivity].
    by apply lookup_delete_ne. }
  destruct res as [r|]; [|exact Hmd].
  destruct (bool_decide (session_type r = SessionType.PHOTO_SHARE)); [|exact Hmd].
  unfold os_path_exists, shutil_rmtree, gets, modify, bind, ret.
  destruct (bool_decide (key ∈ tmp_data wd)); exact Hmd.
Qed.

(** The loop body of the Redis branch for key [key] leaves the in-memory
    entries of all other ids alone. *)
Lemma reap_key_frame e cutoff key sid w :
  key ≠ sid →
  memory_storage
    ((found <- redis_get key ;;
      match found with
      | Some session_data =>
          if (expires_at session_data <? cutoff)%Z
          then delete_session key
          else ret tt
      | None => ret tt
      end) e w).2 !! sid = memory_storage w !! sid.
Proof.
  intros Hne. unfold bind at 1.
  assert (∃ o w1, redis_get key e w = (o, w1) ∧
            memory_storage w1 = memory_storage w) as (o & w1 & -> & <-).
  { unfold redis_get, redis_call. destruct (redis_up e (tick w)); eauto. }
  destruct o as [[r|]|exc]; cbn; [|done|done].
  destruct (expires_at r <? cutoff)%Z; [|done].
  by apply delete_session_frame.
Qed.

(** C6 (what the code does). When [get_redis] returns a client (one is
    connected, or the ping succeeds) the cycle walks the live Redis keys
    only: a record in [memory_storage] whose id is not a live Redis key is
    still there after the cycle, however long ago it expired. *)
Theorem cleanup_cycle_skips_memory e w sid r :
  redis_client w = true ∨ redis_up e (S (tick w)) = true →
  (∀ n, tick w < n → redis_lookup (clock e n) (redis_db w) sid = None) →
  memory_storage w !! sid = Some r →
  (clock e (tick w) > expires_at r + reap_grace_period)%Z →
  (cleanup_cycle e w).1 = Ret tt ∧
  memory_storage (cleanup_cycle e w).2 !! sid = Some r.
Proof.
  intros Hclient Hnokey Hmem _.
  unfold cleanup_cycle.
  rewrite try_except_pass_fst, try_except_pass_snd. split; [done|].
  assert (utcnow e w = (Ret (clock e (tick w)), bump w)) as Hnow by reflexivity.
  rewrite (bind_ret _ _ _ _ _ _ Hnow).
  destruct (get_redis_spec e (bump w))
    as (b & w2 & Hgr & (Hdb2 & Hm2 & _) & _ & Hb).
  assert (b = true ∧ tick w < tick w2) as [-> Htick].
  { destruct Hb as [(_ & -> & ->)|(Hc & -> & ->)]; cbn; [split; [done|lia]|].
    split; [|lia]. destruct Hclient as [Hc'|Hup]; [|exact Hup].
    cbn in Hc. congruence. }
  rewrite (bind_ret _ _ _ _ _ _ Hgr).
  set (cutoff := (clock e (tick w) - reap_grace_period)%Z).
  unfold bind at 1. unfold redis_keys, redis_call.
  destruct (redis_up e (tick w2)); [|by cbn; rewrite Hm2].
  cbn [fst snd]. rewrite <- Hmem.
  match goal with |- context [for_each ?l ?body e ?w0] =>
    transitivity (memory_storage w0 !! sid); [|by cbn; rewrite Hm2];
    apply (for_each_frame
      (λ wa wb, memory_storage wb !! sid = memory_storage wa !! sid)
      body e l (λ _, eq_refl)
      (λ w1 w2 w3 H12 H23, eq_trans H23 H12))
  end.
  intros x w1 Hx. apply reap_key_frame. intros ->.
  apply list_elem_of_fmap in Hx as ([k v] & Hk & Hin). cbn in Hk. subst k.
  apply elem_of_map_to_list, map_lookup_filter_Some in Hin as [Hl Hlive].
  cbn in Hl, Hlive. specialize (Hnokey (tick w2) Htick).
  unfold redis_lookup in Hnokey. rewrite Hdb2 in Hl. cbn in Hl.
  rewrite Hl in Hnokey. by rewrite Hlive in Hnokey.
Qed.

Lemma cleanup_cycle_skips_memory_witness :
  (redis_client outage_world = true ∨
   redis_up recovered (S (tick outage_world)) = true) ∧
  (∀ n, tick outage_world < n →
     redis_lookup (clock recovered n) (redis_db outage_world) "s1" = None) ∧
  (memory_storage outage_world !! "s1" = Some chat_record ∧
   (clock recovered (tick outage_world)
      > expires_at chat_record + reap_grace_period)%Z) ∧
  (cleanup_cycle recovered outage_world).1 = Ret tt ∧
  memory_storage (cleanup_cycle recovered outage_world).2 !! "s1" = Some chat_record.
Proof.
  assert (redis_client outage_world = true ∨
          redis_up recovered (S (tick outage_world)) = true) as Hclient
    by (right; vm_compute; reflexivity).
  assert (∀ n, tick outage_world < n →
            redis_lookup (clock recovered n) (redis_db outage_world) "s1" = None)
    as Hnokey.
  { intros n _.
    assert (redis_db outage_world = ∅) as -> by (vm_compute; reflexivity).
    reflexivity. }
  assert (memory_storage outage_world !! "s1" = Some chat_record) as Hmem
    by (vm_compute; reflexivity).
  assert (clock recovered (tick outage_world)
            > expires_at chat_record + reap_grace_period)%Z as Hexp
    by (vm_compute; reflexivity).
  split; [exact Hclient|]. split; [exact Hnokey|]. split; [split; assumption|].
  exact (cleanup_cycle_skips_memory recovered outage_world "s1" chat_record
           Hclient Hnokey Hmem Hexp).
Defined.

(** The same run, step by step: the session is created during the
    outage, so it goes to [memory_storage] and Redis stays empty; Redis
    is back when the reaper runs, 26 minutes later; the cycle returns,
    and the record is still in [memory_storage]. *)
Lemma cleanup_cycle_after_recovery :
  (create_session SessionType.CHAT_ROOM (Some chat_payload) recovered empty_world).1
    = Ret "s1" ∧
  memory_storage outage_world !! "s1" = Some chat_record ∧
  redis_db outage_world = ∅ ∧
  redis_up recovered (tick outage_world) = true ∧
  (clock recovered (tick outage_world)
     > expires_at chat_record + reap_grace_period)%Z ∧
  cleanup_cycle recovered outage_world
    = (Ret tt, (cleanup_cycle recovered outage_world).2) ∧
  memory_storage (cleanup_cycle recovered outage_world).2 !! "s1" = Some chat_record.
Proof. vm_compute. repeat split. Qed.

(** ** The connection manager *)

Section ConnectionManagerFacts.

Import ConnectionManager.

Lemma connect_lookup ws sid ac :
  connect ws sid ac !! sid = Some (default [] (ac !! sid) ++ [ws]).
Proof.
  unfold connect. destruct (ac !! sid) as [l|] eqn:Hl.
  - rewrite lookup_alter_eq, Hl. done.
  - rewrite lookup_alter_eq, lookup_insert_eq. done.
Qed.

Lemma connect_lookup_ne ws sid sid' ac :
  sid ≠ sid' → connect ws sid ac !! sid' = ac !! sid'.
Proof.
  intros Hne. unfold connect. rewrite lookup_alter_ne by done.
  destruct (ac !! sid); [done|]. by rewrite lookup_insert_ne.
Qed.

Lemma connect_no_empty_entry ws sid ac :
  no_empty_entry ac → no_empty_entry (connect ws sid ac).
Proof.
  intros Hinv sid' l. destruct (decide (sid = sid')) as [<-|Hne].
  - rewrite connect_lookup. intros [= <-]. by destruct (default [] (ac !! sid)).
  - rewrite connect_lookup_ne by done. apply Hinv.
Qed.

Lemma disconnect_no_empty_entry ws sid ac :
  no_empty_entry ac → no_empty_entry (disconnect ws sid ac).2.
Proof.
  intros Hinv. unfold disconnect.
  destruct (ac !! sid) as [l|] eqn:Hl; [|done].
  destruct (list_remove ws l) as [[|y l']|]; cbn; [| |done].
  - intros sid' l0. destruct (decide (sid = sid')) as [<-|Hne].
    + by rewrite lookup_delete_eq.
    + rewrite lookup_delete_ne by done. apply Hinv.
  - intros sid' l0. destruct (decide (sid = sid')) as [<-|Hne].
    + rewrite lookup_insert_eq. by intros [= <-].
    + rewrite lookup_insert_ne by done. apply Hinv.
Qed.

Lemma send_to_session_state send_text m sid ac :
  (send_to_session send_text m sid ac).2 = ac.
Proof. unfold send_to_session. by destruct (ac !! sid). Qed.

Lemma run_snoc send_text ops o :
  run send_text (ops ++ [o]) = step send_text o (run send_text ops).
Proof. unfold run. by rewrite foldl_app. Qed.

Lemma send_each_targets send_text m l :
  target <$> send_each send_text m l = l.
Proof. induction l as [|c l IH]; cbn; [done|]. by rewrite IH. Qed.

Lemma send_each_messages send_text m l :
  Forall (λ a, message_sent a = m) (send_each send_text m l).
Proof. induction l as [|c l IH]; cbn; constructor; done. Qed.

Lemma run_no_empty_entry send_text ops : no_empty_entry (run send_text ops).
Proof.
  induction ops as [|o ops IH] using rev_ind.
  - intros sid l Hl. unfold run, init in Hl. cbn in Hl.
    by rewrite lookup_empty in Hl.
  - rewrite run_snoc. destruct o as [ws sid|ws sid|m sid]; cbn.
    + by apply connect_no_empty_entry.
    + by apply disconnect_no_empty_entry.
    + by rewrite send_to_session_state.
Qed.

(** [list.remove(x)] finds the first occurrence of a member and takes it
    out, and fails for a value that is not in the list. *)
Lemma list_remove_member ws l :
  ws ∈ l → ∃ l1 l2, l = l1 ++ ws :: l2 ∧ (ws ∉ l1) ∧ list_remove ws l = Some (l1 ++ l2).
Proof.
  induction l as [|y l IH]; intros Hin; [by apply elem_of_nil in Hin|].
  cbn. destruct (decide (ws = y)) as [->|Hne].
  - exists [], l. split; [done|]. split; [apply not_elem_of_nil|done].
  - apply elem_of_cons in Hin as [?|Hin]; [done|].
    destruct (IH Hin) as (l1 & l2 & -> & Hnotin & ->).
    exists (y :: l1), l2. split; [done|]. split; [|done].
    apply not_elem_of_cons. done.
Qed.

Lemma list_remove_stranger ws l : ws ∉ l → list_remove ws l = None.
Proof.
  induction l as [|y l IH]; intros Hnotin; [done|].
  apply not_elem_of_cons in Hnotin as [Hne Hnotin].
  cbn. rewrite decide_False by done. by rewrite IH.
Qed.

Lemma split_at_head {A} (x : A) l l1 l2 :
  x :: l = l1 ++ x :: l2 → x ∉ l1 → l1 = [] ∧ l2 = l.
Proof.
  intros Heq Hnotin. destruct l1 as [|y l1]; cbn in Heq.
  - by injection Heq as ->.
  - injection Heq as <- _. exfalso. apply Hnotin, list_elem_of_here.
Qed.

(** C9. After any sequence of [connect], [disconnect] and
    [send_to_session] calls on a fresh manager, no session id is mapped to
    an empty list, and this still holds after one more [connect] or
    [disconnect].  [connect] puts the socket at the end of the list of
    the session.  [disconnect] of a registered socket takes its first
    occurrence out of the list and leaves the others in their order; it
    deletes the entry when the list has become empty, and stores the
    shortened list otherwise.  For a socket that is not in the list it
    raises the [ValueError] of [list.remove] and changes nothing.  For an
    id without entry, [disconnect] changes nothing and [send_to_session]
    attempts no delivery. *)
Theorem no_dangling_entries send_text ops ws sid :
  let ac := run send_text ops in
  no_empty_entry ac ∧
  (connect ws sid ac !! sid = Some (default [] (ac !! sid) ++ [ws]) ∧
   no_empty_entry (connect ws sid ac)) ∧
  (∀ l, ac !! sid = Some l → ws ∈ l →
     ∃ l1 l2, l = l1 ++ ws :: l2 ∧ (ws ∉ l1) ∧
       disconnect ws sid ac
         = (Ret tt, match l1 ++ l2 with
                    | [] => delete sid ac
                    | l' => <[sid := l']> ac
                    end)) ∧
  (∀ l, ac !! sid = Some l → ws ∉ l →
     disconnect ws sid ac = (Raise ValueError, ac)) ∧
  (ac !! sid = None →
     disconnect ws sid ac = (Ret tt, ac) ∧
     ∀ m, send_to_session send_text m sid ac = ([], ac)) ∧
  no_empty_entry (disconnect ws sid ac).2.
Proof.
  intros ac. pose proof (run_no_empty_entry send_text ops) as Hinv.
  split; [exact Hinv|].
  split; [split; [apply connect_lookup|by apply connect_no_empty_entry]|].
  split; [|split; [|split]].
  - intros l Hl Hin.
    destruct (list_remove_member ws l Hin) as (l1 & l2 & -> & Hnotin & Hrm).
    exists l1, l2. do 2 (split; [done|]).
    unfold disconnect. fold ac. rewrite Hl, Hrm. by destruct (l1 ++ l2).
  - intros l Hl Hnotin. unfold disconnect. fold ac.
    by rewrite Hl, (list_remove_stranger ws l Hnotin).
  - intros Hl. unfold disconnect, send_to_session. fold ac. by rewrite Hl.
  - by apply disconnect_no_empty_entry.
Qed.

Lemma no_dangling_entries_witness :
  two_clients !! "s1" = Some [1; 2] ∧
  disconnect 1 "s1" two_clients = (Ret tt, <["s1" := [2]]> two_clients) ∧
  run (λ _ _, true) [Connect 1 "s1"; Connect 2 "s1"; Disconnect 1 "s1"] !! "s1"
    = Some [2] ∧
  disconnect 2 "s1"
      (run (λ _ _, true) [Connect 1 "s1"; Connect 2 "s1"; Disconnect 1 "s1"])
    = (Ret tt,
       delete "s1"
         (run (λ _ _, true) [Connect 1 "s1"; Connect 2 "s1"; Disconnect 1 "s1"])) ∧
  send_to_session (λ _ _, true) (JStr "hi") "s2" two_clients = ([], two_clients).
Proof.
  assert (two_clients !! "s1" = Some [1; 2]) as Hboth by (vm_compute; reflexivity).
  assert (run (λ _ _, true) [Connect 1 "s1"; Connect 2 "s1"; Disconnect 1 "s1"] !! "s1"
            = Some [2]) as Hone by (vm_compute; reflexivity).
  assert (two_clients !! "s2" = None) as Hnone by (vm_compute; reflexivity).
  split; [exact Hboth|]. split; [|split; [exact Hone|split]].
  - destruct (no_dangling_entries (λ _ _, true) [Connect 1 "s1"; Connect 2 "s1"] 1 "s1")
      as (_ & _ & Hleave & _).
    destruct (Hleave [1; 2] Hboth (list_elem_of_here _ _))
      as (l1 & l2 & Hsplit & Hnotin & Hdis).
    destruct (split_at_head 1 [2] l1 l2 Hsplit Hnotin) as [-> ->]. exact Hdis.
  - destruct (no_dangling_entries (λ _ _, true)
                [Connect 1 "s1"; Connect 2 "s1"; Disconnect 1 "s1"] 2 "s1")
      as (_ & _ & Hleave & _).
    destruct (Hleave [2] Hone (list_elem_of_here _ _))
      as (l1 & l2 & Hsplit & Hnotin & Hdis).
    destruct (split_at_head 2 [] l1 l2 Hsplit Hnotin) as [-> ->]. exact Hdis.
  - destruct (no_dangling_entries (λ _ _, true) [Connect 1 "s1"; Connect 2 "s1"] 1 "s2")
      as (_ & _ & _ & _ & Hidle & _).
    destruct (Hidle Hnone) as [_ Hsend]. apply Hsend.
Defined.

(** C3 (as the code does it). [send_to_session] makes one attempt per
    entry of the session's connection list, in list order and each with the
    given message, whatever the outcome of the earlier attempts; a failed
    attempt is swallowed and the connection stays registered: the
    dictionary is returned unchanged. *)
Theorem send_to_session_attempts send_text m sid ac l :
  ac !! sid = Some l →
  target <$> (send_to_session send_text m sid ac).1 = l ∧
  length (send_to_session send_text m sid ac).1 = length l ∧
  Forall (λ a, message_sent a = m ∧ returned a = send_text (target a) m)
    (send_to_session send_text m sid ac).1 ∧
  (send_to_session send_text m sid ac).2 = ac.
Proof.
  intros Hl. unfold send_to_session. rewrite Hl. cbn.
  split; [apply send_each_targets|]. split; [|split; [|done]].
  - rewrite <- (send_each_targets send_text m l) at 2. by rewrite length_fmap.
  - clear Hl. induction l as [|c l IH]; cbn; constructor; done.
Qed.

Lemma send_to_session_attempts_witness :
  two_clients !! "s1" = Some [1; 2] ∧
  target <$> (send_to_session first_fails (JStr "hi") "s1" two_clients).1 = [1; 2] ∧
  length (send_to_session first_fails (JStr "hi") "s1" two_clients).1
    = length [1; 2] ∧
  Forall (λ a, message_sent a = JStr "hi" ∧
               returned a = first_fails (target a) (JStr "hi"))
    (send_to_session first_fails (JStr "hi") "s1" two_clients).1 ∧
  (send_to_session first_fails (JStr "hi") "s1" two_clients).2 = two_clients.
Proof.
  assert (two_clients !! "s1" = Some [1; 2]) as Hl by (vm_compute; reflexivity).
  split; [exact Hl|].
  exact (send_to_session_attempts first_fails (JStr "hi") "s1" two_clients [1; 2] Hl).
Defined.

(** C3, counterexample. The delivery to connection 1 fails; the specification
    says that the connection is then removed from the set.  It is still
    registered after the broadcast, and the next broadcast tries it again. *)
Lemma send_failure_disconnects_counterexample :
  (send_to_session first_fails (JStr "hi") "s1" two_clients).1
    = [Attempt 1 (JStr "hi") false; Attempt 2 (JStr "hi") true] ∧
  (send_to_session first_fails (JStr "hi") "s1" two_clients).2 !! "s1"
    = Some [1; 2] ∧
  (send_to_session first_fails (JStr "again") "s1"
     (send_to_session first_fails (JStr "hi") "s1" two_clients).2).1
    = [Attempt 1 (JStr "again") false; Attempt 2 (JStr "again") true].
Proof.
  split; [vm_compute; reflexivity|].
  split; vm_compute; reflexivity.
Qed.

End ConnectionManagerFacts.

(** ** Quick polls *)

Lemma get_session_of_origin e w sid res w' :
  get_session_origin sid e w = (Ret res, w') →
  get_session sid e w = (Ret (fst <$> res), w').
Proof. intros Heq. unfold get_session. by rewrite (bind_ret _ _ _ _ _ _ Heq). Qed.

(** A read that finds a session changes no store. *)
Lemma get_session_origin_found e w sid r from w' :
  get_session_origin sid e w = (Ret (Some (r, from)), w') →
  redis_db w' = redis_db w ∧ memory_storage w' = memory_storage w ∧
  tmp_data w' = tmp_data w.
Proof.
  intros Heq.
  destruct (get_session_origin_spec e w sid)
    as (res & w1 & Heq' & Hdb & Htmp & _ & Hcase).
  rewrite Heq in Heq'. injection Heq' as <- <-.
  split; [done|]. split; [|done].
  destruct Hcase as [(_ & _ & _ & _ & _ & Hm & _)|[_ Hmem]]; [done|].
  revert Hmem. unfold memory_answer.
  destruct (memory_storage w !! sid) as [r0|]; [|by intros [? _]].
  destruct (past_grace _ r0); by intros [? ?].
Qed.

Lemma is_quick_poll r :
  session_type r = SessionType.QUICK_POLL →
  negb (String.eqb (session_type r) SessionType.QUICK_POLL) = false.
Proof. intros ->. reflexivity. Qed.

Lemma merged_after_append r k v v' d :
  d !! k = Some v →
  merged (with_data r (<[k := v']> (data r))) d = merged r d.
Proof.
  intros Hk. unfold merged, with_data, dict_update. cbn. f_equal.
  apply map_eq. intros i. rewrite !lookup_union.
  destruct (decide (k = i)) as [<-|Hne].
  - rewrite Hk, lookup_insert_eq. by destruct (data r !! k).
  - by rewrite lookup_insert_ne.
Qed.

Lemma merged_lookup r d k v : d !! k = Some v → data (merged r d) !! k = Some v.
Proof.
  intros Hk. cbn. unfold dict_update. rewrite lookup_union, Hk.
  by destruct (data r !! k).
Qed.

(** Neither Redis nor a session directory is touched by an update. *)
Lemma update_session_keeps e w sid d :
  redis_db (update_session sid d e w).2 = redis_db w ∧
  tmp_data (update_session sid d e w).2 = tmp_data w.
Proof.
  destruct (update_session_spec e w sid d) as (found & w1 & Hget & Hupd).
  destruct (get_session_spec e w sid) as (res & w1' & Heq & Hdb & Htmp & _).
  rewrite Hget in Heq. injection Heq as <- <-.
  destruct found as [r|].
  - destruct Hupd as (w' & -> & Htmp' & _ & _ & Hdb'). cbn. split; congruence.
  - rewrite Hupd. done.
Qed.

(** What [n >= minimum] answers, when it answers. *)
Lemma py_ge_number n minimum e w :
  (∃ shown, py_ge n minimum e w = (Ret shown, w) ∧
     ((∃ m, as_int minimum = Some m ∧ (shown = true ↔ (m ≤ Z.of_nat n)%Z)) ∨
      (∃ x, minimum = JFloat x ∧ shown = float_leb_Z x (Z.of_nat n)))) ∨
  py_ge n minimum e w = (Raise TypeError, w).
Proof.
  destruct minimum as [|b|m|x|s|l|kv]; cbn; try (by right).
  - left. eexists. split; [reflexivity|]. left. eexists. split; [done|]. apply Z.leb_le.
  - left. eexists. split; [reflexivity|]. left. eexists. split; [done|]. apply Z.leb_le.
  - left. eexists. split; [reflexivity|]. right. by eexists.
Qed.

(** C10. For a session that the read finds and that is a quick poll:
    [submit_poll_response] fails with status 400 when [results_shown] is
    already true, and when the number of responses differs from the number
    of questions, and in both cases no store has changed;
    [get_poll_results] fails with status 400 while [results_shown] is
    false.  When the submission returns, the reply counts one response
    more than were stored, and its [results_shown] is true exactly when
    that count is at least [min_responses]; Redis and the directories are
    as before; and for a poll that [memory_storage] keeps and that stays
    within its grace period, the record kept after the call has the
    stored responses followed by the new one, and the [results_shown] of
    the reply. *)
Theorem poll_rules e w sid responses r from w1 :
  get_session_origin sid e w = (Ret (Some (r, from)), w1) →
  session_type r = SessionType.QUICK_POLL →
  (redis_db w1 = redis_db w ∧ memory_storage w1 = memory_storage w ∧
   tmp_data w1 = tmp_data w) ∧
  (∀ v, data r !! "results_shown" = Some v → truthy v = true →
     submit_poll_response sid responses e w = (Raise (HTTPException 400), w1)) ∧
  (∀ v q n, data r !! "results_shown" = Some v → truthy v = false →
     data r !! "questions" = Some q → len_of q = Some n →
     length responses ≠ n →
     submit_poll_response sid responses e w = (Raise (HTTPException 400), w1)) ∧
  (∀ reply w', submit_poll_response sid responses e w = (Ret reply, w') →
     ∃ stored response_id timestamp,
       let new := JDict [("id", JStr response_id);
                         ("responses", JList (JStr <$> responses));
                         ("timestamp", JStr timestamp)] in
       let r' := merged r (poll_update (JList (stored ++ [new]))
                             (results_shown reply)) in
       data r !! "responses" = Some (JList stored) ∧
       response_count reply = S (length stored) ∧
       data r !! "min_responses" = Some (min_responses reply) ∧
       ((∃ m, as_int (min_responses reply) = Some m ∧
           (results_shown reply = true ↔ (m ≤ Z.of_nat (response_count reply))%Z)) ∨
        (∃ x, min_responses reply = JFloat x ∧
           results_shown reply = float_leb_Z x (Z.of_nat (response_count reply)))) ∧
       redis_db w' = redis_db w ∧ tmp_data w' = tmp_data w ∧
       (kept e w sid r → within_grace e r (tick w) (tick w + 5) →
          kept e w' sid r' ∧
          data r' !! "responses" = Some (JList (stored ++ [new])) ∧
          data r' !! "results_shown" = Some (JBool (results_shown reply)))) ∧
  (∀ v, data r !! "results_shown" = Some v → truthy v = false →
     get_poll_results sid e w = (Raise (HTTPException 400), w1)).
Proof.
  intros Hget Hty.
  pose proof (get_session_origin_found _ _ _ _ _ _ Hget) as (Hdb1 & Hm1 & Htmp1).
  split; [done|].
  split; [|split; [|split]].
  - intros v Hv Htrue. unfold submit_poll_response.
    rewrite (bind_ret _ _ _ _ _ _ Hget), (is_quick_poll r Hty).
    unfold getitem. rewrite Hv. unfold bind, ret, raise. by rewrite Htrue.
  - intros v q n Hv Hfalse Hq Hn Hne. unfold submit_poll_response.
    rewrite (bind_ret _ _ _ _ _ _ Hget), (is_quick_poll r Hty).
    apply Nat.eqb_neq in Hne.
    unfold getitem at 1. rewrite Hv. unfold bind at 1, ret at 1. rewrite Hfalse.
    unfold getitem at 1. rewrite Hq. unfold bind at 1, ret at 1.
    unfold py_len at 1. rewrite Hn. unfold bind at 1, ret at 1.
    by rewrite Hne.
  - intros reply w'. unfold submit_poll_response.
    rewrite (bind_ret _ _ _ _ _ _ Hget), (is_quick_poll r Hty).
    unfold getitem, py_len, py_append.
    destruct (data r !! "results_shown") as [v|]; [|by unfold bind, raise].
    unfold bind at 1. unfold ret at 1.
    destruct (truthy v); [by unfold raise|].
    destruct (data r !! "questions") as [q|]; [|by unfold bind, raise].
    unfold bind at 1. unfold ret at 1.
    destruct (len_of q) as [n|]; [|by unfold bind, raise].
    unfold bind at 1. unfold ret at 1.
    destruct (negb (length responses =? n)); [by unfold raise|].
    destruct (data r !! "responses") as [pr|] eqn:Hresp; [|by unfold bind, raise].
    unfold bind at 1. unfold ret at 1.
    destruct pr as [| | | | |stored|]; try by unfold bind, raise.
    unfold bind at 1. unfold ret at 1.
    unfold bind at 1. unfold uuid4 at 1.
    unfold bind at 1. unfold utcnow_isoformat at 1. cbn [tick bump].
    unfold bind at 1. unfold ret at 1.
    set (entry := JDict [("id", JStr (uuid e (tick w1)));
                         ("responses", JList (JStr <$> responses));
                         ("timestamp", JStr (isoformat e (clock e (S (tick w1)))))]).
    set (w0 := bump (bump w1)).
    set (r1 := with_data r (<["responses" := JList (stored ++ [entry])]> (data r))).
    set (wm := match from with
               | FromMemory =>
                   set_memory_storage (<[sid := r1]> (memory_storage w0)) w0
               | FromRedis => w0
               end).
    unfold bind at 1.
    match goal with |- context [match ?f e w0 with _ => _ end] =>
      assert (f e w0 = (Ret tt, wm)) as -> by (by destruct from)
    end.
    unfold len_of at 1. unfold bind at 1. unfold ret at 1.
    destruct (data r !! "min_responses") as [minimum|] eqn:Hmin; [|by unfold bind, raise].
    unfold bind at 1. unfold ret at 1.
    replace (length (stored ++ [entry])) with (S (length stored))
      by (rewrite length_app; cbn; lia).
    unfold bind at 1.
    destruct (py_ge_number (S (length stored)) minimum e wm)
      as [(shown & -> & Hshown)| ->]; [|done].
    unfold bind at 1.
    destruct (update_session sid (poll_update (JList (stored ++ [entry])) shown) e wm)
      as [[[]|exc] w2] eqn:Hupd; [|done].
    unfold ret. intros [= <- <-].
    cbn [response_count results_shown min_responses].
    exists stored, (uuid e (tick w1)), (isoformat e (clock e (S (tick w1)))).
    cbn zeta. fold entry.
    do 4 (split; [done|]).
    assert (redis_db wm = redis_db w ∧ tmp_data wm = tmp_data w) as [Hdbm Htmpm]
      by (by destruct from).
    pose proof (update_session_keeps e wm sid
                  (poll_update (JList (stored ++ [entry])) shown)) as [Hdb2 Htmp2].
    rewrite Hupd in Hdb2, Htmp2. cbn [snd] in Hdb2, Htmp2.
    split; [congruence|]. split; [congruence|].
    intros Hkept Hgrace.
    destruct (kept_get e w sid r Hkept) as (w1' & Hget' & _ & Htick1).
    { apply Hgrace. lia. }
    rewrite Hget in Hget'. injection Hget' as -> <-.
    assert (kept e wm sid r1) as Hkeptm.
    { apply (kept_frame e w wm sid r); [done|done|]. apply lookup_insert_eq. }
    destruct (kept_update e wm sid r1 (poll_update (JList (stored ++ [entry])) shown)
                Hkeptm) as (w2' & Hupd' & Hkept2 & _).
    { apply Hgrace. cbn. lia. }
    rewrite Hupd in Hupd'. injection Hupd' as <-.
    assert (poll_update (JList (stored ++ [entry])) shown !! "responses"
              = Some (JList (stored ++ [entry]))) as Hlist
      by apply lookup_insert_eq.
    unfold r1 in Hkept2. rewrite (merged_after_append _ _ _ _ _ Hlist) in Hkept2.
    split; [exact Hkept2|]. split; [by apply merged_lookup|].
    apply merged_lookup. unfold poll_update.
    rewrite lookup_insert_ne by discriminate. apply lookup_singleton_eq.
  - intros v Hv Hfalse. unfold get_poll_results.
    rewrite (bind_ret _ _ _ _ _ _ (get_session_of_origin _ _ _ _ _ Hget)). cbn.
    rewrite (is_quick_poll r Hty). unfold getitem. rewrite Hv.
    unfold bind, ret, raise. by rewrite Hfalse.
Qed.

Lemma offline_silent w sid : redis_silent offline w sid.
Proof. intros n Hup. discriminate Hup. Qed.

Lemma offline_within_grace r first last :
  (Z.of_nat last ≤ expires_at r + read_grace_period)%Z →
  within_grace offline r first last.
Proof. intros Hlast n Hn. change (clock offline n) with (Z.of_nat n). lia. Qed.

Lemma poll_rules_witness :
  (get_session_origin "s1" offline poll_world
     = (Ret (Some (poll_record, FromMemory)),
        (get_session_origin "s1" offline poll_world).2) ∧
   session_type poll_record = SessionType.QUICK_POLL) ∧
  submit_poll_response "s1" ["yes"; "no"] offline poll_world
    = (Raise (HTTPException 400), (get_session_origin "s1" offline poll_world).2) ∧
  get_poll_results "s1" offline poll_world
    = (Raise (HTTPException 400), (get_session_origin "s1" offline poll_world).2) ∧
  memory_storage (get_session_origin "s1" offline poll_world).2
    = memory_storage poll_world ∧
  (get_session_origin "s1" offline voted_world
     = (Ret (Some (voted_record, FromMemory)),
        (get_session_origin "s1" offline voted_world).2) ∧
   kept offline voted_world "s1" voted_record ∧
   within_grace offline voted_record (tick voted_world) (tick voted_world + 5)) ∧
  (submit_poll_response "s1" ["no"] offline voted_world).1
    = Ret {| response_count := 2; results_shown := true; min_responses := JInt 2 |} ∧
  ∃ r', kept offline (submit_poll_response "s1" ["no"] offline voted_world).2 "s1" r' ∧
    data r' !! "results_shown" = Some (JBool true) ∧
    ∃ first second, data r' !! "responses" = Some (JList [first; second]).
Proof.
  assert (get_session_origin "s1" offline poll_world
            = (Ret (Some (poll_record, FromMemory)),
               (get_session_origin "s1" offline poll_world).2)) as Hget
    by (vm_compute; reflexivity).
  assert (session_type poll_record = SessionType.QUICK_POLL) as Hty by reflexivity.
  destruct (poll_rules offline poll_world "s1" ["yes"; "no"]
              poll_record FromMemory _ Hget Hty)
    as ((_ & Hsame & _) & _ & Hmismatch & _ & Hgate).
  split; [split; assumption|]. split; [|split; [|split; [exact Hsame|]]].
  - apply (Hmismatch (JBool false) (JList [JStr "Lunch?"]) 1);
      [vm_compute; reflexivity|reflexivity|vm_compute; reflexivity
      |reflexivity|cbn; lia].
  - apply (Hgate (JBool false)); [vm_compute; reflexivity|reflexivity].
  - assert (get_session_origin "s1" offline voted_world
              = (Ret (Some (voted_record, FromMemory)),
                 (get_session_origin "s1" offline voted_world).2)) as Hget2
      by (vm_compute; reflexivity).
    assert (kept offline voted_world "s1" voted_record) as Hkept
      by (split; [vm_compute; reflexivity|apply offline_silent]).
    assert (within_grace offline voted_record (tick voted_world) (tick voted_world + 5))
      as Hgrace by (apply offline_within_grace; vm_compute; discriminate).
    assert (submit_poll_response "s1" ["no"] offline voted_world
              = (Ret {| response_count := 2; results_shown := true;
                        min_responses := JInt 2 |},
                 (submit_poll_response "s1" ["no"] offline voted_world).2)) as Hsubmit
      by (vm_compute; reflexivity).
    split; [repeat split; assumption|].
    split; [by rewrite Hsubmit|].
    destruct (poll_rules offline voted_world "s1" ["no"]
                voted_record FromMemory _ Hget2 eq_refl)
      as (_ & _ & _ & Hsuccess & _).
    destruct (Hsuccess _ _ Hsubmit)
      as (stored & response_id & timestamp & Hstored & _ & _ & _ & _ & _ & Hafter).
    destruct (Hafter Hkept Hgrace) as (Hkept' & Hlist & Hflag).
    assert (data voted_record !! "responses"
              = Some (JList [JDict [("id", JStr "s1"); ("responses", JList [JStr "yes"]);
                                    ("timestamp", JStr "7us")]])) as Hfirst
      by (vm_compute; reflexivity).
    rewrite Hfirst in Hstored. injection Hstored as <-.
    eexists. split; [exact Hkept'|]. split; [exact Hflag|].
    eexists _, _. exact Hlist.
Defined.

(** The life of that poll: results are refused until the second response
    has arrived, and responses are refused from then on. *)
Lemma poll_scenario :
  let e := steady false ticking in
  let first := submit_poll_response "s1" ["yes"] e poll_world in
  let second := submit_poll_response "s1" ["no"] e first.2 in
  (get_poll_results "s1" e poll_world).1 = Raise (HTTPException 400) ∧
  first.1 = Ret {| response_count := 1; results_shown := false;
                   min_responses := JInt 2 |} ∧
  (get_poll_results "s1" e first.2).1 = Raise (HTTPException 400) ∧
  second.1 = Ret {| response_count := 2; results_shown := true;
                    min_responses := JInt 2 |} ∧
  match (get_poll_results "s1" e second.2).1 with
  | Ret reply => len_of (reply_responses reply)
  | Raise _ => None
  end = Some 2 ∧
  (submit_poll_response "s1" ["late"] e second.2).1 = Raise (HTTPException 400).
Proof. vm_compute. repeat split. Qed.

(** * Further properties of the session store *)

(** ** Errors *)

(** In every environment [delete_session] returns normally; Redis loses
    at most the key of the id and the file system at most its directory. *)
Lemma delete_session_effect e w sid :
  ∃ w', delete_session sid e w = (Ret tt, w') ∧
    (redis_db w' = redis_db w ∨ redis_db w' = delete sid (redis_db w)) ∧
    (tmp_data w' = tmp_data w ∨ tmp_data w' = tmp_data w ∖ {[sid]}) ∧
    memory_storage w' = delete sid (memory_storage w) ∧
    tick w < tick w'.
Proof.
  unfold delete_session.
  destruct (get_redis_spec e w) as (b & wa & Hgr & (Hdba & Hma & Hta) & _ & Hka).
  rewrite (bind_ret _ _ _ _ _ _ Hgr).
  assert (∃ wb, (if b then try_except (redis_delete sid) (λ _, ret tt) else ret tt) e wa
                  = (Ret tt, wb) ∧
            (redis_db wb = redis_db w ∨ redis_db wb = delete sid (redis_db w)) ∧
            tmp_data wb = tmp_data w ∧ memory_storage wb = memory_storage w ∧
            tick w ≤ tick wb) as (wb & Hdel & Hdbb & Htb & Hmb & Hkb).
  { assert (tick w ≤ tick wa) by (destruct Hka as [(_ & _ & ->)|(_ & _ & ->)]; lia).
    destruct b.
    - destruct (try_redis_delete_spec e wa sid) as (wb & Heq & Hm & Ht & Hk & Hc).
      exists wb. split; [exact Heq|]. split; [|split; [congruence|split; [congruence|lia]]].
      destruct Hc as [[_ ->]|[_ ->]]; rewrite Hdba; auto.
    - exists wa. split; [reflexivity|]. split; [by left|]. done. }
  rewrite (bind_ret _ _ _ _ _ _ Hdel).
  unfold modify at 1. unfold bind at 1.
  set (wc := set_memory_storage (delete sid (memory_storage wb)) wb).
  destruct (get_session_spec e wc sid) as (res & wd & Hget & Hdbd & Htd & Hkd & Hcase).
  rewrite (bind_ret _ _ _ _ _ _ Hget).
  assert (redis_db wd = redis_db w ∨ redis_db wd = delete sid (redis_db w)) as Hdb
    by (rewrite Hdbd; exact Hdbb).
  assert (tmp_data wd = tmp_data w) as Htmp by (rewrite Htd; exact Htb).
  assert (memory_storage wd = delete sid (memory_storage w)) as Hmem.
  { assert (memory_storage wc = delete sid (memory_storage w)) as Hmc
      by (unfold wc; cbn; by rewrite Hmb).
    destruct Hcase as [(_ & _ & _ & _ & _ & -> & _)|[_ Hans]]; [exact Hmc|].
    revert Hans. unfold memory_answer. rewrite Hmc, lookup_delete_eq.
    by intros [_ ->]. }
  assert (tick w < tick wd) as Htick by (cbn in Hkd; lia).
  destruct res as [r|]; [|exists wd; auto].
  destruct (bool_decide (session_type r = SessionType.PHOTO_SHARE));
    [|exists wd; auto].
  unfold os_path_exists, shutil_rmtree, gets, modify, bind, ret.
  destruct (bool_decide (sid ∈ tmp_data wd)); eexists; (split; [reflexivity|]);
    cbn; rewrite ?Htmp; auto.
Qed.

(** X1. Connection errors of Redis never escape [get_session],
    [update_session], [delete_session] or a reap cycle: in every
    environment each of them returns normally. *)
Theorem redis_errors_do_not_escape e w sid d :
  (∃ res, (get_session sid e w).1 = Ret res) ∧
  (update_session sid d e w).1 = Ret tt ∧
  (delete_session sid e w).1 = Ret tt ∧
  (cleanup_cycle e w).1 = Ret tt.
Proof.
  split; [|split; [|split]].
  - destruct (get_session_spec e w sid) as (res & w' & -> & _). by exists res.
  - destruct (update_session_spec e w sid d) as (found & w1 & _ & Hupd).
    destruct found as [r|]; [destruct Hupd as (w' & -> & _)|rewrite Hupd]; done.
  - by destruct (delete_session_effect e w sid) as (w' & -> & _).
  - apply try_except_pass_fst.
Qed.

(** X2. [create_session] has no fall-back once a client is connected: if
    the server cannot be reached at the [SETEX], the call raises the
    connection error and the record is stored in neither backend. *)
Theorem create_session_no_fallback e w ty d :
  redis_client w = true → redis_up e (tick w + 3) = false →
  ∃ w', create_session ty d e w = (Raise RedisError, w') ∧
    redis_db w' = redis_db w ∧ memory_storage w' = memory_storage w ∧
    tmp_data w' = tmp_data w.
Proof.
  intros Hclient Hdown.
  replace (tick w + 3) with (S (S (S (tick w)))) in Hdown by lia.
  unfold create_session. unfold_prims. cbn. rewrite Hclient. cbn.
  rewrite Hdown. eexists. split; [reflexivity|]. done.
Qed.

(** ** Frames *)

Lemma get_session_frame e w sid res w' :
  get_session sid e w = (res, w') →
  redis_db w' = redis_db w ∧ tmp_data w' = tmp_data w ∧
  ∀ sid', sid' ≠ sid → memory_storage w' !! sid' = memory_storage w !! sid'.
Proof.
  intros Heq.
  destruct (get_session_spec e w sid) as (res0 & w0 & Heq0 & Hdb & Htmp & _ & Hcase).
  rewrite Heq in Heq0. injection Heq0 as -> ->.
  do 2 (split; [done|]). intros sid' Hne.
  destruct Hcase as [(_ & _ & _ & _ & _ & -> & _)|[_ Hmem]]; [done|].
  revert Hmem. unfold memory_answer.
  destruct (memory_storage w !! sid) as [r0|]; [|by intros [_ ->]].
  destruct (past_grace _ r0); intros [_ ->]; [|done].
  by apply lookup_delete_ne.
Qed.

(** X3. [get_session] writes nothing to Redis and touches no directory; in
    [memory_storage] it leaves every other id alone, and the entry of the
    id itself is either kept or, when it is past the read grace period,
    removed.  A record it returns is one that a backend holds for the
    id. *)
Theorem get_session_touches_only_its_entry e w sid :
  redis_db (get_session sid e w).2 = redis_db w ∧
  tmp_data (get_session sid e w).2 = tmp_data w ∧
  (∀ sid', sid' ≠ sid →
     memory_storage (get_session sid e w).2 !! sid' = memory_storage w !! sid') ∧
  (memory_storage (get_session sid e w).2 !! sid = memory_storage w !! sid ∨
   ∃ r, memory_storage w !! sid = Some r ∧
        (clock e (tick w) > expires_at r + read_grace_period)%Z ∧
        memory_storage (get_session sid e w).2 !! sid = None) ∧
  (∀ r, (get_session sid e w).1 = Ret (Some r) →
     memory_storage w !! sid = Some r ∨ ∃ dl, redis_db w !! sid = Some (r, dl)).
Proof.
  destruct (get_session_spec e w sid) as (res & w' & -> & Hdb & Htmp & _ & Hcase).
  cbn [fst snd]. do 2 (split; [done|]).
  destruct Hcase as [(n & r0 & _ & _ & Hl & Hm & ->)|[_ Hmem]].
  - rewrite Hm. split; [done|]. split; [by left|].
    intros r Hr. right. apply redis_lookup_Some in Hl as (dl & Hl & _).
    exists dl. destruct (past_grace _ r0); [done|]. by injection Hr as <-.
  - revert Hmem. unfold memory_answer.
    destruct (memory_storage w !! sid) as [r0|] eqn:Hl.
    + destruct (past_grace _ r0) eqn:Hpg; intros [-> ->].
      * split; [by intros sid' Hne; apply lookup_delete_ne|].
        split; [|done]. right. exists r0. split; [done|].
        split; [by apply past_grace_true|apply lookup_delete_eq].
      * split; [done|]. split; [by left|]. intros r [= <-]. by left.
    + intros [-> ->]. split; [done|]. split; [by left|]. done.
Qed.

(** X4. [update_session] leaves the records of all other ids alone, in
    both backends, and touches no directory. *)
Theorem update_session_touches_only_its_id e w sid d sid' :
  sid' ≠ sid →
  redis_db (update_session sid d e w).2 !! sid' = redis_db w !! sid' ∧
  memory_storage (update_session sid d e w).2 !! sid' = memory_storage w !! sid' ∧
  tmp_data (update_session sid d e w).2 = tmp_data w.
Proof.
  intros Hne.
  destruct (update_session_spec e w sid d) as (found & w1 & Hget & Hupd).
  destruct (get_session_frame e w sid _ _ Hget) as (Hdb1 & Htmp1 & Hm1).
  destruct found as [r|].
  - destruct Hupd as (w' & -> & Htmp & Hmem & _ & Hdb). cbn [snd].
    rewrite Htmp, Hmem, lookup_insert_ne, Hm1 by done.
    split; [|done]. by rewrite Hdb, Hdb1.
  - rewrite Hupd. cbn [snd]. rewrite Hdb1, Htmp1, Hm1 by done. done.
Qed.

(** X5. The lifetime of a session does not slide: once the time is past
    [expires_at] plus the read grace period, a read that follows an
    [update_session] finds nothing, although the update has just written
    the record to [memory_storage] again.  The clock is monotone, and
    Redis does not come back after a failure. *)
Theorem update_does_not_extend_life e w sid d r w1 :
  no_recovery e → monotone_clock e →
  get_session sid e w = (Ret (Some r), w1) →
  (clock e (tick (update_session sid d e w).2)
     > expires_at r + read_grace_period)%Z →
  (get_session sid e (update_session sid d e w).2).1 = Ret None.
Proof.
  intros Hnr Hmc Hget.
  destruct (update_session_spec e w sid d) as (found & w1' & Hget' & Hupd).
  rewrite Hget in Hget'. injection Hget' as <- <-.
  destruct Hupd as (w2 & -> & _ & Hmem & Htick & Hdb). cbn [fst snd].
  intros Hpast.
  assert (past_grace (clock e (tick w2)) (merged r d) = true) as Hpg
    by (by apply past_grace_true).
  destruct (get_session_spec e w sid)
    as (res1 & w1' & Heq1 & Hdb1 & _ & Htick1 & Hcase1).
  rewrite Hget in Heq1. injection Heq1 as <- <-.
  destruct (get_session_spec e w2 sid) as (res & w3 & -> & _ & _ & _ & Hcase).
  cbn [fst]. f_equal.
  destruct Hcase as [(n & r0 & Hn & Hup & Hl & _ & ->)|[_ Hmemory]].
  - apply redis_lookup_Some in Hl as (dl & Hl & Hlive).
    rewrite Hdb, Hdb1 in Hl.
    destruct Hcase1 as [(n1 & r1 & _ & _ & Hl1 & _ & Hres)
                       |[[(n1 & Hn1 & Hdown)|(n1 & Hn1 & _ & Hl1)] _]].
    + apply redis_lookup_Some in Hl1 as (dl1 & Hl1 & _).
      rewrite Hl in Hl1. injection Hl1 as <- <-.
      destruct (past_grace (clock e (tick w)) r0); [done|].
      injection Hres as <-. apply past_grace_true in Hpast. by rewrite Hpast.
    + rewrite (no_recovery_down e n1 n Hnr Hdown) in Hup; [done|lia].
    + exfalso. unfold redis_lookup in Hl1. rewrite Hl in Hl1.
      unfold live in Hl1. cbn in Hl1.
      assert (clock e n1 ≤ clock e n)%Z by (apply Hmc; lia).
      destruct (Z.ltb_spec (clock e n1) dl); [done|lia].
  - revert Hmemory. unfold memory_answer.
    rewrite Hmem, lookup_insert_eq, Hpg. by intros [-> _].
Qed.

Lemma update_does_not_extend_life_witness :
  (no_recovery (steady false (jump 7 2000000000)) ∧
   monotone_clock (steady false (jump 7 2000000000)) ∧
   get_session "s1" (steady false (jump 7 2000000000)) chat_world
     = (Ret (Some chat_record),
        (get_session "s1" (steady false (jump 7 2000000000)) chat_world).2) ∧
   (clock (steady false (jump 7 2000000000))
      (tick (update_session "s1" chat_update
               (steady false (jump 7 2000000000)) chat_world).2)
      > expires_at chat_record + read_grace_period)%Z) ∧
  (get_session "s1" (steady false (jump 7 2000000000))
     (update_session "s1" chat_update
        (steady false (jump 7 2000000000)) chat_world).2).1 = Ret None.
Proof.
  assert (monotone_clock (steady false (jump 7 2000000000))) as Hmc
    by (apply jump_monotone; lia).
  assert (get_session "s1" (steady false (jump 7 2000000000)) chat_world
            = (Ret (Some chat_record),
               (get_session "s1" (steady false (jump 7 2000000000)) chat_world).2))
    as Hget by (vm_compute; reflexivity).
  assert (clock (steady false (jump 7 2000000000))
            (tick (update_session "s1" chat_update
                     (steady false (jump 7 2000000000)) chat_world).2)
            > expires_at chat_record + read_grace_period)%Z as Hpast
    by (vm_compute; reflexivity).
  split; [split; [apply steady_no_recovery|split; [exact Hmc|split; assumption]]|].
  exact (update_does_not_extend_life (steady false (jump 7 2000000000)) chat_world
           "s1" chat_update chat_record _ (steady_no_recovery false _) Hmc Hget Hpast).
Defined.

Lemma create_session_no_fallback_witness :
  (redis_client connected_world = true ∧
   redis_up (steady false ticking) (tick connected_world + 3) = false) ∧
  ∃ w', create_session SessionType.WHITEBOARD None (steady false ticking)
          connected_world = (Raise RedisError, w') ∧
    redis_db w' = redis_db connected_world ∧
    memory_storage w' = memory_storage connected_world ∧
    tmp_data w' = tmp_data connected_world.
Proof.
  assert (redis_client connected_world = true) as Hclient by (vm_compute; reflexivity).
  assert (redis_up (steady false ticking) (tick connected_world + 3) = false) as Hdown
    by reflexivity.
  split; [split; assumption|].
  exact (create_session_no_fallback (steady false ticking) connected_world
           SessionType.WHITEBOARD None Hclient Hdown).
Defined.

Lemma update_session_touches_only_its_id_witness :
  "s1" ≠ "s2" ∧
  (memory_storage gallery_and_chat !! "s1" = Some gallery_record ∧
   tmp_data gallery_and_chat = {[ "s1" ]}) ∧
  (update_session "s2" chat_update two_ids gallery_and_chat).1 = Ret tt ∧
  memory_storage (update_session "s2" chat_update two_ids gallery_and_chat).2 !! "s2"
    ≠ memory_storage gallery_and_chat !! "s2" ∧
  redis_db (update_session "s2" chat_update two_ids gallery_and_chat).2 !! "s1"
    = redis_db gallery_and_chat !! "s1" ∧
  memory_storage (update_session "s2" chat_update two_ids gallery_and_chat).2 !! "s1"
    = Some gallery_record ∧
  tmp_data (update_session "s2" chat_update two_ids gallery_and_chat).2 = {[ "s1" ]}.
Proof.
  assert ("s1" ≠ "s2") as Hne by discriminate.
  assert (memory_storage gallery_and_chat !! "s1" = Some gallery_record) as Hgallery
    by (vm_compute; reflexivity).
  assert (tmp_data gallery_and_chat = {[ "s1" ]}) as Hdir by (vm_compute; reflexivity).
  destruct (update_session_touches_only_its_id two_ids gallery_and_chat
              "s2" chat_update "s1" Hne) as (Hdb & Hmem & Htmp).
  split; [exact Hne|]. split; [split; assumption|].
  split; [vm_compute; reflexivity|].
  split; [intros Heq; vm_compute in Heq; discriminate Heq|].
  split; [exact Hdb|]. split; [by rewrite Hmem|by rewrite Htmp].
Defined.

(** ** Deleting *)

(** X6. [delete_session] leaves the records of all other ids alone, in
    both backends, and removes no other directory. *)
Theorem delete_session_touches_only_its_id e w sid sid' :
  sid' ≠ sid →
  redis_db (delete_session sid e w).2 !! sid' = redis_db w !! sid' ∧
  memory_storage (delete_session sid e w).2 !! sid' = memory_storage w !! sid' ∧
  (sid' ∈ tmp_data (delete_session sid e w).2 ↔ sid' ∈ tmp_data w).
Proof.
  intros Hne.
  destruct (delete_session_effect e w sid) as (w' & Heq & Hdb & Htmp & _).
  split; [|split; [by apply delete_session_frame|]]; rewrite Heq; cbn [snd].
  - destruct Hdb as [->| ->]; [done|]. by apply lookup_delete_ne.
  - destruct Htmp as [->| ->]; [done|].
    rewrite elem_of_difference, elem_of_singleton.
    split; [by intros [? _]|by intros ?; split].
Qed.

Lemma delete_session_touches_only_its_id_witness :
  "s1" ≠ "s2" ∧
  (memory_storage gallery_and_chat !! "s1" = Some gallery_record ∧
   "s1" ∈ tmp_data gallery_and_chat) ∧
  (is_Some (memory_storage gallery_and_chat !! "s2") ∧
   memory_storage (delete_session "s2" two_ids gallery_and_chat).2 !! "s2" = None) ∧
  redis_db (delete_session "s2" two_ids gallery_and_chat).2 !! "s1"
    = redis_db gallery_and_chat !! "s1" ∧
  memory_storage (delete_session "s2" two_ids gallery_and_chat).2 !! "s1"
    = Some gallery_record ∧
  "s1" ∈ tmp_data (delete_session "s2" two_ids gallery_and_chat).2.
Proof.
  assert ("s1" ≠ "s2") as Hne by discriminate.
  assert (memory_storage gallery_and_chat !! "s1" = Some gallery_record) as Hgallery
    by (vm_compute; reflexivity).
  assert ("s1" ∈ tmp_data gallery_and_chat) as Hdir
    by (apply (bool_decide_unpack _); vm_compute; exact I).
  destruct (delete_session_touches_only_its_id two_ids gallery_and_chat
              "s2" "s1" Hne) as (Hdb & Hmem & Htmp).
  split; [exact Hne|]. split; [split; assumption|].
  split; [split; [vm_compute; eauto|vm_compute; reflexivity]|].
  split; [exact Hdb|]. split; [by rewrite Hmem|by apply Htmp].
Defined.

(** X7. After [delete_session] a read of the id finds nothing, provided
    Redis does not come back after a failure in between. *)
Theorem delete_then_get_absent e w sid :
  no_recovery e →
  (get_session sid e (delete_session sid e w).2).1 = Ret None.
Proof.
  intros Hnr.
  destruct (delete_session_spec e w sid Hnr) as (w' & -> & _ & Hmem & Htick & Hdb).
  cbn [snd].
  destruct (get_session_spec e w' sid) as (res & w2 & -> & _ & _ & _ & Hcase).
  cbn [fst]. f_equal.
  destruct Hcase as [(n & r0 & Hn & Hup & Hl & _)|[_ Hmemory]].
  - exfalso. apply redis_lookup_Some in Hl as (dl & Hl & _).
    destruct Hdb as [[Hdb _]|[_ (m & Hm & Hdown)]].
    + by rewrite Hdb, lookup_delete_eq in Hl.
    + rewrite (no_recovery_down e m n Hnr Hdown) in Hup; [done|lia].
  - revert Hmemory. unfold memory_answer. rewrite Hmem, lookup_delete_eq.
    by intros [-> _].
Qed.

Lemma delete_then_get_absent_witness :
  no_recovery online ∧
  (get_session "s1" online cached_world).1 = Ret (Some chat_record) ∧
  (get_session "s1" online (delete_session "s1" online cached_world).2).1 = Ret None.
Proof.
  split; [apply steady_no_recovery|]. split; [vm_compute; reflexivity|].
  exact (delete_then_get_absent online cached_world "s1"
           (steady_no_recovery true ticking)).
Defined.

(** ** Reaping *)

Lemma shrinks_refl w : shrinks w w.
Proof. by repeat split. Qed.

Lemma shrinks_trans w1 w2 w3 : shrinks w1 w2 → shrinks w2 w3 → shrinks w1 w3.
Proof.
  intros (Ha & Hb & Hc) (Ha' & Hb' & Hc').
  split; [by etrans|]. split; by etrans.
Qed.

Lemma delete_session_shrinks e w sid : shrinks w (delete_session sid e w).2.
Proof.
  destruct (delete_session_effect e w sid) as (w' & -> & Hdb & Htmp & Hmem & _).
  cbn [snd]. split; [|split].
  - destruct Hdb as [->| ->]; [done|apply delete_subseteq].
  - rewrite Hmem. apply delete_subseteq.
  - destruct Htmp as [->| ->]; [done|]. apply subseteq_difference_l. done.
Qed.

(** X8. A reap cycle only ever removes: whatever the environment does, it
    returns normally and every Redis value, in-memory record and session
    directory that exists after the cycle existed, unchanged, before it. *)
Theorem cleanup_cycle_only_removes e w :
  (cleanup_cycle e w).1 = Ret tt ∧
  redis_db (cleanup_cycle e w).2 ⊆ redis_db w ∧
  memory_storage (cleanup_cycle e w).2 ⊆ memory_storage w ∧
  tmp_data (cleanup_cycle e w).2 ⊆ tmp_data w.
Proof.
  split; [apply try_except_pass_fst|].
  change (shrinks w (cleanup_cycle e w).2).
  unfold cleanup_cycle. rewrite try_except_pass_snd.
  assert (utcnow e w = (Ret (clock e (tick w)), bump w)) as Hnow by reflexivity.
  rewrite (bind_ret _ _ _ _ _ _ Hnow).
  destruct (get_redis_spec e (bump w)) as (b & w2 & Hgr & (Hdb2 & Hm2 & Ht2) & _).
  rewrite (bind_ret _ _ _ _ _ _ Hgr).
  assert (shrinks w w2) as Hw2.
  { unfold shrinks. rewrite Hdb2, Hm2, Ht2. cbn. by repeat split. }
  apply (shrinks_trans _ _ _ Hw2).
  destruct b.
  - unfold bind at 1. unfold redis_keys, redis_call.
    destruct (redis_up e (tick w2)); [|by unfold shrinks; cbn; repeat split].
    cbn [fst snd].
    match goal with |- shrinks _ (for_each ?l ?body e ?w0).2 =>
      apply (shrinks_trans _ w0); [by unfold shrinks; cbn; repeat split|];
      apply (for_each_frame shrinks body e l shrinks_refl shrinks_trans)
    end.
    intros key w1 _. unfold bind at 1. unfold redis_get, redis_call.
    destruct (redis_up e (tick w1)); [|by unfold shrinks; cbn; repeat split]. cbn [fst snd].
    match goal with |- context [redis_lookup ?t ?db key] =>
      destruct (redis_lookup t db key) as [r|]
    end; [|by unfold shrinks; cbn; repeat split].
    match goal with |- context [(expires_at r <? ?c)%Z] =>
      destruct (expires_at r <? c)%Z
    end; [|by unfold shrinks; cbn; repeat split].
    match goal with |- shrinks _ (delete_session key e ?w0).2 =>
      apply (shrinks_trans _ w0);
        [by unfold shrinks; cbn; repeat split|apply delete_session_shrinks]
    end.
  - unfold gets at 1. unfold bind at 1.
    apply (for_each_frame shrinks delete_session e _ shrinks_refl shrinks_trans).
    intros sid w1 _. apply delete_session_shrinks.
Qed.

(** What the loop body of the Redis branch does to Redis for its key,
    when Redis is reachable: it deletes the key if the value it reads is
    past the cut-off, and otherwise leaves Redis alone; a key with a value
    past the cut-off is only left if it was no longer live when read. *)
Lemma reap_key_effect e cutoff key w :
  (∀ n, redis_up e n = true) →
  ∃ w',
    (found <- redis_get key ;;
     match found with
     | Some session_data =>
         if (expires_at session_data <? cutoff)%Z
         then delete_session key
         else ret tt
     | None => ret tt
     end) e w = (Ret tt, w') ∧
    tick w < tick w' ∧
    ((redis_db w' = redis_db w ∧
      ∀ r dl, redis_db w !! key = Some (r, dl) → (expires_at r < cutoff)%Z →
        ∃ n, n < tick w' ∧ (dl ≤ clock e n)%Z)
     ∨ (redis_db w' = delete key (redis_db w) ∧
        ∃ r dl, redis_db w !! key = Some (r, dl) ∧ (expires_at r < cutoff)%Z)).
Proof.
  intros Hup. unfold bind at 1. unfold redis_get, redis_call. rewrite Hup.
  cbn [fst snd].
  destruct (redis_lookup (clock e (tick w)) (redis_db w) key) as [r0|] eqn:Hl.
  - apply redis_lookup_Some in Hl as (dl0 & Hl & Hlive).
    destruct (Z.ltb_spec (expires_at r0) cutoff) as [Hexp|Hexp].
    + set (w1 := bump (set_redis_db (redis_db w) w)).
      destruct (delete_session_spec e w1 key) as (w' & Heq & _ & _ & Htick & Hdb).
      { intros n m _ _. apply Hup. }
      exists w'. split; [exact Heq|]. split; [cbn in Htick; lia|].
      right. destruct Hdb as [[-> _]|[_ (n & _ & Hdown)]].
      * split; [reflexivity|]. by exists r0, dl0.
      * by rewrite Hup in Hdown.
    + eexists. split; [reflexivity|]. cbn. split; [lia|]. left.
      split; [reflexivity|]. intros r dl Hl'. rewrite Hl in Hl'.
      injection Hl' as <- <-. lia.
  - eexists. split; [reflexivity|]. cbn. split; [lia|]. left.
    split; [reflexivity|]. intros r dl Hl' _. exists (tick w). split; [lia|].
    unfold redis_lookup in Hl. rewrite Hl' in Hl. unfold live in Hl. cbn in Hl.
    destruct (Z.ltb_spec (clock e (tick w)) dl); [done|lia].
Qed.

Lemma reap_loop e cutoff l :
  (∀ n, redis_up e n = true) →
  ∀ w, ∃ w',
    for_each l (λ key,
      found <- redis_get key ;;
      match found with
      | Some session_data =>
          if (expires_at session_data <? cutoff)%Z
          then delete_session key
          else ret tt
      | None => ret tt
      end) e w = (Ret tt, w') ∧
    tick w ≤ tick w' ∧
    (∀ sid, redis_db w' !! sid = redis_db w !! sid ∨
       (redis_db w' !! sid = None ∧
        ∃ r dl, redis_db w !! sid = Some (r, dl) ∧ (expires_at r < cutoff)%Z)) ∧
    (∀ sid r dl, sid ∈ l → redis_db w !! sid = Some (r, dl) →
       (expires_at r < cutoff)%Z →
       redis_db w' !! sid = None ∨ ∃ n, n < tick w' ∧ (dl ≤ clock e n)%Z).
Proof.
  intros Hup. induction l as [|x l IH]; intros w.
  - exists w. split; [reflexivity|]. split; [lia|]. split; [by left|].
    intros sid r dl Hin. by apply elem_of_nil in Hin.
  - destruct (reap_key_effect e cutoff x w Hup) as (w1 & Hbody & Htick1 & Hdb1).
    destruct (IH w1) as (w' & Hloop & Htick & Hinv1 & Hinv2).
    exists w'. rewrite for_each_cons, (bind_ret _ _ _ _ _ _ Hbody).
    split; [exact Hloop|]. split; [lia|].
    assert (∀ sid, redis_db w' !! sid = redis_db w !! sid ∨
              (redis_db w' !! sid = None ∧
               ∃ r dl, redis_db w !! sid = Some (r, dl) ∧ (expires_at r < cutoff)%Z))
      as Hinv.
    { intros sid. destruct Hdb1 as [[Hsame _]|[Hdel Hexp]].
      - rewrite <- Hsame. apply Hinv1.
      - destruct (decide (sid = x)) as [->|Hne].
        + right. split; [|exact Hexp].
          destruct (Hinv1 x) as [->|[-> _]]; [|done].
          rewrite Hdel. apply lookup_delete_eq.
        + destruct (Hinv1 sid) as [Heq|[Hnone Hwas]].
          * left. rewrite Heq, Hdel. by apply lookup_delete_ne.
          * right. split; [exact Hnone|].
            rewrite Hdel, lookup_delete_ne in Hwas by done. exact Hwas. }
    split; [exact Hinv|].
    intros sid r dl Hin Hl Hexp.
    destruct (decide (sid = x)) as [->|Hne].
    + destruct Hdb1 as [[_ Hstale]|[Hdel _]].
      * right. destruct (Hstale r dl Hl Hexp) as (n & Hn & Hdl).
        exists n. split; [lia|exact Hdl].
      * left. destruct (Hinv1 x) as [->|[-> _]]; [|done].
        rewrite Hdel. apply lookup_delete_eq.
    + apply elem_of_cons in Hin as [?|Hin]; [done|].
      apply (Hinv2 sid r dl Hin); [|exact Hexp].
      destruct Hdb1 as [[-> _]|[-> _]]; [exact Hl|].
      by rewrite lookup_delete_ne.
Qed.

(** X9. With Redis reachable throughout and a monotone clock, a reap cycle
    leaves every Redis value with [now <= expires_at + reap_grace_period]
    exactly as it was, and after the cycle Redis no longer serves any
    value with [now > expires_at + reap_grace_period]: its key has been
    deleted or has expired on its own. *)
Theorem cleanup_cycle_redis e w sid r dl :
  (∀ n, redis_up e n = true) → monotone_clock e →
  redis_db w !! sid = Some (r, dl) →
  (cleanup_cycle e w).1 = Ret tt ∧
  ((clock e (tick w) ≤ expires_at r + reap_grace_period)%Z →
     redis_db (cleanup_cycle e w).2 !! sid = Some (r, dl)) ∧
  ((clock e (tick w) > expires_at r + reap_grace_period)%Z →
     ∀ t, (clock e (tick (cleanup_cycle e w).2) ≤ t)%Z →
       redis_lookup t (redis_db (cleanup_cycle e w).2) sid = None).
Proof.
  intros Hup Hmc Hl. split; [apply try_except_pass_fst|].
  unfold cleanup_cycle. rewrite try_except_pass_snd.
  assert (utcnow e w = (Ret (clock e (tick w)), bump w)) as Hnow by reflexivity.
  rewrite (bind_ret _ _ _ _ _ _ Hnow).
  destruct (get_redis_spec e (bump w))
    as (b & w2 & Hgr & (Hdb2 & _ & _) & _ & Hb).
  assert (b = true ∧ tick w < tick w2) as [-> Htick2].
  { destruct Hb as [(_ & -> & ->)|(_ & -> & ->)]; cbn; [split; [done|lia]|].
    split; [apply Hup|lia]. }
  rewrite (bind_ret _ _ _ _ _ _ Hgr).
  set (cutoff := (clock e (tick w) - reap_grace_period)%Z).
  set (keys := (map_to_list
                  (filter (λ kv : string * (session * Z),
                             live (clock e (tick w2)) kv.2 = true)
                     (redis_db w2))).*1).
  set (w3 := bump (set_redis_db (redis_db w2) w2)).
  destruct (reap_loop e cutoff keys Hup w3) as (w' & Hloop & Htick & Hinv1 & Hinv2).
  match goal with |- context [bind redis_keys ?k e w2] =>
    assert (bind redis_keys k e w2 = (Ret tt, w')) as ->
      by (unfold bind at 1; unfold redis_keys, redis_call; rewrite Hup; exact Hloop)
  end.
  cbn [snd].
  assert (redis_db w3 = redis_db w) as Hdb3 by (unfold w3; cbn; by rewrite Hdb2).
  assert (tick w3 = S (tick w2)) as Htick3 by reflexivity.
  rewrite Hdb3 in Hinv1, Hinv2.
  split.
  - intros Hfresh. destruct (Hinv1 sid) as [->|[_ (r' & dl' & Hl' & Hexp)]]; [done|].
    rewrite Hl in Hl'. injection Hl' as <- <-. unfold cutoff in Hexp. lia.
  - intros Hexp t Ht.
    assert (redis_db w' !! sid = None ∨ ∃ n, n < tick w' ∧ (dl ≤ clock e n)%Z)
      as [Hnone|(n & Hn & Hdl)].
    { destruct (decide (sid ∈ keys)) as [Hin|Hnotin].
      - apply (Hinv2 sid r dl Hin Hl). unfold cutoff. lia.
      - right. exists (tick w2). split; [lia|].
        destruct (Z.ltb_spec (clock e (tick w2)) dl) as [Hlive|]; [|done].
        exfalso. apply Hnotin. unfold keys. apply list_elem_of_fmap.
        exists (sid, (r, dl)). split; [done|].
        apply elem_of_map_to_list, map_lookup_filter_Some.
        rewrite Hdb2. cbn. split; [exact Hl|]. unfold live. cbn.
        by apply Z.ltb_lt. }
    + unfold redis_lookup. by rewrite Hnone.
    + assert (clock e n ≤ clock e (tick w'))%Z by (apply Hmc; lia).
      unfold redis_lookup.
      destruct (Hinv1 sid) as [->|[-> _]]; [|done].
      rewrite Hl. unfold live. cbn.
      destruct (Z.ltb_spec t dl); [lia|done].
Qed.

Lemma cleanup_cycle_redis_witness :
  ((∀ n, redis_up overdue n = true) ∧ monotone_clock overdue ∧
   redis_db overdue_world !! "s1" = Some (chat_record, 2400000000%Z)) ∧
  (redis_lookup (clock overdue (tick overdue_world)) (redis_db overdue_world) "s1"
     = Some chat_record ∧
   (clock overdue (tick overdue_world)
      > expires_at chat_record + reap_grace_period)%Z) ∧
  (cleanup_cycle overdue overdue_world).1 = Ret tt ∧
  ∀ t, (clock overdue (tick (cleanup_cycle overdue overdue_world).2) ≤ t)%Z →
    redis_lookup t (redis_db (cleanup_cycle overdue overdue_world).2) "s1" = None.
Proof.
  assert (∀ n, redis_up overdue n = true) as Hup by (intros n; reflexivity).
  assert (monotone_clock overdue) as Hmc by (apply jump_monotone; lia).
  assert (redis_db overdue_world !! "s1" = Some (chat_record, 2400000000%Z)) as Hl
    by (vm_compute; reflexivity).
  assert (clock overdue (tick overdue_world)
            > expires_at chat_record + reap_grace_period)%Z as Hpast
    by (vm_compute; reflexivity).
  destruct (cleanup_cycle_redis overdue overdue_world "s1" chat_record 2400000000
              Hup Hmc Hl) as (Hret & _ & Hreaped).
  split; [split; [exact Hup|split; [exact Hmc|exact Hl]]|].
  split; [split; [vm_compute; reflexivity|exact Hpast]|].
  split; [exact Hret|]. exact (Hreaped Hpast).
Defined.
(** ** Sessions that a backend holds *)

Lemma held_later e w w' sid r :
  monotone_clock e → held e w sid r →
  redis_db w' !! sid = redis_db w !! sid →
  memory_storage w' !! sid = memory_storage w !! sid →
  tick w ≤ tick w' →
  held e w' sid r.
Proof.
  intros Hmc [Hpast Hheld] Hdb Hmem Htick. split.
  - pose proof (Hmc _ _ Htick). lia.
  - destruct (redis_up e 0); [by rewrite Hdb|by rewrite Hmem].
Qed.

(** A held record that has not expired is what a read returns. *)
Lemma held_get e w sid r :
  steady_redis e → monotone_clock e → held e w sid r →
  (clock e (tick w + 2) < expires_at r)%Z →
  ∃ w', get_session_origin sid e w = (Ret (Some (r, serving e)), w') ∧
    same_stores w w' ∧ tick w < tick w' ≤ tick w + 3.
Proof.
  intros Hsteady Hmc [Hpast Hheld] Hfresh.
  destruct (get_session_origin_spec e w sid)
    as (res & w' & Heq & Hdb & Htmp & Htick & Hcase).
  assert (past_grace (clock e (tick w)) r = false) as Hpg.
  { apply past_grace_false.
    assert (clock e (tick w) ≤ clock e (tick w + 2))%Z by (apply Hmc; lia).
    unfold read_grace_period, timedelta_minutes. lia. }
  assert (res = Some (r, serving e) ∧ memory_storage w' = memory_storage w)
    as [-> Hmem].
  { unfold serving.
    destruct Hcase as [(n & r0 & Hn & Hup & Hl & Hm & ->)|[Hwhy Hans]].
    - rewrite (Hsteady 0 n), Hup in Hheld |- *.
      destruct Hheld as (dl & Hl' & _).
      apply redis_lookup_Some in Hl as (dl0 & Hl & _).
      rewrite Hl' in Hl. injection Hl as <- <-. by rewrite Hpg.
    - destruct Hwhy as [(n & Hn & Hdown)|(n & Hn & Hup & Hl)].
      + rewrite (Hsteady 0 n), Hdown in Hheld |- *.
        revert Hans. unfold memory_answer. rewrite Hheld, Hpg. by intros [-> ->].
      + exfalso. rewrite (Hsteady 0 n), Hup in Hheld.
        destruct Hheld as (dl & Hl' & Hdl).
        unfold redis_lookup in Hl. rewrite Hl' in Hl. unfold live in Hl. cbn in Hl.
        assert (clock e n ≤ clock e (tick w + 2))%Z by (apply Hmc; lia).
        destruct (Z.ltb_spec (clock e n) dl); [done|lia]. }
  exists w'. split; [exact Heq|]. split; [by repeat split|exact Htick].
Qed.

(** A record that [create_session] has stored is held. *)
Lemma held_create e w ty d sid w1 :
  steady_redis e → monotone_clock e →
  create_session ty d e w = (Ret sid, w1) →
  sid = uuid e (tick w) ∧
  held e w1 sid (created_record e w ty d) ∧
  tick w + 3 ≤ tick w1 ≤ tick w + 5 ∧ tmp_data w1 = tmp_data w.
Proof.
  intros Hsteady Hmc Hcreate.
  destruct (create_session_spec e w ty d)
    as (res & w1' & Heq & Hdb & Htmp & Htick & Hcase).
  rewrite Hcreate in Heq. injection Heq as <- <-.
  destruct Hcase as [(Hsid & _ & Hdown & Hmem)|(_ & _ & n & _ & Hsid)];
    [|by destruct (redis_up e n)].
  injection Hsid as ->.
  split; [done|]. split; [|split; [lia|exact Htmp]].
  split.
  - cbn. assert (clock e (tick w + 2) ≤ clock e (tick w1))%Z by (apply Hmc; lia). lia.
  - rewrite (Hsteady 0 (tick w + 3)), Hdown, Hmem. apply lookup_insert_eq.
Qed.

(** [create_session] returns only while Redis cannot be reached, and the
    record it has stored is then kept by [memory_storage]. *)
Lemma kept_create e w ty d sid w1 :
  steady_redis e →
  create_session ty d e w = (Ret sid, w1) →
  sid = uuid e (tick w) ∧
  kept e w1 sid (created_record e w ty d) ∧
  (∀ n, redis_up e n = false) ∧
  redis_db w1 = redis_db w ∧ tmp_data w1 = tmp_data w ∧
  tick w + 3 ≤ tick w1 ≤ tick w + 5.
Proof.
  intros Hsteady Hcreate.
  destruct (create_session_spec e w ty d)
    as (res & w1' & Heq & Hdb & Htmp & Htick & Hcase).
  rewrite Hcreate in Heq. injection Heq as <- <-.
  destruct Hcase as [(Hsid & _ & Hdown & Hmem)|(_ & _ & n & _ & Hsid)];
    [|by destruct (redis_up e n)].
  injection Hsid as ->.
  assert (∀ n, redis_up e n = false) as Hnever
    by (intros n; by rewrite (Hsteady n (tick w + 3))).
  split; [done|]. split; [|done].
  split; [rewrite Hmem; apply lookup_insert_eq|].
  intros n Hup. by rewrite Hnever in Hup.
Qed.

Lemma within_grace_later e r r' first last first' last' :
  expires_at r' = expires_at r → first ≤ first' → last' ≤ last →
  within_grace e r first last → within_grace e r' first' last'.
Proof. intros Hexp ? ? Hgrace n Hn. rewrite Hexp. apply Hgrace. lia. Qed.

(** ** The WebSocket handlers *)

(** The in-place append on a record that [memory_storage] keeps: when
    the list is the stored one, the stored record has changed; merging
    the new list gives the same result either way. *)
Lemma kept_append e w sid r k l x :
  kept e w sid r → dict_get (data r) k (JList []) = JList l →
  ∃ w1 r1,
    (match FromMemory, data r !! k with
     | FromMemory, Some _ =>
         modify (λ w, set_memory_storage
           (<[sid := with_data r (<[k := JList (l ++ [x])]> (data r))]>
              (memory_storage w)) w)
     | _, _ => ret tt
     end) e w = (Ret tt, w1) ∧
    kept e w1 sid r1 ∧ tick w1 = tick w ∧ tmp_data w1 = tmp_data w ∧
    redis_db w1 = redis_db w ∧ expires_at r1 = expires_at r ∧
    ∀ d, d !! k = Some (JList (l ++ [x])) → merged r1 d = merged r d.
Proof.
  intros Hkept Hk. unfold dict_get in Hk.
  destruct (data r !! k) as [v|] eqn:Hv.
  - eexists _, (with_data r (<[k := JList (l ++ [x])]> (data r))).
    split; [reflexivity|]. cbn.
    split; [apply (kept_frame e w _ sid r _ Hkept); [done|apply lookup_insert_eq]|].
    do 4 (split; [done|]). intros d. apply merged_after_append.
  - exists w, r. split; [reflexivity|]. by split.
Qed.

Lemma send_to_session_fst send m sid ac :
  (ConnectionManager.send_to_session send m sid ac).1
  = ConnectionManager.send_each send m (default [] (ac !! sid)).
Proof. unfold ConnectionManager.send_to_session. by destruct (ac !! sid). Qed.

(** One message handled by [chat_websocket], for a session that
    [memory_storage] keeps: what is stored, what is sent, and how many
    steps it takes. *)
Lemma chat_on_message_ok send ac e w sid r l kv text :
  kept e w sid r → within_grace e r (tick w) (tick w + 5) →
  dict_get (data r) "messages" (JList []) = JList l →
  decoded kv !! "text" = Some text →
  ∃ w' message_id timestamp,
    chat_on_message send ac sid (JDict kv) e w
      = (Ret (ConnectionManager.send_each send (JDict kv) (default [] (ac !! sid))),
         w') ∧
    kept e w' sid
      (merged r {[ "messages" :=
                     JList (l ++ [JDict [("id", JStr message_id); ("text", text);
                                         ("timestamp", JStr timestamp)]]) ]}) ∧
    redis_db w' = redis_db w ∧ tmp_data w' = tmp_data w ∧
    tick w < tick w' ≤ tick w + 10.
Proof.
  intros Hkept Hgrace Hlist Htext.
  destruct (kept_get e w sid r Hkept)
    as (w1 & Hget & (Hdb1 & Hmem1 & Htmp1) & Htick1).
  { apply Hgrace. lia. }
  unfold chat_on_message. rewrite (bind_ret _ _ _ _ _ _ Hget). cbn zeta.
  rewrite Hlist.
  unfold bind at 1. unfold ret at 1.
  unfold bind at 1. unfold uuid4 at 1.
  unfold bind at 1. unfold json_getitem at 1. rewrite Htext. unfold ret at 1.
  unfold bind at 1. unfold utcnow_isoformat at 1.
  unfold bind at 1. unfold py_append at 1. unfold ret at 1.
  set (w2 := bump (bump w1)).
  set (entry := JDict _).
  assert (kept e w2 sid r) as Hkept2.
  { apply (kept_frame e w w2 sid r r Hkept); cbn; [done|].
    rewrite Hmem1. apply Hkept. }
  destruct (kept_append e w2 sid r "messages" l entry Hkept2 Hlist)
    as (w3 & r1 & Halias & Hkept3 & Htick3 & Htmp3 & Hdb3 & Hexp & Hmerged).
  rewrite (bind_ret _ _ _ _ _ _ Halias).
  destruct (kept_update e w3 sid r1 {[ "messages" := JList (l ++ [entry]) ]} Hkept3)
    as (w' & Hupd & Hkept' & Hdb' & Htmp' & _ & Htick').
  { rewrite Hexp, Htick3. apply Hgrace. cbn. lia. }
  rewrite (bind_ret _ _ _ _ _ _ Hupd). unfold ret.
  rewrite send_to_session_fst, Hmerged in * by apply lookup_singleton_eq.
  eexists w', _, _. split; [reflexivity|]. split; [exact Hkept'|].
  split; [rewrite Hdb', Hdb3; cbn; exact Hdb1|].
  split; [rewrite Htmp', Htmp3; cbn; exact Htmp1|].
  rewrite Htick3 in Htick'. cbn in Htick'. lia.
Qed.

(** X10. A chat message with a ["text"] field, for a session that
    [memory_storage] keeps (Redis serves nothing for the id) and that
    stays within its grace period: the message list of the kept record
    grows by one entry carrying the text, a fresh id and a timestamp, and
    the message as it was received (without id and timestamp) is sent
    once to every connection registered for the session, the sender
    included; Redis and the directories are as before.  The type of the
    session is not looked at. *)
Theorem chat_message_stored_and_broadcast send ac e w sid r l kv text :
  kept e w sid r → within_grace e r (tick w) (tick w + 5) →
  dict_get (data r) "messages" (JList []) = JList l →
  decoded kv !! "text" = Some text →
  ∃ w' message_id timestamp,
    chat_on_message send ac sid (JDict kv) e w
      = (Ret (ConnectionManager.send_each send (JDict kv) (default [] (ac !! sid))),
         w') ∧
    kept e w' sid
      (merged r {[ "messages" :=
                     JList (l ++ [JDict [("id", JStr message_id); ("text", text);
                                         ("timestamp", JStr timestamp)]]) ]}) ∧
    redis_db w' = redis_db w ∧ tmp_data w' = tmp_data w.
Proof.
  intros Hkept Hgrace Hlist Htext.
  destruct (chat_on_message_ok send ac e w sid r l kv text Hkept Hgrace Hlist Htext)
    as (w' & message_id & timestamp & Hrun & Hkept' & Hdb & Htmp & _).
  by exists w', message_id, timestamp.
Qed.

Lemma get_session_origin_None e w sid w' :
  get_session sid e w = (Ret None, w') →
  get_session_origin sid e w = (Ret None, w').
Proof.
  intros Hget.
  destruct (get_session_origin_spec e w sid) as (res & w1 & Heq & _).
  rewrite (get_session_of_origin _ _ _ _ _ Heq) in Hget.
  injection Hget as Hres <-. by destruct res.
Qed.

(** X11. A message or drawing that arrives for a session which has
    expired or never existed is dropped without any sign: the handler
    stores nothing, sends nothing to the connections registered for the
    id, raises nothing and goes on listening, whatever the message
    looks like. *)
Theorem message_for_absent_session_dropped send ac e w sid m :
  monotone_clock e → absent_at (clock e (tick w)) w sid →
  ∃ w', chat_on_message send ac sid m e w = (Ret [], w') ∧
    whiteboard_on_message send ac sid m e w = (Ret [], w') ∧
    redis_db w' = redis_db w ∧ tmp_data w' = tmp_data w ∧
    (memory_storage w' = memory_storage w ∨
     memory_storage w' = delete sid (memory_storage w)).
Proof.
  intros Hmc Habsent.
  destruct (get_session_absent e w sid Hmc Habsent)
    as (w' & Hget & Hdb & Htmp & _ & Hmem).
  apply get_session_origin_None in Hget.
  exists w'. unfold chat_on_message, whiteboard_on_message.
  rewrite !(bind_ret _ _ _ _ _ _ Hget). done.
Qed.

(** X12. A chat message that is a JSON object without a ["text"] field,
    for a session that is there: the [KeyError] is not caught, so the
    handler ends at once, without reading the frames that follow, without
    having stored or sent anything, and without [disconnect]: its socket
    stays in the connection list of the session. *)
Theorem chat_message_without_text_crashes send ws ac e w sid r kv rest :
  steady_redis e → monotone_clock e → held e w sid r →
  (clock e (tick w + 2) < expires_at r)%Z →
  (∃ l, dict_get (data r) "messages" (JList []) = JList l) →
  decoded kv !! "text" = None →
  ∃ w', chat_websocket send ws sid (Message (JDict kv) :: rest) ac e w
          = (Crashed KeyError, [], ConnectionManager.connect ws sid ac, w') ∧
    same_stores w w' ∧
    ws ∈ default [] (ConnectionManager.connect ws sid ac !! sid).
Proof.
  intros Hsteady Hmc Hheld Hfresh [l Hlist] Htext.
  destruct (held_get e w sid r Hsteady Hmc Hheld Hfresh)
    as (w1 & Hget & (Hdb1 & Hmem1 & Htmp1) & Htick1).
  exists (bump w1). split; [|split; [by repeat split|]].
  - unfold chat_websocket. cbn [handler_loop]. unfold chat_on_message.
    rewrite (bind_ret _ _ _ _ _ _ Hget). cbn zeta. rewrite Hlist.
    unfold bind at 1. unfold ret at 1.
    unfold bind at 1. unfold uuid4 at 1.
    unfold bind at 1. unfold json_getitem at 1. rewrite Htext. reflexivity.
  - unfold ConnectionManager.connect.
    destruct (ac !! sid) as [l0|] eqn:Hl0.
    + rewrite lookup_alter_eq, Hl0. cbn.
      apply elem_of_app. right. apply list_elem_of_here.
    + rewrite lookup_alter_eq, lookup_insert_eq. cbn. apply list_elem_of_here.
Qed.

(** X13. A drawing event for a session that [memory_storage] keeps
    (Redis serves nothing for the id) and that stays within its grace
    period: the list of drawings of the kept record grows by the event
    exactly as it was decoded, whether it is null, a boolean, an integer,
    a floating-point number, a string, an array or an object, and the
    event is sent once to every connection registered for the session;
    Redis and the directories are as before.  The type of the session is
    not looked at. *)
Theorem whiteboard_drawing_stored_and_broadcast send ac e w sid r l drawing :
  kept e w sid r → within_grace e r (tick w) (tick w + 5) →
  dict_get (data r) "drawings" (JList []) = JList l →
  ∃ w',
    whiteboard_on_message send ac sid drawing e w
      = (Ret (ConnectionManager.send_each send drawing (default [] (ac !! sid))),
         w') ∧
    kept e w' sid (merged r {[ "drawings" := JList (l ++ [drawing]) ]}) ∧
    redis_db w' = redis_db w ∧ tmp_data w' = tmp_data w.
Proof.
  intros Hkept Hgrace Hlist.
  destruct (kept_get e w sid r Hkept)
    as (w1 & Hget & (Hdb1 & Hmem1 & Htmp1) & Htick1).
  { apply Hgrace. lia. }
  unfold whiteboard_on_message. rewrite (bind_ret _ _ _ _ _ _ Hget). cbn zeta.
  rewrite Hlist.
  unfold bind at 1. unfold py_append at 1. unfold ret at 1.
  assert (kept e w1 sid r) as Hkept1.
  { apply (kept_frame e w w1 sid r r Hkept); [done|]. rewrite Hmem1. apply Hkept. }
  destruct (kept_append e w1 sid r "drawings" l drawing Hkept1 Hlist)
    as (w3 & r1 & Halias & Hkept3 & Htick3 & Htmp3 & Hdb3 & Hexp & Hmerged).
  rewrite (bind_ret _ _ _ _ _ _ Halias).
  destruct (kept_update e w3 sid r1 {[ "drawings" := JList (l ++ [drawing]) ]} Hkept3)
    as (w' & Hupd & Hkept' & Hdb' & Htmp' & _).
  { rewrite Hexp, Htick3. apply Hgrace. lia. }
  rewrite (bind_ret _ _ _ _ _ _ Hupd). unfold ret.
  rewrite send_to_session_fst, Hmerged in * by apply lookup_singleton_eq.
  exists w'. split; [reflexivity|]. split; [exact Hkept'|].
  split; [rewrite Hdb', Hdb3; exact Hdb1|]. rewrite Htmp', Htmp3. exact Htmp1.
Qed.

(** X14. A handler takes its socket out of the connection dictionary
    only when the client closes the connection: if it ends in any other
    way (a frame that is not JSON, an exception while a message is
    handled) or is still listening, the dictionary is as [connect] left
    it; and it ends as disconnected only after a close, with the
    dictionary that [disconnect] gives. *)
Theorem handler_deregisters_only_on_close on_message ws sid frames ac e w :
  match handler_loop on_message ws sid frames ac e w with
  | (Disconnected, _, ac', _) =>
      Closed ∈ frames ∧ ConnectionManager.disconnect ws sid ac = (Ret tt, ac')
  | (_, _, ac', _) => ac' = ac
  end.
Proof.
  revert w. induction frames as [|[m| |] rest IH]; intros w; cbn [handler_loop].
  - done.
  - destruct (on_message ac m e w) as [[sent|x] w1]; [|done].
    specialize (IH w1).
    destruct (handler_loop on_message ws sid rest ac e w1) as [[[st sent'] ac'] w2].
    destruct st; [done| |done].
    destruct IH as [Hin Hdis]. split; [set_solver|done].
  - done.
  - destruct (ConnectionManager.disconnect ws sid ac) as [[[]|x] ac'] eqn:Hdis.
    + split; [set_solver|done].
    + unfold ConnectionManager.disconnect in Hdis.
      destruct (ac !! sid) as [l|]; [|by injection Hdis].
      destruct (ConnectionManager.list_remove ws l) as [[|]|]; by injection Hdis.
Qed.

Lemma chat_loop_stores_in_order send ws ac e sid objects texts :
  Forall2 (λ kv text, decoded kv !! "text" = Some text) objects texts →
  ∀ w r l,
    kept e w sid r →
    within_grace e r (tick w) (tick w + 10 * length texts) →
    dict_get (data r) "messages" (JList []) = JList l →
    ∃ w' r' entries,
      handler_loop (λ ac, chat_on_message send ac sid) ws sid
          (Message ∘ JDict <$> objects) ac e w
        = (Listening,
           flat_map (λ kv, ConnectionManager.send_each send (JDict kv)
                             (default [] (ac !! sid))) objects,
           ac, w') ∧
      kept e w' sid r' ∧
      redis_db w' = redis_db w ∧ tmp_data w' = tmp_data w ∧
      dict_get (data r') "messages" (JList []) = JList (l ++ entries) ∧
      Forall2 (λ entry text, ∃ message_id timestamp,
                 entry = JDict [("id", JStr message_id); ("text", text);
                                ("timestamp", JStr timestamp)]) entries texts.
Proof.
  intros Hall.
  induction Hall as [|kv text objects texts Htext Hall IH];
    intros w r l Hkept Hgrace Hlist.
  - exists w, r, []. rewrite app_nil_r.
    split; [reflexivity|]. do 4 (split; [done|]). constructor.
  - cbn [length] in Hgrace.
    assert (within_grace e r (tick w) (tick w + 5)) as Hgrace1
      by (apply (within_grace_later e r r (tick w) (tick w + 10 * S (length texts)));
          [done|lia..|done]).
    destruct (chat_on_message_ok send ac e w sid r l kv text Hkept Hgrace1 Hlist Htext)
      as (w1 & message_id & timestamp & Hrun & Hkept1 & Hdb1 & Htmp1 & Htick1).
    set (entry := JDict [("id", JStr message_id); ("text", text);
                         ("timestamp", JStr timestamp)]) in *.
    destruct (IH w1 _ (l ++ [entry]) Hkept1)
      as (w' & r' & entries & Hloop & Hkept' & Hdb' & Htmp' & Hlist' & Hentries).
    { apply (within_grace_later e r _ (tick w) (tick w + 10 * S (length texts)));
        [done|lia..|done]. }
    { unfold dict_get, merged, dict_update. cbn [with_data data].
      rewrite lookup_union, lookup_singleton_eq. by destruct (data r !! "messages"). }
    exists w', r', (entry :: entries).
    split; [|split; [done|split; [congruence|split; [congruence|split]]]].
    + cbn [fmap list_fmap handler_loop compose flat_map]. cbn beta.
      rewrite Hrun.
      change (list_fmap _ _ (Message ∘ JDict) objects) with (Message ∘ JDict <$> objects).
      by rewrite Hloop.
    + rewrite Hlist'. by rewrite <- app_assoc.
    + constructor; [by eexists _, _|done].
Qed.

(** X30. A client that connects to a chat and sends messages with a
    ["text"] field, for a session that [memory_storage] keeps (Redis
    serves nothing for the id) and that stays within its grace period:
    the handler keeps listening, every message has been sent as received
    to all connections registered for the session, the client's own
    included, message after message, and the message list of the kept
    record has grown by one entry per message, in the order of arrival,
    each with the text of its message, an id and a timestamp; Redis and
    the directories are as before. *)
Theorem chat_messages_stored_in_order send ws ac e w sid r l objects texts :
  kept e w sid r →
  within_grace e r (tick w) (tick w + 10 * length texts) →
  dict_get (data r) "messages" (JList []) = JList l →
  Forall2 (λ kv text, decoded kv !! "text" = Some text) objects texts →
  ∃ w' r' entries,
    chat_websocket send ws sid (Message ∘ JDict <$> objects) ac e w
      = (Listening,
         flat_map (λ kv, ConnectionManager.send_each send (JDict kv)
                           (default [] (ConnectionManager.connect ws sid ac !! sid)))
           objects,
         ConnectionManager.connect ws sid ac, w') ∧
    kept e w' sid r' ∧
    redis_db w' = redis_db w ∧ tmp_data w' = tmp_data w ∧
    dict_get (data r') "messages" (JList []) = JList (l ++ entries) ∧
    Forall2 (λ entry text, ∃ message_id timestamp,
               entry = JDict [("id", JStr message_id); ("text", text);
                              ("timestamp", JStr timestamp)]) entries texts.
Proof.
  intros Hkept Hgrace Hlist Hall. unfold chat_websocket.
  exact (chat_loop_stores_in_order send ws _ e sid objects texts Hall
           w r l Hkept Hgrace Hlist).
Qed.

(** ** Connecting and leaving *)

Lemma list_remove_app_last ws l :
  ws ∉ l → ConnectionManager.list_remove ws (l ++ [ws]) = Some l.
Proof.
  induction l as [|y l IH]; intros Hnotin; cbn.
  - by rewrite decide_True.
  - apply not_elem_of_cons in Hnotin as [Hne Hnotin].
    rewrite decide_False by done. by rewrite IH.
Qed.

(** X15. [connect] followed by [disconnect] of the same socket gives the
    connection dictionary back as it was, entry for entry, when the
    socket was not already registered for the session and the dictionary
    has no empty list for it: a client that comes and goes leaves no
    trace. *)
Theorem connect_then_disconnect ws sid ac :
  ws ∉ default [] (ac !! sid) → ac !! sid ≠ Some [] →
  ConnectionManager.disconnect ws sid (ConnectionManager.connect ws sid ac)
    = (Ret tt, ac).
Proof.
  intros Hnotin Hnonempty.
  unfold ConnectionManager.disconnect, ConnectionManager.connect.
  destruct (ac !! sid) as [l|] eqn:Hl; cbn in Hnotin.
  - rewrite lookup_alter_eq, Hl. cbn. rewrite (list_remove_app_last _ _ Hnotin).
    destruct l as [|y l]; [done|]. f_equal.
    apply map_eq. intros i. destruct (decide (i = sid)) as [->|Hne].
    + by rewrite lookup_insert_eq.
    + by rewrite lookup_insert_ne, lookup_alter_ne.
  - rewrite lookup_alter_eq, lookup_insert_eq. cbn. rewrite decide_True by done.
    f_equal. apply map_eq. intros i. destruct (decide (i = sid)) as [->|Hne].
    + by rewrite lookup_delete_eq.
    + by rewrite lookup_delete_ne, lookup_alter_ne, lookup_insert_ne.
Qed.

(** ** Creating and reading back *)

Lemma held_get_session e w sid r :
  steady_redis e → monotone_clock e → held e w sid r →
  (clock e (tick w + 2) < expires_at r)%Z →
  ∃ w', get_session sid e w = (Ret (Some r), w') ∧
    same_stores w w' ∧ tick w < tick w' ≤ tick w + 3.
Proof.
  intros Hsteady Hmc Hheld Hfresh.
  destruct (held_get e w sid r Hsteady Hmc Hheld Hfresh) as (w' & Hget & ?).
  exists w'. split; [|done]. by rewrite (get_session_of_origin _ _ _ _ _ Hget).
Qed.

(** What [create_session] has stored is read back while less than the
    TTL has passed since the second clock reading of the call. *)
Lemma created_then_read e w ty d sid w1 :
  steady_redis e → monotone_clock e →
  create_session ty d e w = (Ret sid, w1) →
  (clock e (tick w + 7) < clock e (tick w + 2) + SESSION_TTL)%Z →
  ∃ w2, get_session sid e w1 = (Ret (Some (created_record e w ty d)), w2) ∧
    same_stores w1 w2.
Proof.
  intros Hsteady Hmc Hcreate Hfresh.
  destruct (held_create e w ty d sid w1 Hsteady Hmc Hcreate)
    as (_ & Hheld & Htick & _).
  destruct (held_get_session e w1 sid _ Hsteady Hmc Hheld) as (w2 & Hget & Hsame & _).
  { cbn. assert (clock e (tick w1 + 2) ≤ clock e (tick w + 7))%Z
      by (apply Hmc; lia). lia. }
  by exists w2.
Qed.

(** X16. A chat room that [create_chat_room] has created is served by
    [get_chat_room] under the id of the reply, with the name it was
    given and the expiry instant of the record, as long as less than the
    TTL has passed; reading stores nothing. *)
Theorem create_then_get_chat_room e w name reply w1 :
  steady_redis e → monotone_clock e →
  create_chat_room name e w = (Ret reply, w1) →
  (clock e (tick w + 7) < clock e (tick w + 2) + SESSION_TTL)%Z →
  created_room_name reply = name ∧
  ∃ w2, get_chat_room (created_session_id reply) e w1
          = (Ret {| room_session_id := created_session_id reply;
                    room_name := JStr name;
                    room_expires_at := (clock e (tick w + 2) + SESSION_TTL)%Z |},
             w2) ∧
    same_stores w1 w2.
Proof.
  intros Hsteady Hmc Hcreate Hfresh. unfold create_chat_room in Hcreate.
  destruct (create_session SessionType.CHAT_ROOM
              (Some {[ "name" := JStr name; "messages" := JList [] ]}) e w)
    as [[sid|x] w0] eqn:Hcs.
  2: { by rewrite (bind_raise _ _ _ _ _ _ Hcs) in Hcreate. }
  rewrite (bind_ret _ _ _ _ _ _ Hcs) in Hcreate. injection Hcreate as <- <-.
  split; [done|]. cbn [created_session_id].
  destruct (created_then_read e w _ _ sid w0 Hsteady Hmc Hcs Hfresh)
    as (w2 & Hget & Hsame).
  exists w2. split; [|done]. unfold get_chat_room.
  rewrite (bind_ret _ _ _ _ _ _ Hget). cbn [created_record session_type negb].
  change (negb (String.eqb SessionType.CHAT_ROOM SessionType.CHAT_ROOM)) with false.
  cbn iota. unfold getitem. cbn [data created_record expires_at].
  rewrite or_empty_Some.
  replace (({[ "name" := JStr name; "messages" := JList [] ]} : gmap string json)
             !! "name") with (Some (JStr name)); [done|].
  symmetry. apply lookup_insert_eq.
Qed.

(** X17. A whiteboard that [create_whiteboard] has created is served by
    [get_whiteboard] with an empty list of drawings and the expiry
    instant of the record, as long as less than the TTL has passed. *)
Theorem create_then_get_whiteboard e w sid w1 :
  steady_redis e → monotone_clock e →
  create_whiteboard e w = (Ret sid, w1) →
  (clock e (tick w + 7) < clock e (tick w + 2) + SESSION_TTL)%Z →
  ∃ w2, get_whiteboard sid e w1
          = (Ret {| board_session_id := sid; board_drawings := JList [];
                    board_expires_at := (clock e (tick w + 2) + SESSION_TTL)%Z |},
             w2) ∧
    same_stores w1 w2.
Proof.
  intros Hsteady Hmc Hcreate Hfresh. unfold create_whiteboard in Hcreate.
  destruct (created_then_read e w _ _ sid w1 Hsteady Hmc Hcreate Hfresh)
    as (w2 & Hget & Hsame).
  exists w2. split; [|done]. unfold get_whiteboard.
  rewrite (bind_ret _ _ _ _ _ _ Hget). cbn [created_record session_type negb].
  change (negb (String.eqb SessionType.WHITEBOARD SessionType.WHITEBOARD)) with false.
  cbn iota. cbn [data created_record expires_at].
  rewrite or_empty_Some. unfold dict_get. by rewrite lookup_singleton_eq.
Qed.

(** ** Endpoints and session types *)

Lemma other_type r ty :
  session_type r ≠ ty → negb (String.eqb (session_type r) ty) = true.
Proof. intros Hne. by apply negb_true_iff, String.eqb_neq. Qed.

(** X18. Each of the six HTTP endpoints that read a session
    ([get_chat_room], [get_whiteboard], [view_photos], [get_quick_poll],
    [submit_poll_response] and [get_poll_results]) answers 404 when the
    id belongs to no session or to a session of another type than its
    own, and stores nothing in that case: a chat room cannot be read as
    a whiteboard, a gallery or a poll, nor be voted on, and so on for
    the other types.  (The two WebSocket handlers read sessions too, and
    do not look at the type.) *)
Theorem endpoints_check_the_type e w sid res w1 responses :
  get_session_origin sid e w = (Ret res, w1) →
  let not_a ty := ∀ r from, res = Some (r, from) → session_type r ≠ ty in
  (not_a SessionType.CHAT_ROOM →
     get_chat_room sid e w = (Raise (HTTPException 404), w1)) ∧
  (not_a SessionType.WHITEBOARD →
     get_whiteboard sid e w = (Raise (HTTPException 404), w1)) ∧
  (not_a SessionType.PHOTO_SHARE →
     view_photos sid e w = (Raise (HTTPException 404), w1)) ∧
  (not_a SessionType.QUICK_POLL →
     get_quick_poll sid e w = (Raise (HTTPException 404), w1) ∧
     submit_poll_response sid responses e w = (Raise (HTTPException 404), w1) ∧
     get_poll_results sid e w = (Raise (HTTPException 404), w1)) ∧
  redis_db w1 = redis_db w ∧ tmp_data w1 = tmp_data w ∧
  (memory_storage w1 = memory_storage w ∨
   res = None ∧ memory_storage w1 = delete sid (memory_storage w)).
Proof.
  intros Hget not_a.
  pose proof (get_session_of_origin _ _ _ _ _ Hget) as Hget'.
  unfold get_chat_room, get_whiteboard, view_photos, get_quick_poll,
    submit_poll_response, get_poll_results.
  rewrite !(bind_ret _ _ _ _ _ _ Hget'), (bind_ret _ _ _ _ _ _ Hget).
  subst not_a. cbn beta.
  split; [|split; [|split; [|split]]].
  1-4: intros Hty; destruct res as [[r from]|]; [|done]; cbn [fmap option_fmap option_map fst];
       by rewrite (other_type r _ (Hty r from eq_refl)).
  destruct (get_session_origin_spec e w sid)
    as (res' & w' & Heq & Hdb & Htmp & _ & Hcase).
  rewrite Hget in Heq. injection Heq as <- <-.
  do 2 (split; [done|]).
  destruct Hcase as [(_ & _ & _ & _ & _ & Hm & _)|[_ Hmem]]; [by left|].
  revert Hmem. unfold memory_answer.
  destruct (memory_storage w !! sid) as [r0|]; [|intros [_ ?]; by left].
  destruct (past_grace _ r0); intros [? ?]; [by right|by left].
Qed.

(** ** Polls *)

Lemma created_poll_state e w questions minimum :
  (1 ≤ minimum)%Z →
  poll_state
    (created_record e w SessionType.QUICK_POLL
       (Some {[ "questions" := JList (JStr <$> questions);
                "min_responses" := JInt minimum;
                "responses" := JList [];
                "results_shown" := JBool false ]}))
    (JStr <$> questions) minimum [].
Proof.
  intros Hmin. unfold poll_state. cbn [created_record session_type data].
  rewrite or_empty_Some. split; [done|].
  split; [apply lookup_insert_eq|].
  split; [rewrite lookup_insert_ne by discriminate; apply lookup_insert_eq|].
  split; [do 2 (rewrite lookup_insert_ne by discriminate); apply lookup_insert_eq|].
  split; [|cbn; lia].
  do 3 (rewrite lookup_insert_ne by discriminate). rewrite lookup_singleton_eq.
  cbn [length]. by rewrite (proj2 (Z.leb_gt _ _)) by lia.
Qed.

(** What [get_quick_poll] answers for a poll in a given state. *)
Lemma get_quick_poll_of_state e w sid r questions minimum stored w' :
  get_session sid e w = (Ret (Some r), w') →
  poll_state r questions minimum stored →
  get_quick_poll sid e w
    = (Ret {| poll_session_id := sid; poll_questions := JList questions;
              poll_min_responses := JInt minimum;
              poll_response_count := length stored;
              poll_results_shown := JBool (minimum <=? Z.of_nat (length stored))%Z;
              poll_expires_at := expires_at r |}, w').
Proof.
  intros Hget (Hty & Hq & Hmin & Hresp & Hshown & _).
  unfold get_quick_poll. rewrite (bind_ret _ _ _ _ _ _ Hget).
  rewrite (is_quick_poll r Hty). unfold getitem, py_len.
  rewrite Hq, Hmin, Hresp, Hshown. reflexivity.
Qed.

(** X19. [create_quick_poll] succeeds only with at most three questions
    and a minimum of at least one response, and the poll it has created
    is then served by [get_quick_poll] with these questions and this
    minimum, no response yet and the results not shown, as long as less
    than the TTL has passed. *)
Theorem create_then_get_quick_poll e w questions minimum sid w1 :
  steady_redis e → monotone_clock e →
  create_quick_poll questions minimum e w = (Ret sid, w1) →
  (clock e (tick w + 7) < clock e (tick w + 2) + SESSION_TTL)%Z →
  length questions ≤ 3 ∧ (1 ≤ minimum)%Z ∧
  ∃ w2, get_quick_poll sid e w1
          = (Ret {| poll_session_id := sid;
                    poll_questions := JList (JStr <$> questions);
                    poll_min_responses := JInt minimum;
                    poll_response_count := 0;
                    poll_results_shown := JBool false;
                    poll_expires_at := (clock e (tick w + 2) + SESSION_TTL)%Z |},
             w2) ∧
    same_stores w1 w2.
Proof.
  intros Hsteady Hmc Hcreate Hfresh. unfold create_quick_poll in Hcreate.
  destruct (Nat.ltb_spec 3 (length questions)) as [|Hlen]; [done|].
  destruct (Z.ltb_spec minimum 1) as [|Hmin]; [done|].
  do 2 (split; [done|]).
  destruct (created_then_read e w _ _ sid w1 Hsteady Hmc Hcreate Hfresh)
    as (w2 & Hget & Hsame).
  exists w2. split; [|done].
  rewrite (get_quick_poll_of_state e w1 sid _ _ _ _ w2 Hget
             (created_poll_state e w questions minimum Hmin)).
  cbn [length created_record expires_at].
  by rewrite (proj2 (Z.leb_gt _ _)) by lia.
Qed.

Lemma poll_state_merged r questions minimum stored x :
  poll_state r questions minimum stored →
  (Z.of_nat (length stored) < minimum)%Z →
  poll_state
    (merged r (poll_update (JList (stored ++ [x]))
                 (minimum <=? Z.of_nat (length (stored ++ [x])))%Z))
    questions minimum (stored ++ [x]).
Proof.
  intros (Hty & Hq & Hmin & Hresp & Hshown & Hone & Hle) Hlt.
  unfold poll_state, merged, dict_update, poll_update.
  cbn [with_data session_type data].
  split; [done|]. rewrite !lookup_union.
  split; [by rewrite lookup_insert_ne, lookup_singleton_ne, Hq by discriminate|].
  split; [by rewrite lookup_insert_ne, lookup_singleton_ne, Hmin by discriminate|].
  split; [by rewrite lookup_insert_eq, Hresp|].
  split; [by rewrite lookup_insert_ne, lookup_singleton_eq, Hshown by discriminate|].
  split; [done|]. rewrite length_app. cbn. lia.
Qed.

Lemma kept_append_found e w sid r k l x :
  kept e w sid r → data r !! k = Some (JList l) →
  ∃ w1 r1,
    (match FromMemory with
     | FromMemory =>
         modify (λ w, set_memory_storage
           (<[sid := with_data r (<[k := JList (l ++ [x])]> (data r))]>
              (memory_storage w)) w)
     | FromRedis => ret tt
     end) e w = (Ret tt, w1) ∧
    kept e w1 sid r1 ∧ tick w1 = tick w ∧ tmp_data w1 = tmp_data w ∧
    redis_db w1 = redis_db w ∧ expires_at r1 = expires_at r ∧
    ∀ d, d !! k = Some (JList (l ++ [x])) → merged r1 d = merged r d.
Proof.
  intros Hkept Hk.
  eexists _, (with_data r (<[k := JList (l ++ [x])]> (data r))).
  split; [reflexivity|]. cbn.
  split; [apply (kept_frame e w _ sid r _ Hkept); [done|apply lookup_insert_eq]|].
  do 4 (split; [done|]). intros d. apply merged_after_append.
Qed.

(** X20. The state of a poll is kept by [submit_poll_response], for a
    poll that [memory_storage] keeps (Redis serves nothing for the id)
    and that stays within its grace period.  For a poll with fewer than
    [min_responses] responses and an answer to each question, the call
    returns the new count and the flag, and the list of the kept record
    has grown by this response; otherwise (the poll is complete, or the
    number of answers is wrong) the call fails with status 400 and the
    record is as before.  In both cases the kept record has at most
    [min_responses] responses and its [results_shown] flag is set exactly
    when it has that many: such a poll never takes more responses than
    it asked for.  Redis and the directories are as before. *)
Theorem submit_keeps_poll_state e w sid r questions minimum stored responses :
  kept e w sid r → within_grace e r (tick w) (tick w + 5) →
  poll_state r questions minimum stored →
  ∃ res w' r' stored',
    submit_poll_response sid responses e w = (res, w') ∧
    kept e w' sid r' ∧ poll_state r' questions minimum stored' ∧
    redis_db w' = redis_db w ∧ tmp_data w' = tmp_data w ∧
    (((Z.of_nat (length stored) < minimum)%Z ∧
      length responses = length questions ∧
      (∃ response_id timestamp,
         stored' = stored ++ [JDict [("id", JStr response_id);
                                     ("responses", JList (JStr <$> responses));
                                     ("timestamp", JStr timestamp)]]) ∧
      res = Ret {| response_count := S (length stored);
                   results_shown := (minimum <=? Z.of_nat (S (length stored)))%Z;
                   min_responses := JInt minimum |})
     ∨
     ((Z.of_nat (length stored) = minimum ∨ length responses ≠ length questions) ∧
      stored' = stored ∧ r' = r ∧ res = Raise (HTTPException 400))).
Proof.
  intros Hkept Hgrace Hstate.
  pose proof Hstate as (Hty & Hq & Hmin & Hresp & Hshown & Hone & Hle).
  destruct (kept_get e w sid r Hkept)
    as (w1 & Hget & (Hdb1 & Hmem1 & Htmp1) & Htick1).
  { apply Hgrace. lia. }
  assert (kept e w1 sid r) as Hkept1.
  { apply (kept_frame e w w1 sid r r Hkept); [done|]. rewrite Hmem1. apply Hkept. }
  unfold submit_poll_response.
  rewrite (bind_ret _ _ _ _ _ _ Hget), (is_quick_poll r Hty).
  unfold getitem at 1. rewrite Hshown. unfold bind at 1, ret at 1.
  cbn [truthy].
  destruct (Z.leb_spec minimum (Z.of_nat (length stored))) as [Hfull|Hopen].
  { exists (Raise (HTTPException 400)), w1, r, stored.
    do 5 (split; [done|]). right. split; [left; lia|done]. }
  unfold getitem at 1. rewrite Hq. unfold bind at 1, ret at 1.
  unfold py_len at 1. cbn [len_of]. unfold bind at 1, ret at 1.
  destruct (Nat.eqb_spec (length responses) (length questions)) as [Hlen|Hlen];
    cbn [negb].
  2: { exists (Raise (HTTPException 400)), w1, r, stored.
       do 5 (split; [done|]). right. split; [by right|done]. }
  unfold getitem at 1. rewrite Hresp. unfold bind at 1, ret at 1.
  unfold bind at 1. unfold ret at 1.
  unfold bind at 1. unfold uuid4 at 1.
  unfold bind at 1. unfold utcnow_isoformat at 1.
  unfold bind at 1. unfold py_append at 1. unfold ret at 1.
  set (w2 := bump (bump w1)).
  set (entry := JDict _).
  assert (kept e w2 sid r) as Hkept2.
  { apply (kept_frame e w1 w2 sid r r Hkept1); [done|]. apply Hkept1. }
  destruct (kept_append_found e w2 sid r "responses" stored entry Hkept2 Hresp)
    as (w3 & r1 & Halias & Hkept3 & Htick3 & Htmp3 & Hdb3 & Hexp & Hmerged).
  rewrite (bind_ret _ _ _ _ _ _ Halias).
  unfold py_len at 1. cbn [len_of]. unfold bind at 1, ret at 1.
  unfold getitem at 1. rewrite Hmin. unfold bind at 1, ret at 1.
  unfold py_ge at 1. cbn [as_int]. unfold bind at 1, ret at 1.
  set (shown := (minimum <=? Z.of_nat (length (stored ++ [entry])))%Z).
  destruct (kept_update e w3 sid r1 (poll_update (JList (stored ++ [entry])) shown)
              Hkept3) as (w' & Hupd & Hkept' & Hdb' & Htmp' & _).
  { rewrite Hexp, Htick3. apply Hgrace. cbn. lia. }
  rewrite (bind_ret _ _ _ _ _ _ Hupd). unfold ret.
  rewrite Hmerged in Hkept' by apply lookup_insert_eq.
  eexists _, w', _, (stored ++ [entry]).
  split; [reflexivity|]. split; [exact Hkept'|].
  split; [by apply poll_state_merged|].
  split; [rewrite Hdb', Hdb3; cbn; exact Hdb1|].
  split; [rewrite Htmp', Htmp3; cbn; exact Htmp1|].
  left. split; [done|]. split; [done|]. split; [by eexists _, _|].
  subst shown. rewrite length_app. cbn [length].
  by replace (length stored + 1) with (S (length stored)) by lia.
Qed.

(** X21. [get_poll_results] on a poll in a given state: the questions
    and all stored responses, in the order of their arrival, once
    [min_responses] responses are in, and status 400 before; nothing is
    stored either way. *)
Theorem poll_results_when_complete e w sid r questions minimum stored :
  steady_redis e → monotone_clock e → held e w sid r →
  (clock e (tick w + 2) < expires_at r)%Z →
  poll_state r questions minimum stored →
  ∃ w', same_stores w w' ∧
    get_poll_results sid e w
      = (if (minimum <=? Z.of_nat (length stored))%Z
         then Ret {| reply_session_id := sid; reply_questions := JList questions;
                     reply_responses := JList stored |}
         else Raise (HTTPException 400), w').
Proof.
  intros Hsteady Hmc Hheld Hfresh (Hty & Hq & Hmin & Hresp & Hshown & _).
  destruct (held_get_session e w sid r Hsteady Hmc Hheld Hfresh)
    as (w' & Hget & Hsame & _).
  exists w'. split; [done|]. unfold get_poll_results.
  rewrite (bind_ret _ _ _ _ _ _ Hget), (is_quick_poll r Hty).
  unfold getitem. rewrite Hshown, Hq, Hresp. unfold bind, ret, raise. cbn [truthy].
  by destruct (minimum <=? Z.of_nat (length stored))%Z.
Qed.

(** ** Photo uploads *)

(** The upload loop on its own: when it succeeds, every file was
    acceptable, the running total has stayed within the session limit,
    the names come in the order of the files, and no store is touched. *)
Lemma upload_loop_sound files : ∀ uploaded total e w names w',
  (total ≤ MAX_SESSION_BYTES)%Z →
  upload_loop files uploaded total e w = (Ret names, w') →
  w' = w ∧ names = uploaded ++ processed_names files ∧
  Forall acceptable files ∧
  (total + processed_size files ≤ MAX_SESSION_BYTES)%Z.
Proof.
  induction files as [|file rest IH]; intros uploaded total e w names w' Htotal Hloop;
    cbn [upload_loop] in Hloop.
  - injection Hloop as <- <-. cbn. rewrite app_nil_r.
    repeat split; [constructor|lia].
  - destruct (allowed_type file) eqn:Hallowed; cbn [negb] in Hloop; [|done].
    destruct (Z.ltb_spec MAX_UPLOAD_BYTES (content_length file)) as [|Hlen]; [done|].
    destruct (processed file) as [[name size]|] eqn:Hproc; [|done].
    destruct (Z.ltb_spec MAX_SESSION_BYTES (total + size)) as [|Hsum]; [done|].
    destruct (IH _ _ _ _ _ _ Hsum Hloop) as (-> & -> & Hall & Hbound).
    split; [done|]. unfold processed_names, processed_size in *.
    cbn [omap list_omap foldr]. rewrite Hproc. cbn.
    split; [by rewrite <- app_assoc|].
    split; [|lia]. constructor; [|done]. split; [done|]. split; [done|]. eauto.
Qed.

Lemma upload_loop_rejects files : ∀ uploaded total e w,
  Exists (λ file, ¬ acceptable file) files →
  upload_loop files uploaded total e w = (Raise (HTTPException 400), w).
Proof.
  induction files as [|file rest IH]; intros uploaded total e w Hex;
    [by apply Exists_nil in Hex|].
  cbn [upload_loop].
  destruct (allowed_type file) eqn:Hallowed; cbn [negb]; [|done].
  destruct (Z.ltb_spec MAX_UPLOAD_BYTES (content_length file)) as [|Hlen]; [done|].
  destruct (processed file) as [[name size]|] eqn:Hproc; [|done].
  destruct (Z.ltb_spec MAX_SESSION_BYTES (total + size)) as [|Hsum]; [done|].
  apply Exists_cons in Hex as [Hbad|Hex]; [|by apply IH].
  exfalso. apply Hbad. split; [done|]. split; [done|]. eauto.
Qed.

Lemma upload_loop_accepts files : ∀ uploaded total e w,
  Forall acceptable files →
  Forall (λ file, 0 ≤ default 0 (snd <$> processed file))%Z files →
  (0 ≤ total)%Z → (total + processed_size files ≤ MAX_SESSION_BYTES)%Z →
  upload_loop files uploaded total e w = (Ret (uploaded ++ processed_names files), w).
Proof.
  induction files as [|file rest IH]; intros uploaded total e w Hall Hpos Htotal Hsum.
  - cbn. by rewrite app_nil_r.
  - apply Forall_cons in Hall as [(Hallowed & Hlen & name & size & Hproc) Hall].
    apply Forall_cons in Hpos as [Hsize Hpos].
    assert (0 ≤ processed_size rest)%Z as Hrest.
    { clear -Hpos. induction Hpos; cbn; [done|]. unfold processed_size in *. lia. }
    unfold processed_names, processed_size in *.
    cbn [upload_loop omap list_omap foldr] in *. rewrite Hproc in *. cbn in *.
    rewrite Hallowed. cbn [negb].
    rewrite (proj2 (Z.ltb_ge _ _)) by done.
    rewrite (proj2 (Z.ltb_ge _ _)) by lia.
    rewrite IH by (done || lia). by rewrite <- app_assoc.
Qed.

(** X22. [upload_photos] returns only when there are at most ten files,
    each of an allowed image type, of at most 8 MB, and processed
    without error, and when what was written for them is at most 64 MB
    in total; the reply lists the processed names in the order of the
    files. *)
Theorem upload_photos_accepts_only e w files reply w' :
  upload_photos files e w = (Ret reply, w') →
  length files ≤ 10 ∧ Forall acceptable files ∧
  (processed_size files ≤ MAX_SESSION_BYTES)%Z ∧
  upload_files reply = processed_names files.
Proof.
  unfold upload_photos. intros Hup.
  destruct (Nat.ltb_spec 10 (length files)) as [|Hlen]; [done|].
  split; [done|].
  destruct (create_session SessionType.PHOTO_SHARE None e w) as [[sid|x] w1] eqn:Hcs.
  2: { by rewrite (bind_raise _ _ _ _ _ _ Hcs) in Hup. }
  rewrite (bind_ret _ _ _ _ _ _ Hcs) in Hup.
  unfold bind at 1 in Hup. unfold os_makedirs at 1, modify at 1 in Hup.
  unfold bind at 1 in Hup.
  match type of Hup with
  | context [upload_loop files [] 0 e ?w0] =>
      destruct (upload_loop files [] 0 e w0) as [[names|x] w2] eqn:Hloop; [|done]
  end.
  apply upload_loop_sound in Hloop as (-> & -> & Hall & Hbound); [|done].
  split; [done|]. split; [lia|].
  unfold bind at 1 in Hup.
  match type of Hup with
  | context [update_session sid ?d e ?w0] =>
      destruct (update_session sid d e w0) as [[[]|x] w3]; [|done]
  end.
  unfold ret in Hup. by injection Hup as <- _.
Qed.

(** X23. When a file is refused after the session has been created
    (wrong type, too large, or not an image that can be processed),
    [upload_photos] fails with status 400 and cleans nothing up: the
    empty photo-share session it has created is still held by the
    backend, and its directory is still there. *)
Theorem upload_rejected_leaves_session e w files sid w1 :
  steady_redis e → monotone_clock e →
  length files ≤ 10 → Exists (λ file, ¬ acceptable file) files →
  create_session SessionType.PHOTO_SHARE None e w = (Ret sid, w1) →
  ∃ w', upload_photos files e w = (Raise (HTTPException 400), w') ∧
    held e w' sid (created_record e w SessionType.PHOTO_SHARE None) ∧
    sid ∈ tmp_data w'.
Proof.
  intros Hsteady Hmc Hlen Hbad Hcs. unfold upload_photos.
  rewrite (proj2 (Nat.ltb_ge _ _)) by done.
  rewrite (bind_ret _ _ _ _ _ _ Hcs).
  unfold bind at 1. unfold os_makedirs at 1, modify at 1.
  unfold bind at 1. rewrite (upload_loop_rejects files _ _ _ _ Hbad).
  eexists. split; [reflexivity|].
  destruct (held_create e w _ _ sid w1 Hsteady Hmc Hcs) as (_ & Hheld & _).
  split; [|cbn; apply elem_of_union; left; by apply elem_of_singleton].
  by apply (held_later e w1).
Qed.

(** X24. An upload of acceptable files within the session limit, into a
    backend that takes the session: the reply lists the processed names
    in the order of the files, the directory of the session exists, and
    [view_photos] serves the same list under the id of the reply as long
    as less than the TTL has passed. *)
Theorem upload_then_view e w files sid w0 :
  steady_redis e → monotone_clock e →
  create_session SessionType.PHOTO_SHARE None e w = (Ret sid, w0) →
  (clock e (tick w + 12) < clock e (tick w + 2) + SESSION_TTL)%Z →
  length files ≤ 10 → Forall acceptable files →
  Forall (λ file, 0 ≤ default 0 (snd <$> processed file))%Z files →
  (processed_size files ≤ MAX_SESSION_BYTES)%Z →
  ∃ w1 w2,
    upload_photos files e w
      = (Ret {| upload_session_id := sid; upload_files := processed_names files |},
         w1) ∧
    sid ∈ tmp_data w1 ∧
    view_photos sid e w1
      = (Ret {| photos_session_id := sid;
                photos_files := JList (JStr <$> processed_names files);
                photos_expires_at := (clock e (tick w + 2) + SESSION_TTL)%Z |},
         w2).
Proof.
  intros Hsteady Hmc Hcs Hfresh Hlen Hall Hpos Hsum. unfold upload_photos.
  rewrite (proj2 (Nat.ltb_ge _ _)) by done.
  rewrite (bind_ret _ _ _ _ _ _ Hcs).
  unfold bind at 1. unfold os_makedirs at 1, modify at 1.
  unfold bind at 1.
  rewrite (upload_loop_accepts files _ _ _ _ Hall Hpos) by (done || lia).
  cbn [app].
  destruct (kept_create e w _ _ sid w0 Hsteady Hcs)
    as (_ & Hkept & _ & _ & _ & Htick).
  set (wd := set_tmp_data _ w0).
  assert (kept e wd sid (created_record e w SessionType.PHOTO_SHARE None)) as Hkeptd.
  { apply (kept_frame e w0 wd sid _ _ Hkept); [done|]. apply Hkept. }
  destruct (kept_update e wd sid _
              {[ "files" := JList (JStr <$> processed_names files) ]} Hkeptd)
    as (w1 & Hupd & Hkept1 & _ & Htmp1 & _ & Htick1).
  { cbn. assert (clock e (tick w0) ≤ clock e (tick w + 12))%Z by (apply Hmc; lia).
    unfold read_grace_period, timedelta_minutes. lia. }
  rewrite (bind_ret _ _ _ _ _ _ Hupd). unfold ret.
  destruct (kept_get_session e w1 sid _ Hkept1) as (w2 & Hget & _).
  { cbn. cbn in Htick1.
    assert (clock e (tick w1) ≤ clock e (tick w + 12))%Z by (apply Hmc; lia).
    unfold read_grace_period, timedelta_minutes. lia. }
  exists w1, w2. split; [reflexivity|].
  split; [rewrite Htmp1; cbn; apply elem_of_union; left; by apply elem_of_singleton|].
  unfold view_photos. rewrite (bind_ret _ _ _ _ _ _ Hget).
  cbn [merged with_data session_type created_record expires_at data].
  change (negb (String.eqb SessionType.PHOTO_SHARE SessionType.PHOTO_SHARE)) with false.
  cbn iota. unfold dict_get, dict_update.
  by rewrite lookup_union, lookup_singleton_eq.
Qed.

(** X25. The JPEG quality used for large images is never above the
    configured [JPEG_QUALITY] exactly when that setting is at least 60:
    with a lower setting, the images of more than two megapixels are
    saved at a higher quality than the small ones. *)
Theorem save_quality_reduces JPEG_QUALITY :
  (∀ width height, save_quality JPEG_QUALITY width height ≤ JPEG_QUALITY)%Z
  ↔ (60 ≤ JPEG_QUALITY)%Z.
Proof.
  split.
  - intros Hall. specialize (Hall 2000%Z 1500%Z). unfold save_quality in Hall.
    change (2000000 <? 2000 * 1500)%Z with true in Hall.
    change (5000000 <? 2000 * 1500)%Z with false in Hall.
    cbv beta iota zeta in Hall. lia.
  - intros Hq width height. unfold save_quality.
    destruct (Z.ltb_spec 2000000 (width * height)),
             (Z.ltb_spec 5000000 (width * height)); lia.
Qed.

(** * The properties on the scenarios *)

Lemma chat_world_held : held offline chat_world "s1" chat_record.
Proof. split; [apply Z.leb_le|]; vm_compute; reflexivity. Qed.

Lemma poll_world_held : held offline poll_world "s1" poll_record.
Proof. split; [apply Z.leb_le|]; vm_compute; reflexivity. Qed.

Lemma chat_world_kept : kept offline chat_world "s1" chat_record.
Proof. split; [vm_compute; reflexivity|apply offline_silent]. Qed.

Lemma poll_world_kept : kept offline poll_world "s1" poll_record.
Proof. split; [vm_compute; reflexivity|apply offline_silent]. Qed.

Lemma board_world_kept : kept offline board_world "s1" board_record.
Proof. split; [vm_compute; reflexivity|apply offline_silent]. Qed.

Lemma poll_record_state : poll_state poll_record [JStr "Lunch?"] 2 [].
Proof.
  unfold poll_state.
  split; [reflexivity|]. split; [vm_compute; reflexivity|].
  split; [vm_compute; reflexivity|]. split; [vm_compute; reflexivity|].
  split; [vm_compute; reflexivity|]. cbn [length]. lia.
Qed.

Lemma chat_message_stored_and_broadcast_witness :
  (kept offline chat_world "s1" chat_record ∧
   within_grace offline chat_record (tick chat_world) (tick chat_world + 5) ∧
   dict_get (data chat_record) "messages" (JList []) = JList [] ∧
   decoded [("text", JStr "hi")] !! "text" = Some (JStr "hi")) ∧
  ∃ w' message_id timestamp,
    chat_on_message (λ _ _, true) ConnectionManager.two_clients "s1"
        (JDict [("text", JStr "hi")]) offline chat_world
      = (Ret (ConnectionManager.send_each (λ _ _, true) (JDict [("text", JStr "hi")])
                (default [] (ConnectionManager.two_clients !! "s1"))), w') ∧
    kept offline w' "s1"
      (merged chat_record
         {[ "messages" :=
              JList ([] ++ [JDict [("id", JStr message_id); ("text", JStr "hi");
                                   ("timestamp", JStr timestamp)]]) ]}) ∧
    redis_db w' = redis_db chat_world ∧ tmp_data w' = tmp_data chat_world.
Proof.
  assert (within_grace offline chat_record (tick chat_world) (tick chat_world + 5))
    as Hgrace by (apply offline_within_grace; vm_compute; discriminate).
  assert (dict_get (data chat_record) "messages" (JList []) = JList []) as Hlist
    by (vm_compute; reflexivity).
  assert (decoded [("text", JStr "hi")] !! "text" = Some (JStr "hi")) as Htext
    by (vm_compute; reflexivity).
  split.
  { split; [exact chat_world_kept|]. split; [exact Hgrace|].
    split; [exact Hlist|exact Htext]. }
  exact (chat_message_stored_and_broadcast (λ _ _, true) ConnectionManager.two_clients
           offline chat_world "s1" chat_record [] [("text", JStr "hi")] (JStr "hi")
           chat_world_kept Hgrace Hlist Htext).
Defined.

Lemma message_for_absent_session_dropped_witness :
  (monotone_clock late ∧ absent_at (clock late (tick stale_world)) stale_world "s1") ∧
  ∃ w', chat_on_message (λ _ _, true) ConnectionManager.two_clients "s1"
          (JStr "hi") late stale_world = (Ret [], w') ∧
    whiteboard_on_message (λ _ _, true) ConnectionManager.two_clients "s1"
          (JStr "hi") late stale_world = (Ret [], w') ∧
    redis_db w' = redis_db stale_world ∧ tmp_data w' = tmp_data stale_world ∧
    (memory_storage w' = memory_storage stale_world ∨
     memory_storage w' = delete "s1" (memory_storage stale_world)).
Proof.
  assert (monotone_clock late) as Hmc by (apply jump_monotone; lia).
  assert (absent_at (clock late (tick stale_world)) stale_world "s1") as Habs.
  { split.
    - intros r dl Hl. vm_compute in Hl. discriminate.
    - intros r Hl. vm_compute in Hl. injection Hl as <-. vm_compute. reflexivity. }
  split; [split; assumption|].
  exact (message_for_absent_session_dropped (λ _ _, true)
           ConnectionManager.two_clients late stale_world "s1" (JStr "hi") Hmc Habs).
Defined.

Lemma chat_message_without_text_crashes_witness :
  (steady_redis offline ∧ monotone_clock offline ∧
   held offline chat_world "s1" chat_record ∧
   (clock offline (tick chat_world + 2) < expires_at chat_record)%Z ∧
   (∃ l, dict_get (data chat_record) "messages" (JList []) = JList l) ∧
   decoded [("body", JStr "hi")] !! "text" = None) ∧
  ∃ w', chat_websocket (λ _ _, true) 3 "s1"
          [Message (JDict [("body", JStr "hi")]); Closed]
          ConnectionManager.two_clients offline chat_world
          = (Crashed KeyError, [],
             ConnectionManager.connect 3 "s1" ConnectionManager.two_clients, w') ∧
    same_stores chat_world w' ∧
    3 ∈ default []
          (ConnectionManager.connect 3 "s1" ConnectionManager.two_clients !! "s1").
Proof.
  assert (clock offline (tick chat_world + 2) < expires_at chat_record)%Z as Hfresh
    by (vm_compute; reflexivity).
  assert (∃ l, dict_get (data chat_record) "messages" (JList []) = JList l) as Hlist
    by (exists []; vm_compute; reflexivity).
  assert (decoded [("body", JStr "hi")] !! "text" = None) as Htext
    by (vm_compute; reflexivity).
  split.
  { split; [exact (steady_is_steady false ticking)|].
    split; [exact (ticking_monotone false)|].
    split; [apply chat_world_held|]. split; [exact Hfresh|].
    split; [exact Hlist|exact Htext]. }
  exact (chat_message_without_text_crashes (λ _ _, true) 3
           ConnectionManager.two_clients offline chat_world "s1" chat_record
           [("body", JStr "hi")] [Closed]
           (steady_is_steady false ticking) (ticking_monotone false) chat_world_held
           Hfresh Hlist Htext).
Defined.

Lemma whiteboard_drawing_stored_and_broadcast_witness :
  (kept offline board_world "s1" board_record ∧
   within_grace offline board_record (tick board_world) (tick board_world + 5) ∧
   dict_get (data board_record) "drawings" (JList []) = JList []) ∧
  ∃ w',
    whiteboard_on_message (λ _ _, true) ConnectionManager.two_clients "s1"
        (JFloat (float_of_Z 7)) offline board_world
      = (Ret (ConnectionManager.send_each (λ _ _, true) (JFloat (float_of_Z 7))
                (default [] (ConnectionManager.two_clients !! "s1"))), w') ∧
    kept offline w' "s1"
      (merged board_record {[ "drawings" := JList ([] ++ [JFloat (float_of_Z 7)]) ]}) ∧
    redis_db w' = redis_db board_world ∧ tmp_data w' = tmp_data board_world.
Proof.
  assert (within_grace offline board_record (tick board_world) (tick board_world + 5))
    as Hgrace by (apply offline_within_grace; vm_compute; discriminate).
  assert (dict_get (data board_record) "drawings" (JList []) = JList []) as Hlist
    by (vm_compute; reflexivity).
  split.
  { split; [exact board_world_kept|]. split; [exact Hgrace|exact Hlist]. }
  exact (whiteboard_drawing_stored_and_broadcast (λ _ _, true)
           ConnectionManager.two_clients offline board_world "s1" board_record []
           (JFloat (float_of_Z 7)) board_world_kept Hgrace Hlist).
Defined.

Lemma connect_then_disconnect_witness :
  ((3 ∉ default [] (ConnectionManager.two_clients !! "s1")) ∧
   (ConnectionManager.two_clients !! "s1" ≠ Some [])) ∧
  ConnectionManager.disconnect 3 "s1"
    (ConnectionManager.connect 3 "s1" ConnectionManager.two_clients)
    = (Ret tt, ConnectionManager.two_clients).
Proof.
  assert (ConnectionManager.two_clients !! "s1" = Some [1; 2]) as Hl
    by (vm_compute; reflexivity).
  assert (3 ∉ default [] (ConnectionManager.two_clients !! "s1")) as Hnotin.
  { rewrite Hl. cbn. intros Hin.
    apply elem_of_cons in Hin as [Hin|Hin]; [discriminate Hin|].
    apply elem_of_cons in Hin as [Hin|Hin]; [discriminate Hin|].
    by apply elem_of_nil in Hin. }
  assert (ConnectionManager.two_clients !! "s1" ≠ Some []) as Hne.
  { intros Heq. vm_compute in Heq. discriminate Heq. }
  split; [split; assumption|].
  exact (connect_then_disconnect 3 "s1" ConnectionManager.two_clients Hnotin Hne).
Defined.

Lemma create_then_get_chat_room_witness :
  (steady_redis offline ∧ monotone_clock offline ∧
   create_chat_room "Team" offline empty_world
     = (Ret {| created_session_id := "s1"; created_room_name := "Team" |},
        chat_world) ∧
   (clock offline (tick empty_world + 7)
      < clock offline (tick empty_world + 2) + SESSION_TTL)%Z) ∧
  ∃ w2, get_chat_room "s1" offline chat_world
          = (Ret {| room_session_id := "s1"; room_name := JStr "Team";
                    room_expires_at :=
                      (clock offline (tick empty_world + 2) + SESSION_TTL)%Z |},
             w2) ∧
    same_stores chat_world w2.
Proof.
  assert (create_chat_room "Team" offline empty_world
            = (Ret {| created_session_id := "s1"; created_room_name := "Team" |},
               chat_world)) as Hcreate by (vm_compute; reflexivity).
  assert (clock offline (tick empty_world + 7)
            < clock offline (tick empty_world + 2) + SESSION_TTL)%Z as Hfresh
    by (vm_compute; reflexivity).
  split.
  { split; [exact (steady_is_steady false ticking)|].
    split; [exact (ticking_monotone false)|]. split; assumption. }
  exact (proj2 (create_then_get_chat_room offline empty_world "Team" _ chat_world
                  (steady_is_steady false ticking) (ticking_monotone false)
                  Hcreate Hfresh)).
Defined.

Lemma create_then_get_whiteboard_witness :
  (steady_redis offline ∧ monotone_clock offline ∧
   create_whiteboard offline empty_world = (Ret "s1", board_world) ∧
   (clock offline (tick empty_world + 7)
      < clock offline (tick empty_world + 2) + SESSION_TTL)%Z) ∧
  ∃ w2, get_whiteboard "s1" offline board_world
          = (Ret {| board_session_id := "s1"; board_drawings := JList [];
                    board_expires_at :=
                      (clock offline (tick empty_world + 2) + SESSION_TTL)%Z |},
             w2) ∧
    same_stores board_world w2.
Proof.
  assert (create_whiteboard offline empty_world = (Ret "s1", board_world)) as Hcreate
    by (vm_compute; reflexivity).
  assert (clock offline (tick empty_world + 7)
            < clock offline (tick empty_world + 2) + SESSION_TTL)%Z as Hfresh
    by (vm_compute; reflexivity).
  split.
  { split; [exact (steady_is_steady false ticking)|].
    split; [exact (ticking_monotone false)|]. split; assumption. }
  exact (create_then_get_whiteboard offline empty_world "s1" board_world
           (steady_is_steady false ticking) (ticking_monotone false) Hcreate Hfresh).
Defined.

Lemma endpoints_check_the_type_witness :
  get_session_origin "s1" offline poll_world
    = (Ret (Some (poll_record, FromMemory)),
       (get_session_origin "s1" offline poll_world).2) ∧
  get_chat_room "s1" offline poll_world
    = (Raise (HTTPException 404), (get_session_origin "s1" offline poll_world).2) ∧
  get_whiteboard "s1" offline poll_world
    = (Raise (HTTPException 404), (get_session_origin "s1" offline poll_world).2) ∧
  view_photos "s1" offline poll_world
    = (Raise (HTTPException 404), (get_session_origin "s1" offline poll_world).2).
Proof.
  assert (get_session_origin "s1" offline poll_world
            = (Ret (Some (poll_record, FromMemory)),
               (get_session_origin "s1" offline poll_world).2)) as Hget
    by (vm_compute; reflexivity).
  destruct (endpoints_check_the_type offline poll_world "s1" _ _ ["yes"] Hget)
    as (Hchat & Hboard & Hphotos & _).
  split; [exact Hget|].
  split; [|split].
  - apply Hchat. intros r from [= <- _]. discriminate.
  - apply Hboard. intros r from [= <- _]. discriminate.
  - apply Hphotos. intros r from [= <- _]. discriminate.
Defined.

Lemma create_then_get_quick_poll_witness :
  (steady_redis offline ∧ monotone_clock offline ∧
   create_quick_poll ["Lunch?"] 2 offline empty_world = (Ret "s1", poll_world) ∧
   (clock offline (tick empty_world + 7)
      < clock offline (tick empty_world + 2) + SESSION_TTL)%Z) ∧
  length ["Lunch?"] ≤ 3 ∧ (1 ≤ 2)%Z ∧
  ∃ w2, get_quick_poll "s1" offline poll_world
          = (Ret {| poll_session_id := "s1";
                    poll_questions := JList (JStr <$> ["Lunch?"]);
                    poll_min_responses := JInt 2;
                    poll_response_count := 0;
                    poll_results_shown := JBool false;
                    poll_expires_at :=
                      (clock offline (tick empty_world + 2) + SESSION_TTL)%Z |},
             w2) ∧
    same_stores poll_world w2.
Proof.
  assert (create_quick_poll ["Lunch?"] 2 offline empty_world = (Ret "s1", poll_world))
    as Hcreate by (vm_compute; reflexivity).
  assert (clock offline (tick empty_world + 7)
            < clock offline (tick empty_world + 2) + SESSION_TTL)%Z as Hfresh
    by (vm_compute; reflexivity).
  split.
  { split; [exact (steady_is_steady false ticking)|].
    split; [exact (ticking_monotone false)|]. split; assumption. }
  exact (create_then_get_quick_poll offline empty_world ["Lunch?"] 2 "s1" poll_world
           (steady_is_steady false ticking) (ticking_monotone false) Hcreate Hfresh).
Defined.

Lemma submit_keeps_poll_state_witness :
  (kept offline poll_world "s1" poll_record ∧
   within_grace offline poll_record (tick poll_world) (tick poll_world + 5) ∧
   poll_state poll_record [JStr "Lunch?"] 2 []) ∧
  ∃ res w' r' stored',
    submit_poll_response "s1" ["yes"] offline poll_world = (res, w') ∧
    kept offline w' "s1" r' ∧ poll_state r' [JStr "Lunch?"] 2 stored' ∧
    redis_db w' = redis_db poll_world ∧ tmp_data w' = tmp_data poll_world ∧
    (((Z.of_nat (length ([] : list json)) < 2)%Z ∧
      length ["yes"] = length [JStr "Lunch?"] ∧
      (∃ response_id timestamp,
         stored' = [] ++ [JDict [("id", JStr response_id);
                                 ("responses", JList (JStr <$> ["yes"]));
                                 ("timestamp", JStr timestamp)]]) ∧
      res = Ret {| response_count := S (length ([] : list json));
                   results_shown := (2 <=? Z.of_nat (S (length ([] : list json))))%Z;
                   min_responses := JInt 2 |})
     ∨
     ((Z.of_nat (length ([] : list json)) = 2%Z ∨
       length ["yes"] ≠ length [JStr "Lunch?"]) ∧
      stored' = [] ∧ r' = poll_record ∧ res = Raise (HTTPException 400))).
Proof.
  assert (within_grace offline poll_record (tick poll_world) (tick poll_world + 5))
    as Hgrace by (apply offline_within_grace; vm_compute; discriminate).
  split.
  { split; [exact poll_world_kept|]. split; [exact Hgrace|exact poll_record_state]. }
  exact (submit_keeps_poll_state offline poll_world "s1" poll_record
           [JStr "Lunch?"] 2 [] ["yes"] poll_world_kept Hgrace poll_record_state).
Defined.

Lemma poll_results_when_complete_witness :
  (steady_redis offline ∧ monotone_clock offline ∧
   held offline poll_world "s1" poll_record ∧
   (clock offline (tick poll_world + 2) < expires_at poll_record)%Z ∧
   poll_state poll_record [JStr "Lunch?"] 2 []) ∧
  ∃ w', same_stores poll_world w' ∧
    get_poll_results "s1" offline poll_world
      = (if (2 <=? Z.of_nat (length ([] : list json)))%Z
         then Ret {| reply_session_id := "s1";
                     reply_questions := JList [JStr "Lunch?"];
                     reply_responses := JList [] |}
         else Raise (HTTPException 400), w').
Proof.
  assert (clock offline (tick poll_world + 2) < expires_at poll_record)%Z as Hfresh
    by (vm_compute; reflexivity).
  split.
  { split; [exact (steady_is_steady false ticking)|].
    split; [exact (ticking_monotone false)|].
    split; [exact poll_world_held|]. split; [exact Hfresh|exact poll_record_state]. }
  exact (poll_results_when_complete offline poll_world "s1" poll_record
           [JStr "Lunch?"] 2 []
           (steady_is_steady false ticking) (ticking_monotone false)
           poll_world_held Hfresh poll_record_state).
Defined.

Lemma acceptable_two_photos : Forall acceptable two_photos.
Proof.
  repeat constructor; try (vm_compute; reflexivity);
    try (cbn; unfold MAX_UPLOAD_BYTES; lia); eexists _, _; reflexivity.
Qed.

Lemma upload_photos_accepts_only_witness :
  upload_photos two_photos offline empty_world
    = (Ret {| upload_session_id := "s1";
              upload_files := ["img_1_a.jpg"; "img_2_b.jpg"] |},
       (upload_photos two_photos offline empty_world).2) ∧
  length two_photos ≤ 10 ∧ Forall acceptable two_photos ∧
  (processed_size two_photos ≤ MAX_SESSION_BYTES)%Z ∧
  ["img_1_a.jpg"; "img_2_b.jpg"] = processed_names two_photos.
Proof.
  assert (upload_photos two_photos offline empty_world
            = (Ret {| upload_session_id := "s1";
                      upload_files := ["img_1_a.jpg"; "img_2_b.jpg"] |},
               (upload_photos two_photos offline empty_world).2)) as Hup
    by (vm_compute; reflexivity).
  split; [exact Hup|].
  exact (upload_photos_accepts_only offline empty_world two_photos _ _ Hup).
Defined.

Lemma upload_rejected_leaves_session_witness :
  (steady_redis offline ∧ monotone_clock offline ∧
   length (two_photos ++ [text_file]) ≤ 10 ∧
   Exists (λ file, ¬ acceptable file) (two_photos ++ [text_file]) ∧
   create_session SessionType.PHOTO_SHARE None offline empty_world
     = (Ret "s1", (create_session SessionType.PHOTO_SHARE None offline empty_world).2)) ∧
  ∃ w', upload_photos (two_photos ++ [text_file]) offline empty_world
          = (Raise (HTTPException 400), w') ∧
    held offline w' "s1" (created_record offline empty_world SessionType.PHOTO_SHARE None) ∧
    "s1" ∈ tmp_data w'.
Proof.
  assert (length (two_photos ++ [text_file]) ≤ 10) as Hlen by (cbn; lia).
  assert (Exists (λ file, ¬ acceptable file) (two_photos ++ [text_file])) as Hbad.
  { apply Exists_app. right. apply Exists_cons. left.
    intros (Hallowed & _). vm_compute in Hallowed. discriminate Hallowed. }
  assert (create_session SessionType.PHOTO_SHARE None offline empty_world
            = (Ret "s1",
               (create_session SessionType.PHOTO_SHARE None offline empty_world).2))
    as Hcs by (vm_compute; reflexivity).
  split.
  { split; [exact (steady_is_steady false ticking)|].
    split; [exact (ticking_monotone false)|].
    split; [exact Hlen|]. split; [exact Hbad|exact Hcs]. }
  exact (upload_rejected_leaves_session offline empty_world (two_photos ++ [text_file])
           "s1" _ (steady_is_steady false ticking) (ticking_monotone false)
           Hlen Hbad Hcs).
Defined.

Lemma upload_then_view_witness :
  (steady_redis offline ∧ monotone_clock offline ∧
   create_session SessionType.PHOTO_SHARE None offline empty_world
     = (Ret "s1", (create_session SessionType.PHOTO_SHARE None offline empty_world).2) ∧
   (clock offline (tick empty_world + 12)
      < clock offline (tick empty_world + 2) + SESSION_TTL)%Z ∧
   length two_photos ≤ 10 ∧ Forall acceptable two_photos ∧
   Forall (λ file, 0 ≤ default 0 (snd <$> processed file))%Z two_photos ∧
   (processed_size two_photos ≤ MAX_SESSION_BYTES)%Z) ∧
  ∃ w1 w2,
    upload_photos two_photos offline empty_world
      = (Ret {| upload_session_id := "s1";
                upload_files := processed_names two_photos |}, w1) ∧
    "s1" ∈ tmp_data w1 ∧
    view_photos "s1" offline w1
      = (Ret {| photos_session_id := "s1";
                photos_files := JList (JStr <$> processed_names two_photos);
                photos_expires_at :=
                  (clock offline (tick empty_world + 2) + SESSION_TTL)%Z |},
         w2).
Proof.
  assert (create_session SessionType.PHOTO_SHARE None offline empty_world
            = (Ret "s1",
               (create_session SessionType.PHOTO_SHARE None offline empty_world).2))
    as Hcs by (vm_compute; reflexivity).
  assert (clock offline (tick empty_world + 12)
            < clock offline (tick empty_world + 2) + SESSION_TTL)%Z as Hfresh
    by (vm_compute; reflexivity).
  assert (length two_photos ≤ 10) as Hlen by (cbn; lia).
  assert (Forall (λ file, 0 ≤ default 0 (snd <$> processed file))%Z two_photos)
    as Hpos by (repeat constructor; cbn; lia).
  assert (processed_size two_photos ≤ MAX_SESSION_BYTES)%Z as Hsum
    by (apply Z.leb_le; vm_compute; reflexivity).
  split.
  { split; [exact (steady_is_steady false ticking)|].
    split; [exact (ticking_monotone false)|].
    split; [exact Hcs|]. split; [exact Hfresh|]. split; [exact Hlen|].
    split; [exact acceptable_two_photos|]. split; [exact Hpos|exact Hsum]. }
  exact (upload_then_view offline empty_world two_photos "s1" _
           (steady_is_steady false ticking) (ticking_monotone false)
           Hcs Hfresh Hlen acceptable_two_photos Hpos Hsum).
Defined.

Lemma get_session_sound_witness :
  get_session "s1" offline chat_world
    = (Ret (Some chat_record), (get_session "s1" offline chat_world).2) ∧
  (clock offline (tick chat_world) ≤ expires_at chat_record + read_grace_period)%Z.
Proof.
  assert (get_session "s1" offline chat_world
            = (Ret (Some chat_record), (get_session "s1" offline chat_world).2))
    as Hget by (vm_compute; reflexivity).
  split; [exact Hget|].
  exact (get_session_sound offline chat_world "s1" chat_record _ Hget).
Defined.

Lemma get_session_memory_visible_witness :
  (memory_storage chat_world !! "s1" = Some chat_record ∧
   (∀ n, redis_up offline n = true →
      redis_lookup (clock offline n) (redis_db chat_world) "s1" = None)) ∧
  ∃ res w', get_session "s1" offline chat_world = (Ret res, w') ∧
    (res = Some chat_record ↔
       (clock offline (tick chat_world) ≤ expires_at chat_record + read_grace_period)%Z) ∧
    (res = None ↔
       (clock offline (tick chat_world) > expires_at chat_record + read_grace_period)%Z).
Proof.
  assert (memory_storage chat_world !! "s1" = Some chat_record) as Hm
    by (vm_compute; reflexivity).
  assert (∀ n, redis_up offline n = true →
            redis_lookup (clock offline n) (redis_db chat_world) "s1" = None) as Hredis
    by (intros n Hup; discriminate Hup).
  split; [split; assumption|].
  exact (get_session_memory_visible offline chat_world "s1" chat_record Hm Hredis).
Defined.

Lemma get_session_unknown_witness :
  (memory_storage chat_world !! "s2" = None ∧ redis_db chat_world !! "s2" = None) ∧
  ∃ w', get_session "s2" offline chat_world = (Ret None, w') ∧
    memory_storage w' = memory_storage chat_world ∧
    redis_db w' = redis_db chat_world.
Proof.
  assert (memory_storage chat_world !! "s2" = None) as Hm by (vm_compute; reflexivity).
  assert (redis_db chat_world !! "s2" = None) as Hdb by (vm_compute; reflexivity).
  split; [split; assumption|].
  exact (get_session_unknown offline chat_world "s2" Hm Hdb).
Defined.

Lemma cleanup_cycle_memory_witness :
  (redis_client stale_world = false ∧ (∀ n, redis_up late n = false)) ∧
  ∃ w', cleanup_cycle late stale_world = (Ret tt, w') ∧
    memory_storage w' !! "s1" = None.
Proof.
  assert (redis_client stale_world = false) as Hclient by (vm_compute; reflexivity).
  assert (∀ n, redis_up late n = false) as Hdown by (intros n; reflexivity).
  split; [split; assumption|].
  destruct (cleanup_cycle_memory late stale_world Hclient Hdown)
    as (w' & Hcycle & _ & _ & Hmem).
  exists w'. split; [exact Hcycle|].
  destruct (Hmem "s1") as (Hgone & _).
  apply (Hgone chat_record); vm_compute; reflexivity.
Defined.

Lemma chat_messages_stored_in_order_witness :
  (kept offline chat_world "s1" chat_record ∧
   within_grace offline chat_record (tick chat_world)
     (tick chat_world + 10 * length [JStr "hi"; JStr "there"]) ∧
   dict_get (data chat_record) "messages" (JList []) = JList [] ∧
   Forall2 (λ kv text, decoded kv !! "text" = Some text)
     [[("text", JStr "hi")]; [("text", JStr "there"); ("to", JStr "all")]]
     [JStr "hi"; JStr "there"]) ∧
  ∃ w' r' entries,
    chat_websocket (λ _ _, true) 3 "s1"
        (Message ∘ JDict <$>
           [[("text", JStr "hi")]; [("text", JStr "there"); ("to", JStr "all")]])
        ConnectionManager.two_clients offline chat_world
      = (Listening,
         flat_map (λ kv, ConnectionManager.send_each (λ _ _, true) (JDict kv)
                           (default []
                              (ConnectionManager.connect 3 "s1"
                                 ConnectionManager.two_clients !! "s1")))
           [[("text", JStr "hi")]; [("text", JStr "there"); ("to", JStr "all")]],
         ConnectionManager.connect 3 "s1" ConnectionManager.two_clients, w') ∧
    kept offline w' "s1" r' ∧
    redis_db w' = redis_db chat_world ∧ tmp_data w' = tmp_data chat_world ∧
    dict_get (data r') "messages" (JList []) = JList ([] ++ entries) ∧
    Forall2 (λ entry text, ∃ message_id timestamp,
               entry = JDict [("id", JStr message_id); ("text", text);
                              ("timestamp", JStr timestamp)])
      entries [JStr "hi"; JStr "there"].
Proof.
  assert (within_grace offline chat_record (tick chat_world)
            (tick chat_world + 10 * length [JStr "hi"; JStr "there"])) as Hgrace
    by (apply offline_within_grace; vm_compute; discriminate).
  assert (dict_get (data chat_record) "messages" (JList []) = JList []) as Hlist
    by (vm_compute; reflexivity).
  assert (Forall2 (λ kv text, decoded kv !! "text" = Some text)
            [[("text", JStr "hi")]; [("text", JStr "there"); ("to", JStr "all")]]
            [JStr "hi"; JStr "there"]) as Hall
    by (repeat constructor; vm_compute; reflexivity).
  split.
  { split; [exact chat_world_kept|]. split; [exact Hgrace|].
    split; [exact Hlist|exact Hall]. }
  exact (chat_messages_stored_in_order (λ _ _, true) 3 ConnectionManager.two_clients
           offline chat_world "s1" chat_record [] _ _
           chat_world_kept Hgrace Hlist Hall).
Defined.
